(** * Combat and progression simulation: a shallow embedding

    The Python sources (settings.py, utils.py, entities/, systems/spawner.py,
    weapons/, main.py) are embedded module by module.  Python [int]
    is [Z].  A Python [float] is an IEEE 754 double, and it is modelled
    in two ways.  Where a rounding error can change what the code does
    next (the integer that [int()] makes of a scaled stat, a timer that is
    counted down or up frame by frame and tested against 0 or a lifetime,
    the knockback of a hit) it is a binary64 number, Rocq's primitive
    [float], with the operations of the processor.  Elsewhere (stats, hit
    points, positions, the spawner's clock, the readings of the millisecond
    clock) it is an exact rational [Q], compared with [==], [<=], [<].  A [dict]
    whose iteration order matters is an association list in insertion
    order, a [dict] or [set] used only through lookups is a [gmap] or
    [gset]; sprite identity ([id(obj)]) is an integer handle; a sprite
    group is the list of its live members.  Drawing, sound and movement
    carry no weight in the properties below and are left out. *)

From Stdlib Require Import Floats ZArith QArith Qround Qpower Lqa Lia Sorted.
From stdpp Require Import gmap strings list.

Set Warnings "-inexact-float".

Local Open Scope Z_scope.

(** ** Python numeric helpers and dictionaries *)

Module Py.

(** [int(x)] on a float: truncation toward zero. *)
Definition int (x : Q) : Z := Z.quot (Qnum x) (Zpos (Qden x)).

(** [a <= b] and [a < b] on floats, as booleans. *)
Definition leb (a b : Q) : bool := Qle_bool a b.
Definition ltb (a b : Q) : bool := negb (Qle_bool b a).

(** [max(a, b)] and [min(a, b)]: the first argument wins ties. *)
Definition max (a b : Q) : Q := if ltb a b then b else a.
Definition min (a b : Q) : Q := if ltb b a then b else a.

(** [clamp] of utils.py. *)
Definition clamp (value min_val max_val : Q) : Q :=
  max min_val (min max_val value).

(** [d.get(k)] on an insertion-ordered dictionary. *)
Fixpoint get {V : Type} (k : string) (d : list (string * V)) : option V :=
  match d with
  | [] => None
  | (k', v) :: d' => if String.eqb k k' then Some v else get k d'
  end.

(** [k in d]. *)
Definition contains {V : Type} (k : string) (d : list (string * V)) : bool :=
  match get k d with Some _ => true | None => false end.

(** [d[k] = v]: an existing key keeps its place, a new key goes last. *)
Fixpoint set {V : Type} (k : string) (v : V) (d : list (string * V))
  : list (string * V) :=
  match d with
  | [] => [(k, v)]
  | (k', v') :: d' =>
      if String.eqb k k' then (k, v) :: d' else (k', v') :: set k v d'
  end.

End Py.

(** ** Doubles: the floats whose rounding matters *)

Module Float.

(** The value of a finite double, as an exact rational.  An infinity or a
    NaN has no value; the function is 0 there. *)
Definition SF2Q (x : spec_float) : Q :=
  match x with
  | S754_finite s m e =>
      let v := match e with
               | Zneg p => Zpos m # (2 ^ p)%positive
               | _ => inject_Z (Zpos m * 2 ^ e)
               end in
      if s then (- v)%Q else v
  | _ => 0%Q
  end.

Definition to_Q (x : float) : Q := SF2Q (Prim2SF x).

(** [float(n)] of an [int]: the nearest double. *)
Definition of_Z (z : Z) : float :=
  SF2Prim (binary_normalize prec emax z 0 false).

(** The double nearest to a rational, a tie going to the even mantissa: the
    float that a decimal literal of the source denotes, and the double that
    stands for an exactly kept quantity where it enters a float
    computation (the quantity itself when it is a double). *)
Definition of_Q (q : Q) : float :=
  match Qnum q with
  | Z0 => 0%float
  | Zpos n =>
      SF2Prim (SFdiv prec emax (S754_finite false n 0)
                 (S754_finite false (Qden q) 0))
  | Zneg n =>
      SF2Prim (SFdiv prec emax (S754_finite true n 0)
                 (S754_finite false (Qden q) 0))
  end.

(** [int(x)] on a double: its value truncated toward zero.  Python raises
    OverflowError on an infinity and ValueError on a NaN; the function is 0
    there, and what is stated about it carries [is_finite]. *)
Definition int (x : float) : Z := Py.int (to_Q x).

End Float.

(** ** pygame's [Vector2] on C doubles *)

Module Vec.

Definition t : Type := (float * float)%type.

(** [Vector2()] *)
Definition zero : t := (0, 0)%float.

(** [Vector2(p)] of a pair of ints *)
Definition of_point (p : Z * Z) : t := (Float.of_Z (fst p), Float.of_Z (snd p)).

Definition sub (a b : t) : t := (fst a - fst b, snd a - snd b)%float.

(** [bool(v)]: some coordinate is not 0. *)
Definition truthy (v : t) : bool :=
  negb (fst v =? 0)%float || negb (snd v =? 0)%float.

(** [v.magnitude()]: the square root of the scalar product, which is
    summed from 0. *)
Definition magnitude (v : t) : float :=
  sqrt (0 + fst v * fst v + snd v * snd v)%float.

(** [v.normalize()] of a vector of non-zero length *)
Definition normalize (v : t) : t :=
  let length := magnitude v in (fst v / length, snd v / length)%float.

(** [v * k] *)
Definition scale (v : t) (k : float) : t := (fst v * k, snd v * k)%float.

End Vec.

(** ** The [random] module: a tape of draws stands for the generator *)

Module Random.

Record t := mk { tape : nat -> nat; cursor : nat }.

Definition next (g : t) : nat * t :=
  (tape g (cursor g), mk (tape g) (S (cursor g))).

(** [random.random()]: a float in [0, 1). *)
Definition resolution : Z := 1000000.

Definition random (g : t) : Q * t :=
  let (k, g') := next g in
  ((inject_Z (Z.of_nat k mod resolution) / inject_Z resolution)%Q, g').

(** [random.uniform(a, b)] is [a + (b - a) * random()]. *)
Definition uniform (a b : Q) (g : t) : Q * t :=
  let (r, g') := random g in ((a + (b - a) * r)%Q, g').

(** [_randbelow(n)]: an index below [n]. *)
Definition randbelow (n : nat) (g : t) : nat * t :=
  let (k, g') := next g in ((k mod n)%nat, g').

(** [x[i], x[j] = x[j], x[i]] *)
Definition swap {A : Type} (i j : nat) (x : list A) : list A :=
  match x !! i, x !! j with
  | Some a, Some b => <[j:=a]> (<[i:=b]> x)
  | _, _ => x
  end.

(** [random.shuffle(x)]:
    [for i in reversed(range(1, len(x))): j = randbelow(i + 1); swap]. *)
Fixpoint shuffle_from {A : Type} (i : nat) (x : list A) (g : t) : list A * t :=
  match i with
  | O => (x, g)
  | S i' =>
      let (j, g') := randbelow (S i) g in
      shuffle_from i' (swap i j x) g'
  end.

Definition shuffle {A : Type} (x : list A) (g : t) : list A * t :=
  shuffle_from (length x - 1)%nat x g.

(** [random.choice(seq)] for a non-empty [seq] (it raises on an empty one,
    which is [None] here). *)
Definition choice {A : Type} (seq : list A) (g : t) : option A * t :=
  let (j, g') := randbelow (length seq) g in (seq !! j, g').

End Random.

(** ** settings.py *)

Module Settings.

(** [XP_SETTINGS] *)
Definition base_xp_to_level : Z := 100.
Definition xp_per_level_increase : Z := 50.

(** [PLAYER_SETTINGS] *)
Definition player_max_hp : Q := 100.
Definition player_move_speed : Q := 200.
Definition player_pickup_radius : Q := 80.
Definition player_might : Q := 1.
Definition player_cooldown_reduction : Q := 0.
Definition player_armor : Q := 0.
Definition player_regen : Q := 0.
Definition player_i_frames_duration : Q := 1 # 2.

(** One entry of [WEAPON_DATA]. *)
Record scaling := mk_scaling {
  s_damage : Q;
  s_cooldown : Q;
  s_area : Q;
  s_amount : Z
}.

Record weapon_data := mk_weapon {
  base_damage : Q;
  base_cooldown : Q;
  base_area : Q;
  base_speed : Q;
  base_amount : Z;
  base_pierce : option Z;
  base_radius : option Q;
  w_max_level : Z;
  w_scaling : scaling;
  evolution : option string;
  evolution_passive : option string
}.

Definition whip_data : weapon_data :=
  mk_weapon 20 (3 # 2) 1 1 1 (Some 999) None 8
    (mk_scaling 5 (-1 # 10) (1 # 10) 0)
    (Some "bloody_whip"%string) (Some "might_boost"%string).

Definition wand_data : weapon_data :=
  mk_weapon 10 1 1 400 1 (Some 1) None 8
    (mk_scaling 3 (-8 # 100) 0 1)
    (Some "holy_wand"%string) (Some "cooldown_boost"%string).

Definition garlic_data : weapon_data :=
  mk_weapon 5 (1 # 2) 1 0 1 (Some 999) (Some 60%Q) 8
    (mk_scaling 2 (-3 # 100) (15 # 100) 0)
    (Some "soul_eater"%string) (Some "regen_boost"%string).

Definition axe_data : weapon_data :=
  mk_weapon 25 2 1 300 1 (Some 999) None 8
    (mk_scaling 8 (-12 # 100) (1 # 10) 1)
    (Some "death_spiral"%string) (Some "max_hp_boost"%string).

Definition knife_data : weapon_data :=
  mk_weapon 8 (3 # 10) 1 500 1 (Some 1) None 8
    (mk_scaling 2 (-2 # 100) 0 1)
    (Some "thousand_edge"%string) (Some "speed_boost"%string).

Definition WEAPON_DATA : list (string * weapon_data) :=
  [("whip"%string, whip_data); ("wand"%string, wand_data);
   ("garlic"%string, garlic_data); ("axe"%string, axe_data);
   ("knife"%string, knife_data)].

(** [EVOLUTION_DATA]: the optional ['damage_mult'] of each entry. *)
Record evolution_data := mk_evolution { damage_mult : option Q }.

Definition EVOLUTION_DATA : list (string * evolution_data) :=
  [("bloody_whip"%string, mk_evolution (Some 2%Q));
   ("holy_wand"%string, mk_evolution (Some (3 # 2)));
   ("soul_eater"%string, mk_evolution (Some (18 # 10)))].

(** [ENEMY_DATA] *)
Record enemy_data := mk_enemy {
  e_hp : Z;
  e_damage : Z;
  e_speed : Q;
  e_xp_value : Z;
  e_spawn_weight : Q;
  e_spawn_count : option nat
}.

Definition chaser_data : enemy_data := mk_enemy 10 10 80 1 50 None.
Definition tank_data : enemy_data := mk_enemy 50 20 40 5 20 None.
Definition swarm_data : enemy_data := mk_enemy 5 5 100 1 30 (Some 5%nat).
Definition ghost_data : enemy_data := mk_enemy 15 15 70 3 15 None.
Definition bat_data : enemy_data := mk_enemy 8 8 120 2 25 None.
Definition boss_data : enemy_data := mk_enemy 500 30 50 50 0 None.

Definition ENEMY_DATA : list (string * enemy_data) :=
  [("chaser"%string, chaser_data); ("tank"%string, tank_data);
   ("swarm"%string, swarm_data); ("ghost"%string, ghost_data);
   ("bat"%string, bat_data); ("boss"%string, boss_data)].

(** [PASSIVE_DATA] *)
Inductive stat :=
  | st_might | st_max_hp | st_regen | st_pickup_radius
  | st_armor | st_move_speed | st_cooldown_reduction.

Record passive_data := mk_passive {
  p_stat : stat;
  p_value : Q;
  p_max_level : Z
}.

Definition PASSIVE_DATA : list (string * passive_data) :=
  [("might_boost"%string, mk_passive st_might (1 # 10) 5);
   ("max_hp_boost"%string, mk_passive st_max_hp 20 5);
   ("regen_boost"%string, mk_passive st_regen (1 # 2) 5);
   ("pickup_boost"%string, mk_passive st_pickup_radius (2 # 10) 5);
   ("armor_boost"%string, mk_passive st_armor 1 5);
   ("speed_boost"%string, mk_passive st_move_speed (1 # 10) 5);
   ("cooldown_boost"%string, mk_passive st_cooldown_reduction (8 # 100) 5)].

(** [DROP_SETTINGS] *)
Definition health_pickup_value : Q := 20.
Definition health_pickup_drop_chance : Q := 2 # 100.
Definition chest_drop_chance : Q := 5 # 1000.

(** [SPAWNER_SETTINGS] *)
Definition base_spawn_rate : Q := 1.
Definition spawn_rate_increase : Q := 1 # 10.
Definition max_spawn_rate : Q := 10.
Definition boss_spawn_interval : Q := 600.
Definition difficulty_hp_scale : Q := 5 # 100.
Definition difficulty_damage_scale : Q := 2 # 100.

Definition WORLD_WIDTH : Q := 2000.
Definition WORLD_HEIGHT : Q := 2000.

(** [MAX_WEAPONS], [MAX_PASSIVES] *)
Definition MAX_WEAPONS : nat := 6.
Definition MAX_PASSIVES : nat := 6.

End Settings.

(** ** pygame's [Rect] and [Vector2] *)

Module Rect.

Record t := mk { x : Z; y : Z; w : Z; h : Z }.

(** [a.colliderect(b)]: the two rectangles overlap in a non-empty area. *)
Definition colliderect (a b : t) : bool :=
  negb (w a =? 0) && negb (h a =? 0) && negb (w b =? 0) && negb (h b =? 0)
  && (Z.min (x a) (x a + w a) <? Z.max (x b) (x b + w b))
  && (Z.min (y a) (y a + h a) <? Z.max (y b) (y b + h b))
  && (Z.min (x b) (x b + w b) <? Z.max (x a) (x a + w a))
  && (Z.min (y b) (y b + h b) <? Z.max (y a) (y a + h a)).

(** [r.inflate(dx, dy)]: resized around the centre. *)
Definition inflate (dx dy : Z) (r : t) : t :=
  mk (x r - Z.quot dx 2) (y r - Z.quot dy 2) (w r + dx) (h r + dy).

(** [r.center], a pair of ints *)
Definition center (r : t) : Z * Z :=
  (x r + Z.quot (w r) 2, y r + Z.quot (h r) 2).

End Rect.

Definition Vector2 : Type := (Q * Q)%type.

Definition vadd (a b : Vector2) : Vector2 :=
  (fst a + fst b, snd a + snd b)%Q.

(** ** entities/player.py *)

Module Player.

Record t := mk {
  max_hp : Q;
  hp : Q;
  move_speed : Q;
  pickup_radius : Q;
  might : Q;
  cooldown_reduction : Q;
  armor : Q;
  regen : Q;
  level : Z;
  xp : Z;
  xp_to_next_level : Z;
  i_frames_duration : float;
  i_frames_timer : float;
  is_invincible : bool;
  damage_taken : Q;
  dead : bool;
  hitbox : Rect.t;
  (** [cheat_settings.get('unlimited_health', False)] *)
  unlimited_health : bool;
  regen_timer : float
}.

Definition set_hp (v : Q) (p : t) : t :=
  mk (max_hp p) v (move_speed p) (pickup_radius p) (might p)
     (cooldown_reduction p) (armor p) (regen p) (level p) (xp p)
     (xp_to_next_level p) (i_frames_duration p) (i_frames_timer p)
     (is_invincible p) (damage_taken p) (dead p) (hitbox p)
     (unlimited_health p) (regen_timer p).

Definition set_progress (lv x nxt : Z) (p : t) : t :=
  mk (max_hp p) (hp p) (move_speed p) (pickup_radius p) (might p)
     (cooldown_reduction p) (armor p) (regen p) lv x nxt
     (i_frames_duration p) (i_frames_timer p)
     (is_invincible p) (damage_taken p) (dead p) (hitbox p)
     (unlimited_health p) (regen_timer p).

Definition set_i_frames (inv : bool) (timer : float) (p : t) : t :=
  mk (max_hp p) (hp p) (move_speed p) (pickup_radius p) (might p)
     (cooldown_reduction p) (armor p) (regen p) (level p) (xp p)
     (xp_to_next_level p) (i_frames_duration p) timer
     inv (damage_taken p) (dead p) (hitbox p) (unlimited_health p)
     (regen_timer p).

Definition set_damage_taken (v : Q) (p : t) : t :=
  mk (max_hp p) (hp p) (move_speed p) (pickup_radius p) (might p)
     (cooldown_reduction p) (armor p) (regen p) (level p) (xp p)
     (xp_to_next_level p) (i_frames_duration p) (i_frames_timer p)
     (is_invincible p) v (dead p) (hitbox p) (unlimited_health p)
     (regen_timer p).

Definition set_dead (v : bool) (p : t) : t :=
  mk (max_hp p) (hp p) (move_speed p) (pickup_radius p) (might p)
     (cooldown_reduction p) (armor p) (regen p) (level p) (xp p)
     (xp_to_next_level p) (i_frames_duration p) (i_frames_timer p)
     (is_invincible p) (damage_taken p) v (hitbox p) (unlimited_health p)
     (regen_timer p).

Definition set_stats (mhp h ms pr mi cdr ar rg : Q) (p : t) : t :=
  mk mhp h ms pr mi cdr ar rg (level p) (xp p)
     (xp_to_next_level p) (i_frames_duration p) (i_frames_timer p)
     (is_invincible p) (damage_taken p) (dead p) (hitbox p)
     (unlimited_health p) (regen_timer p).

Definition set_regen_timer (v : float) (p : t) : t :=
  mk (max_hp p) (hp p) (move_speed p) (pickup_radius p) (might p)
     (cooldown_reduction p) (armor p) (regen p) (level p) (xp p)
     (xp_to_next_level p) (i_frames_duration p) (i_frames_timer p)
     (is_invincible p) (damage_taken p) (dead p) (hitbox p)
     (unlimited_health p) v.

(** [Player.__init__]: the first threshold is half the base XP. *)
Definition init (box : Rect.t) (cheat_unlimited_health : bool) : t :=
  {| max_hp := Settings.player_max_hp;
     hp := Settings.player_max_hp;
     move_speed := Settings.player_move_speed;
     pickup_radius := Settings.player_pickup_radius;
     might := Settings.player_might;
     cooldown_reduction := Settings.player_cooldown_reduction;
     armor := Settings.player_armor;
     regen := Settings.player_regen;
     level := 1;
     xp := 0;
     xp_to_next_level := Settings.base_xp_to_level / 2;
     i_frames_duration := Float.of_Q Settings.player_i_frames_duration;
     i_frames_timer := 0;
     is_invincible := false;
     damage_taken := 0;
     dead := false;
     hitbox := box;
     unlimited_health := cheat_unlimited_health;
     regen_timer := 0 |}.

(** [Player.heal] *)
Definition heal (amount : Q) (p : t) : t :=
  set_hp (Py.min (hp p + amount) (max_hp p)) p.

(** [Player.get_hit]: the boolean is the return value (the player died). *)
Definition get_hit (damage : Q) (p : t) : t * bool :=
  if is_invincible p || dead p then (p, false)
  else if unlimited_health p then
    (set_i_frames true (i_frames_duration p) p, false)
  else
    let actual_damage := Py.max 1 (damage - armor p) in
    let p1 := set_hp (hp p - actual_damage) p in
    let p2 := set_damage_taken (damage_taken p1 + actual_damage) p1 in
    let p3 := set_i_frames true (i_frames_duration p2) p2 in
    if Py.leb (hp p3) 0 then (set_dead true (set_hp 0 p3), true)
    else (p3, false).

(** [Player.level_up] *)
Definition level_up (p : t) : t * bool :=
  let p1 := set_progress (level p) (xp p - xp_to_next_level p)
              (xp_to_next_level p) p in
  let p2 := set_progress (level p1 + 1) (xp p1) (xp_to_next_level p1) p1 in
  let base_xp :=
    Settings.base_xp_to_level
    + (level p2 - 1) * Settings.xp_per_level_increase in
  let p3 := set_progress (level p2) (xp p2) (base_xp / 2) p2 in
  (heal (max_hp p3 * (1 # 10)) p3, true).

(** [Player.gain_xp] *)
Definition gain_xp (amount : Z) (p : t) : t * bool :=
  let p1 := set_progress (level p) (xp p + amount) (xp_to_next_level p) p in
  if xp_to_next_level p1 <=? xp p1 then level_up p1 else (p1, false).

(** [Player.apply_passive] *)
Definition apply_passive (d : Settings.passive_data) (p : t) : t :=
  let v := Settings.p_value d in
  match Settings.p_stat d with
  | Settings.st_might =>
      set_stats (max_hp p) (hp p) (move_speed p) (pickup_radius p)
        (might p + v) (cooldown_reduction p) (armor p) (regen p) p
  | Settings.st_max_hp =>
      set_stats (max_hp p + v) (hp p + v) (move_speed p) (pickup_radius p)
        (might p) (cooldown_reduction p) (armor p) (regen p) p
  | Settings.st_regen =>
      set_stats (max_hp p) (hp p) (move_speed p) (pickup_radius p)
        (might p) (cooldown_reduction p) (armor p) (regen p + v) p
  | Settings.st_pickup_radius =>
      set_stats (max_hp p) (hp p) (move_speed p) (pickup_radius p * (1 + v))
        (might p) (cooldown_reduction p) (armor p) (regen p) p
  | Settings.st_armor =>
      set_stats (max_hp p) (hp p) (move_speed p) (pickup_radius p)
        (might p) (cooldown_reduction p) (armor p + v) (regen p) p
  | Settings.st_move_speed =>
      set_stats (max_hp p) (hp p) (move_speed p * (1 + v)) (pickup_radius p)
        (might p) (cooldown_reduction p) (armor p) (regen p) p
  | Settings.st_cooldown_reduction =>
      set_stats (max_hp p) (hp p) (move_speed p) (pickup_radius p)
        (might p) (cooldown_reduction p + v) (armor p) (regen p) p
  end%Q.

(** [Player.update_i_frames]: the timer is counted down in doubles (the
    flash of the sprite is left out). *)
Definition update_i_frames (dt : float) (p : t) : t :=
  if is_invincible p then
    let p1 := set_i_frames true (i_frames_timer p - dt) p in
    if (i_frames_timer p1 <=? 0)%float then set_i_frames false 0 p1 else p1
  else p.

(** [Player.update_regen]: the timer is counted up in doubles. *)
Definition update_regen (dt : float) (p : t) : t :=
  if Py.ltb 0 (regen p) && Py.ltb (hp p) (max_hp p) then
    let p1 := set_regen_timer (regen_timer p + dt) p in
    if (1 <=? regen_timer p1)%float
    then heal (regen p1) (set_regen_timer 0 p1)
    else p1
  else p.

(** [Player.update]: nothing happens to a dead player; otherwise the
    invincibility window runs down and the regeneration ticks (input and
    movement are left out). *)
Definition update (dt : float) (p : t) : t :=
  if dead p then p else update_regen dt (update_i_frames dt p).

(** A session's XP income: one [gain_xp] call per collecting tick. *)
Definition gain_all (amounts : list Z) (p : t) : t :=
  fold_left (fun q a => fst (gain_xp a q)) amounts p.

End Player.

(** ** entities/enemy.py *)

Module Enemy.

Record t := mk {
  id : Z;
  enemy_type : string;
  max_hp : Z;
  hp : Q;
  damage : Z;
  speed : Q;
  xp_value : Z;
  pos : Vector2;
  rect : Rect.t;
  hitbox : Rect.t;
  knockback : Vec.t;
  knockback_timer : float;
  damage_cooldown : float;
  (** membership of the sprite groups: [kill()] clears it *)
  alive : bool
}.

Definition set_hp (v : Q) (a : bool) (e : t) : t :=
  mk (id e) (enemy_type e) (max_hp e) v (damage e) (speed e) (xp_value e)
     (pos e) (rect e) (hitbox e) (knockback e) (knockback_timer e)
     (damage_cooldown e) a.

Definition set_knockback (v : Vec.t) (timer : float) (e : t) : t :=
  mk (id e) (enemy_type e) (max_hp e) (hp e) (damage e) (speed e)
     (xp_value e) (pos e) (rect e) (hitbox e) v timer (damage_cooldown e)
     (alive e).

Definition set_damage_cooldown (v : float) (e : t) : t :=
  mk (id e) (enemy_type e) (max_hp e) (hp e) (damage e) (speed e)
     (xp_value e) (pos e) (rect e) (hitbox e) (knockback e)
     (knockback_timer e) v (alive e).

(** [ENEMY_DATA.get(enemy_type, ENEMY_DATA['chaser'])] *)
Definition data_of (enemy_type : string) : Settings.enemy_data :=
  match Py.get enemy_type Settings.ENEMY_DATA with
  | Some d => d
  | None => Settings.chaser_data
  end.

(** The two products of [Enemy.__init__], in doubles: the table's ints
    times the difficulty multiplier. *)
Definition scaled_hp (data : Settings.enemy_data) (difficulty_mult : float)
  : float :=
  (Float.of_Z (Settings.e_hp data) * difficulty_mult)%float.

Definition scaled_damage (data : Settings.enemy_data)
    (difficulty_mult : float) : float :=
  (Float.of_Z (Settings.e_damage data)
   * (1 + (difficulty_mult - 1) * 0.5))%float.

(** [Enemy.__init__]: the stats scaled by the difficulty multiplier, a
    double, and cut to ints by [int()]. *)
Definition init (ident : Z) (position : Vector2) (r : Rect.t)
    (enemy_type : string) (difficulty_mult : float) : t :=
  let data := data_of enemy_type in
  let mhp := Float.int (scaled_hp data difficulty_mult) in
  {| id := ident;
     enemy_type := enemy_type;
     max_hp := mhp;
     hp := inject_Z mhp;
     damage := Float.int (scaled_damage data difficulty_mult);
     speed := Settings.e_speed data;
     xp_value := Settings.e_xp_value data;
     pos := position;
     rect := r;
     hitbox := Rect.inflate (-4) (-4) r;
     knockback := Vec.zero;
     knockback_timer := 0;
     damage_cooldown := 0;
     alive := true |}.

(** [create_enemy]: an unknown type tag falls back to [Chaser]. *)
Definition create_enemy (enemy_type : string) (ident : Z)
    (position : Vector2) (r : Rect.t) (difficulty_mult : float) : t :=
  match Py.get enemy_type Settings.ENEMY_DATA with
  | Some _ => init ident position r enemy_type difficulty_mult
  | None => init ident position r "chaser" difficulty_mult
  end.

(** [Enemy.take_damage]: the hit points drop, a direction that is given
    and not of length 0 sets the knockback to 200 along it for 0.1 s, and
    the enemy leaves the groups at 0 hit points or less; the boolean is the
    return value, true when the enemy died (the flash is left out). *)
Definition take_damage (dmg : Q) (knockback_dir : option Vec.t) (e : t)
  : t * bool :=
  let h := (hp e - dmg)%Q in
  let e1 := set_hp h (alive e) e in
  let e2 :=
    match knockback_dir with
    | Some dir =>
        if Vec.truthy dir && (0 <? Vec.magnitude dir)%float
        then set_knockback (Vec.scale (Vec.normalize dir) 200) 0.1 e1
        else e1
    | None => e1
    end in
  if Py.leb h 0 then (set_hp h false e2, true) else (e2, false).

(** [Enemy.can_damage] *)
Definition can_damage (e : t) : bool := (damage_cooldown e <=? 0)%float.

(** [Enemy.reset_damage_cooldown] *)
Definition reset_damage_cooldown (e : t) : t :=
  set_damage_cooldown 0.5 e.

(** [Enemy.update]: the knockback timer of [move_towards_player] and the
    damage cooldown, both counted down in doubles (the change of position
    is left out). *)
Definition update (dt : float) (e : t) : t :=
  let e1 :=
    if (0 <? knockback_timer e)%float
    then set_knockback (knockback e) (knockback_timer e - dt) e
    else set_knockback Vec.zero (knockback_timer e) e in
  if (0 <? damage_cooldown e1)%float
  then set_damage_cooldown (damage_cooldown e1 - dt) e1
  else e1.

(** [Enemy.get_drop_info] *)
Record drop_info := mk_drop_info { di_xp_value : Z; di_pos : Vector2 }.

Definition get_drop_info (e : t) : drop_info :=
  mk_drop_info (xp_value e) (pos e).

End Enemy.

(** ** systems/spawner.py *)

Module EnemySpawner.

Record t := mk {
  game_time : Q;
  spawn_timer : Q;
  last_boss_time : Q;
  difficulty_hp_scale : Q;
  total_spawned : Z
}.

Definition init : t :=
  mk 0 0 0 Settings.difficulty_hp_scale 0.

(** [_get_spawn_rate] *)
Definition _get_spawn_rate (s : t) : Q :=
  let minutes := (game_time s / 60)%Q in
  Py.min (Settings.base_spawn_rate + Settings.spawn_rate_increase * minutes)%Q
         Settings.max_spawn_rate.

(** [_get_difficulty_multiplier], in doubles: the clock enters as the
    double of its value. *)
Definition _get_difficulty_multiplier (s : t) : float :=
  let minutes := (Float.of_Q (game_time s) / 60)%float in
  (1 + Float.of_Q (difficulty_hp_scale s) * minutes)%float.

(** The [spawn_count - 1] clustered copies of a swarm type; [rect_at] is
    the image rectangle pygame centres on a position. *)
Fixpoint swarm_copies (n : nat) (enemy_type : string) (ident : Z)
    (position : Vector2) (rect_at : Vector2 -> Rect.t)
    (difficulty_mult : float) (g : Random.t) : list Enemy.t * Random.t :=
  match n with
  | O => ([], g)
  | S n' =>
      let (ox, g1) := Random.uniform (-30) 30 g in
      let (oy, g2) := Random.uniform (-30) 30 g1 in
      let swarm_pos :=
        (Py.clamp (fst position + ox) 50 (Settings.WORLD_WIDTH - 50),
         Py.clamp (snd position + oy) 50 (Settings.WORLD_HEIGHT - 50))%Q in
      let e := Enemy.create_enemy enemy_type ident swarm_pos
                 (rect_at swarm_pos) difficulty_mult in
      let (rest, g3) :=
        swarm_copies n' enemy_type (ident + 1) position rect_at
          difficulty_mult g2
      in (e :: rest, g3)
  end.

(** [spawn_enemy] for a chosen type and ring position: the enemies it
    creates (the first one is its return value) and the updated spawner. *)
Definition spawn_enemy (enemy_type : string) (ident : Z)
    (position : Vector2) (rect_at : Vector2 -> Rect.t) (g : Random.t) (s : t)
  : list Enemy.t * t * Random.t :=
  let difficulty_mult := _get_difficulty_multiplier s in
  let enemy :=
    Enemy.create_enemy enemy_type ident position (rect_at position)
      difficulty_mult in
  let spawn_count :=
    match Py.get enemy_type Settings.ENEMY_DATA with
    | Some d => match Settings.e_spawn_count d with Some c => c | None => 1%nat end
    | None => 1%nat
    end in
  let (copies, g') :=
    swarm_copies (spawn_count - 1) enemy_type (ident + 1) position rect_at
      difficulty_mult g in
  (enemy :: copies,
   mk (game_time s) (spawn_timer s) (last_boss_time s)
      (difficulty_hp_scale s) (total_spawned s + Z.of_nat (length (enemy :: copies))),
   g').

(** [spawn_boss] *)
Definition spawn_boss (ident : Z) (position : Vector2)
    (rect_at : Vector2 -> Rect.t) (s : t) : Enemy.t * t :=
  let difficulty_mult := (_get_difficulty_multiplier s * 1.5)%float in
  (Enemy.create_enemy "boss" ident position (rect_at position)
     difficulty_mult,
   mk (game_time s) (spawn_timer s) (game_time s)
      (difficulty_hp_scale s) (total_spawned s + 1)).

(** The spawner's clock after [update(dt, ...)] has added [dt]. *)
Definition at_time (time : Q) : t :=
  mk time 0 0 Settings.difficulty_hp_scale 0.

End EnemySpawner.

(** ** pygame.time.get_ticks: successive readings of the millisecond clock *)

Module Clock.

Record t := mk { reading : nat -> Z; calls : nat }.

Definition get_ticks (c : t) : Z * t :=
  (reading c (calls c), mk (reading c) (S (calls c))).

(** [pygame.time.get_ticks() / 1000] *)
Definition seconds (ticks : Z) : Q := (inject_Z ticks / 1000)%Q.

End Clock.

(** ** utils.py: [CooldownTimer] *)

Module CooldownTimer.

Record t := mk { duration : Q; last_time : Q }.

Definition init (d : Q) : t := mk d (- d * 1000)%Q.

Definition ready (ticks : Z) (c : t) : bool :=
  Py.leb (duration c * 1000) (inject_Z ticks - last_time c).

Definition use (ticks : Z) (c : t) : t * bool :=
  if ready ticks c then (mk (duration c) (inject_Z ticks), true)
  else (c, false).

End CooldownTimer.

(** ** weapons/projectiles.py *)

Module Projectile.

Record t := mk {
  rect : Rect.t;
  damage : Q;
  pierce : Z;
  hits_remaining : Z;
  hit_enemies : gset Z;
  lifetime : float;
  age : float;
  (** membership of the sprite groups: [kill()] clears it *)
  alive : bool
}.

(** [Projectile.__init__] *)
Definition init (r : Rect.t) (dmg : Q) (p : Z) (life : float) : t :=
  mk r dmg p p ∅ life 0 true.

(** [Projectile.hit_enemy]: the boolean is the return value. *)
Definition hit_enemy (enemy_id : Z) (p : t) : t * bool :=
  if decide (enemy_id ∈ hit_enemies p) then (p, false)
  else
    let hits := hits_remaining p - 1 in
    (mk (rect p) (damage p) (pierce p) hits ({[enemy_id]} ∪ hit_enemies p)
        (lifetime p) (age p)
        (if hits <=? 0 then false else alive p),
     true).

(** [Projectile.update]: the age is summed in doubles (the movement is
    left out). *)
Definition update (dt : float) (p : t) : t :=
  let a := (age p + dt)%float in
  mk (rect p) (damage p) (pierce p) (hits_remaining p) (hit_enemies p)
     (lifetime p) a
     (if (lifetime p <=? a)%float then false else alive p).

End Projectile.

Module WhipSlash.

Record t := mk {
  rect : Rect.t;
  damage : Q;
  pierce : Z;
  hits_remaining : Z;
  hit_enemies : gset Z;
  lifetime : float;
  age : float;
  alive : bool
}.

(** [WhipSlash.__init__]: a slash lives for 0.2 s. *)
Definition init (r : Rect.t) (dmg : Q) (p : Z) : t :=
  mk r dmg p p ∅ 0.2 0 true.

(** [WhipSlash.hit_enemy]: no pierce accounting. *)
Definition hit_enemy (enemy_id : Z) (s : t) : t * bool :=
  if decide (enemy_id ∈ hit_enemies s) then (s, false)
  else
    (mk (rect s) (damage s) (pierce s) (hits_remaining s)
        ({[enemy_id]} ∪ hit_enemies s) (lifetime s) (age s) (alive s),
     true).

(** [WhipSlash.update]: the age is summed in doubles (the fade is left
    out). *)
Definition update (dt : float) (s : t) : t :=
  let a := (age s + dt)%float in
  mk (rect s) (damage s) (pierce s) (hits_remaining s) (hit_enemies s)
     (lifetime s) a
     (if (lifetime s <=? a)%float then false else alive s).

End WhipSlash.

Module GarlicAura.

Record t := mk {
  damage : Q;
  radius : Z;
  tick_rate : Q;
  (** [damage_timers]: enemy identity to the time of its last tick *)
  damage_timers : gmap Z Q
}.

(** [GarlicAura.__init__] *)
Definition init (dmg : Q) (r : Z) (rate : Q) : t := mk dmg r rate ∅.

Definition update_radius (r : Z) (a : t) : t :=
  mk (damage a) r (tick_rate a) (damage_timers a).

Definition update_damage (d : Q) (a : t) : t :=
  mk d (radius a) (tick_rate a) (damage_timers a).

Definition set_tick_rate (c : Q) (a : t) : t :=
  mk (damage a) (radius a) c (damage_timers a).

(** [GarlicAura.can_damage_enemy], with the clock reading it takes. *)
Definition can_damage_enemy (ticks : Z) (enemy_id : Z) (a : t) : t * bool :=
  let current_time := Clock.seconds ticks in
  match damage_timers a !! enemy_id with
  | None =>
      (mk (damage a) (radius a) (tick_rate a)
          (<[enemy_id := current_time]> (damage_timers a)), true)
  | Some last =>
      if Py.leb (tick_rate a) (current_time - last)
      then (mk (damage a) (radius a) (tick_rate a)
               (<[enemy_id := current_time]> (damage_timers a)), true)
      else (a, false)
  end.

(** [GarlicAura.update]: entries idle for twice the tick rate are dropped. *)
Definition update (ticks : Z) (a : t) : t :=
  let current_time := Clock.seconds ticks in
  mk (damage a) (radius a) (tick_rate a)
     (filter (fun kv => Py.ltb (current_time - kv.2) (tick_rate a * 2) = true)
             (damage_timers a)).

(** [GarlicAura.get_enemies_in_range]: [dist <= radius] on the distance
    from the player, compared through the squares. *)
Definition in_range (player_pos : Vector2) (a : t) (e : Enemy.t) : bool :=
  let cx := inject_Z (Rect.x (Enemy.rect e) + Rect.w (Enemy.rect e) / 2) in
  let cy := inject_Z (Rect.y (Enemy.rect e) + Rect.h (Enemy.rect e) / 2) in
  let dx := (cx - fst player_pos)%Q in
  let dy := (cy - snd player_pos)%Q in
  (0 <=? radius a)
  && Py.leb (dx * dx + dy * dy) (inject_Z (radius a * radius a)).

Definition get_enemies_in_range (player_pos : Vector2) (a : t)
    (enemy_group : list Enemy.t) : list Enemy.t :=
  List.filter (in_range player_pos a) enemy_group.

End GarlicAura.

(** ** weapons/weapon_base.py and the weapon classes of weapons/controller.py *)

Module Weapon.

Record t := mk {
  weapon_id : string;
  data : Settings.weapon_data;
  level : Z;
  max_level : Z;
  damage : Q;
  cooldown : Q;
  area : Q;
  speed : Q;
  amount : Z;
  pierce : Z;
  size_multiplier : Q;
  cooldown_timer : CooldownTimer.t;
  evolved : bool;
  evolution_id : option string;
  evolution_passive : option string;
  (** [WandWeapon.homing] *)
  homing : bool;
  (** [GarlicWeapon.aura], absent on the other weapons *)
  aura : option GarlicAura.t
}.

(** Truth value of an optional identifier: [None] and [''] are false. *)
Definition truthy (o : option string) : bool :=
  match o with
  | Some s => negb (String.eqb s "")
  | None => false
  end.

(** [WEAPON_DATA.get(weapon_id, WEAPON_DATA['whip'])] *)
Definition data_of (wid : string) : Settings.weapon_data :=
  match Py.get wid Settings.WEAPON_DATA with
  | Some d => d
  | None => Settings.whip_data
  end.

(** [self.data.get('base_radius', 60)] *)
Definition base_radius_of (d : Settings.weapon_data) : Q :=
  match Settings.base_radius d with Some r => r | None => 60%Q end.

(** The radius of a Garlic's aura,
    [int(base_radius * self.area * self.size_multiplier)], in doubles: the
    area and the size multiplier as [_recalculate_stats] computes them from
    the table and the level, the quotient of the two ints correctly rounded
    as Python's true division is. *)
Definition area_double (w : t) : float :=
  (Float.of_Q (Settings.base_area (data w))
   + Float.of_Q (Settings.s_area (Settings.w_scaling (data w)))
     * Float.of_Z (level w - 1))%float.

Definition size_multiplier_double (w : t) : float :=
  if 1 <? max_level w
  then (1 + Float.of_Q (inject_Z (level w - 1) / inject_Z (max_level w - 1))
            * 2)%float
  else 1%float.

Definition aura_radius (w : t) : Z :=
  Float.int (Float.of_Q (base_radius_of (data w)) * area_double w
             * size_multiplier_double w)%float.

(** [Weapon._recalculate_stats], with [GarlicWeapon]'s extension that
    pushes the new numbers into the aura when there is one. *)
Definition _recalculate_stats (p : Player.t) (w : t) : t :=
  let scaling := Settings.w_scaling (data w) in
  let level_bonus := level w - 1 in
  let dmg :=
    (Settings.base_damage (data w)
     + Settings.s_damage scaling * inject_Z level_bonus)%Q in
  let cd :=
    Py.max (1 # 10)
      (Settings.base_cooldown (data w)
       + Settings.s_cooldown scaling * inject_Z level_bonus)%Q in
  let ar :=
    (Settings.base_area (data w)
     + Settings.s_area scaling * inject_Z level_bonus)%Q in
  let amt :=
    if 0 <? Settings.s_amount scaling
    then Settings.base_amount (data w)
         + (level_bonus / 2) * Settings.s_amount scaling
    else Settings.base_amount (data w) in
  let size_mult :=
    if 1 <? max_level w
    then (1 + inject_Z (level w - 1) / inject_Z (max_level w - 1) * 2)%Q
    else 1%Q in
  let dmg' := (dmg * Player.might p)%Q in
  let cd' := (cd * (1 - Player.cooldown_reduction p))%Q in
  let aura' :=
    match aura w with
    | Some a =>
        Some (GarlicAura.set_tick_rate cd'
                (GarlicAura.update_damage dmg'
                   (GarlicAura.update_radius (aura_radius w) a)))
    | None => None
    end in
  mk (weapon_id w) (data w) (level w) (max_level w) dmg' cd' ar (speed w)
     amt (pierce w) size_mult (CooldownTimer.init cd') (evolved w)
     (evolution_id w) (evolution_passive w) (homing w) aura'.

(** [Weapon.__init__] on the data of a weapon. *)
Definition make (wid : string) (d : Settings.weapon_data) (p : Player.t) : t :=
  _recalculate_stats p
    {| weapon_id := wid;
       data := d;
       level := 1;
       max_level := Settings.w_max_level d;
       damage := Settings.base_damage d;
       cooldown := Settings.base_cooldown d;
       area := Settings.base_area d;
       speed := Settings.base_speed d;
       amount := Settings.base_amount d;
       pierce := match Settings.base_pierce d with Some n => n | None => 1 end;
       size_multiplier := 1;
       cooldown_timer := CooldownTimer.init (Settings.base_cooldown d);
       evolved := false;
       evolution_id := Settings.evolution d;
       evolution_passive := Settings.evolution_passive d;
       homing := false;
       aura := None |}.

(** The constructors of the five weapon classes; [GarlicWeapon] creates its
    aura after the base initialisation. *)
Definition init (wid : string) (p : Player.t) : t :=
  let w := make wid (data_of wid) p in
  if String.eqb wid "garlic" then
    mk (weapon_id w) (data w) (level w) (max_level w) (damage w) (cooldown w)
       (area w) (speed w) (amount w) (pierce w) (size_multiplier w)
       (cooldown_timer w) (evolved w) (evolution_id w) (evolution_passive w)
       (homing w)
       (Some (GarlicAura.init (damage w) (aura_radius w) (cooldown w)))
  else w.

(** [Weapon.level_up] *)
Definition level_up (p : Player.t) (w : t) : t * bool :=
  if level w <? max_level w then
    (_recalculate_stats p
       (mk (weapon_id w) (data w) (level w + 1) (max_level w) (damage w)
           (cooldown w) (area w) (speed w) (amount w) (pierce w)
           (size_multiplier w) (cooldown_timer w) (evolved w)
           (evolution_id w) (evolution_passive w) (homing w) (aura w)),
     true)
  else (w, false).

(** [Weapon.can_evolve] *)
Definition can_evolve (passive_inventory : list (string * Z)) (w : t) : bool :=
  if evolved w || negb (truthy (evolution_id w)) then false
  else if level w <? max_level w then false
  else
    match evolution_passive w with
    | Some ps => truthy (Some ps) && Py.contains ps passive_inventory
    | None => false
    end.

(** [Weapon.evolve], with [WandWeapon]'s extension that turns homing on. *)
Definition evolve (w : t) : t * bool :=
  match evolution_id w with
  | Some eid =>
      if negb (truthy (Some eid)) then (w, false)
      else
        match Py.get eid Settings.EVOLUTION_DATA with
        | None => (w, false)
        | Some evolution_data =>
            let mult :=
              match Settings.damage_mult evolution_data with
              | Some m => m
              | None => (3 # 2)%Q
              end in
            (mk (weapon_id w) (data w) (level w) (max_level w)
                (damage w * mult)%Q (cooldown w) (area w) (speed w)
                (amount w) (pierce w) (size_multiplier w) (cooldown_timer w)
                true (evolution_id w) (evolution_passive w)
                (if String.eqb (weapon_id w) "wand" then true else homing w)
                (aura w),
             true)
        end
  | None => (w, false)
  end.

(** [n] successive [level_up] calls. *)
Fixpoint level_up_times (n : nat) (p : Player.t) (w : t) : t :=
  match n with
  | O => w
  | S n' => level_up_times n' p (fst (level_up p w))
  end.

End Weapon.

(** ** weapons/controller.py: [WeaponController] *)

Module WeaponController.

Record t := mk {
  weapons : list (string * Weapon.t);
  passives : list (string * Z);
  max_weapons : nat;
  max_passives : nat
}.

Definition init : t := mk [] [] Settings.MAX_WEAPONS Settings.MAX_PASSIVES.

(** The keys of [WEAPON_CLASSES]. *)
Definition WEAPON_CLASSES : list string :=
  ["whip"; "wand"; "garlic"; "axe"; "knife"]%string.

(** [add_weapon] *)
Definition add_weapon (wid : string) (p : Player.t) (c : t) : t * bool :=
  match Py.get wid (weapons c) with
  | Some w =>
      let (w', ok) := Weapon.level_up p w in
      (mk (Py.set wid w' (weapons c)) (passives c) (max_weapons c)
          (max_passives c), ok)
  | None =>
      if (max_weapons c <=? length (weapons c))%nat then (c, false)
      else if existsb (String.eqb wid) WEAPON_CLASSES then
        (mk (Py.set wid (Weapon.init wid p) (weapons c)) (passives c)
            (max_weapons c) (max_passives c), true)
      else (c, false)
  end.

(** [_update_weapon_stats]: every weapon recomputes its stats. *)
Definition _update_weapon_stats (p : Player.t) (c : t) : t :=
  mk (map (fun kw => (fst kw, Weapon._recalculate_stats p (snd kw)))
          (weapons c))
     (passives c) (max_weapons c) (max_passives c).

(** [add_passive]: the player's stat block changes with the inventory. *)
Definition add_passive (pid : string) (p : Player.t) (c : t)
  : Player.t * t * bool :=
  match Py.get pid Settings.PASSIVE_DATA with
  | None => (p, c, false)
  | Some passive_data =>
      match Py.get pid (passives c) with
      | Some lv =>
          if lv <? Settings.p_max_level passive_data then
            let p' := Player.apply_passive passive_data p in
            let c' := mk (weapons c) (Py.set pid (lv + 1) (passives c))
                         (max_weapons c) (max_passives c) in
            (p', _update_weapon_stats p' c', true)
          else (p, c, false)
      | None =>
          if (max_passives c <=? length (passives c))%nat then (p, c, false)
          else
            let p' := Player.apply_passive passive_data p in
            let c' := mk (weapons c) (Py.set pid 1 (passives c))
                         (max_weapons c) (max_passives c) in
            (p', _update_weapon_stats p' c', true)
      end
  end.

(** [check_evolutions] *)
Definition check_evolutions (c : t) : list string :=
  map fst
    (List.filter (fun kw => Weapon.can_evolve (passives c) (snd kw))
       (weapons c)).

(** [evolve_weapon] *)
Definition evolve_weapon (wid : string) (c : t) : t * bool :=
  match Py.get wid (weapons c) with
  | Some w =>
      let (w', ok) := Weapon.evolve w in
      (mk (Py.set wid w' (weapons c)) (passives c) (max_weapons c)
          (max_passives c), ok)
  | None => (c, false)
  end.

(** An entry of the upgrade menu: [(kind, id, is_new, level)]. *)
Inductive kind := k_weapon | k_passive | k_evolution.

Record upgrade := mk_upgrade {
  u_kind : kind;
  u_id : string;
  u_is_new : bool;
  u_level : Z
}.

(** The candidate pool [possible] that [get_upgrade_options] collects. *)
Definition possible_upgrades (c : t) : list upgrade :=
  (* weapons that can be levelled up *)
  omap (fun kw =>
          if Weapon.level (snd kw) <? Weapon.max_level (snd kw)
          then Some (mk_upgrade k_weapon (fst kw) false (Weapon.level (snd kw)))
          else None)
       (weapons c)
  (* new weapons, if a slot is free *)
  ++ (if (length (weapons c) <? max_weapons c)%nat then
        omap (fun kd =>
                if Py.contains (fst kd) (weapons c) then None
                else Some (mk_upgrade k_weapon (fst kd) true 0))
             Settings.WEAPON_DATA
      else [])
  (* passives that can be levelled up *)
  ++ omap (fun kl =>
             match Py.get (fst kl) Settings.PASSIVE_DATA with
             | Some passive_data =>
                 if snd kl <? Settings.p_max_level passive_data
                 then Some (mk_upgrade k_passive (fst kl) false (snd kl))
                 else None
             | None => None
             end)
          (passives c)
  (* new passives, if a slot is free *)
  ++ (if (length (passives c) <? max_passives c)%nat then
        omap (fun kd =>
                if Py.contains (fst kd) (passives c) then None
                else Some (mk_upgrade k_passive (fst kd) true 0))
             Settings.PASSIVE_DATA
      else [])
  (* evolutions *)
  ++ map (fun wid => mk_upgrade k_evolution wid false 0) (check_evolutions c).

(** [while len(options) < count and possible:
       options.append(random.choice(possible))],
    by the number [n = count - len(options)] of entries still missing. *)
Fixpoint pad_options (n : nat) (possible options : list upgrade)
    (g : Random.t) : list upgrade * Random.t :=
  match n with
  | O => (options, g)
  | S n' =>
      match possible with
      | [] => (options, g)
      | _ :: _ =>
          let (o, g') := Random.choice possible g in
          pad_options n' possible
            (options ++ match o with Some u => [u] | None => [] end) g'
      end
  end.

(** The selection among a pool: shuffle, take the first [count], pad. *)
Definition select_options (count : nat) (possible : list upgrade)
    (g : Random.t) : list upgrade * Random.t :=
  let (shuffled, g1) := Random.shuffle possible g in
  let options := take count shuffled in
  pad_options (count - length options) shuffled options g1.

(** [get_upgrade_options] *)
Definition get_upgrade_options (count : nat) (g : Random.t) (c : t)
  : list upgrade * Random.t :=
  select_options count (possible_upgrades c) g.

(** [apply_upgrade] *)
Definition apply_upgrade (u : upgrade) (p : Player.t) (c : t)
  : Player.t * t * bool :=
  match u_kind u with
  | k_weapon => let (c', ok) := add_weapon (u_id u) p c in (p, c', ok)
  | k_passive => add_passive (u_id u) p c
  | k_evolution => let (c', ok) := evolve_weapon (u_id u) c in (p, c', ok)
  end.

(** The members of [projectile_group]. *)
Inductive sprite :=
  | Shot (p : Projectile.t)
  | Slash (s : WhipSlash.t)
  | Aura.

Definition rect_of (s : sprite) : option Rect.t :=
  match s with
  | Shot p => Some (Projectile.rect p)
  | Slash s => Some (WhipSlash.rect s)
  | Aura => None
  end.

Definition damage_of (s : sprite) : Q :=
  match s with
  | Shot p => Projectile.damage p
  | Slash s => WhipSlash.damage s
  | Aura => 0
  end.

(** [projectile.rect.center] of an attack effect (the collision loop
    passes over the aura before it is asked for). *)
Definition center_of (s : sprite) : Z * Z :=
  match rect_of s with
  | Some r => Rect.center r
  | None => (0, 0)
  end.

(** Membership of [projectile_group]. *)
Definition sprite_alive (s : sprite) : bool :=
  match s with
  | Shot p => Projectile.alive p
  | Slash sl => WhipSlash.alive sl
  | Aura => true
  end.

(** [projectile.hit_enemy(enemy)] on either kind of attack effect. *)
Definition sprite_hit_enemy (enemy_id : Z) (s : sprite) : sprite * bool :=
  match s with
  | Shot p => let (p', b) := Projectile.hit_enemy enemy_id p in (Shot p', b)
  | Slash sl => let (s', b) := WhipSlash.hit_enemy enemy_id sl in (Slash s', b)
  | Aura => (Aura, false)
  end.

(** What [handle_projectile_collisions] accumulates. *)
Record tally := mk_tally {
  damage_dealt : Q;
  kills : Z;
  dead_enemies : list Enemy.drop_info
}.

(** The inner loop [for enemy in list(self.enemy_group)] for one attack
    effect: an enemy killed earlier in the call has left the group and is
    passed over. *)
Fixpoint collide_enemies (s : sprite) (enemies : list Enemy.t) (acc : tally)
  : sprite * list Enemy.t * tally :=
  match enemies with
  | [] => (s, [], acc)
  | e :: rest =>
      let collides :=
        match rect_of s with
        | Some r => Rect.colliderect r (Enemy.rect e)
        | None => false
        end in
      if Enemy.alive e && collides then
        let (s1, hit) := sprite_hit_enemy (Enemy.id e) s in
        if hit then
          let knockback_dir :=
            Vec.sub (Vec.of_point (Rect.center (Enemy.rect e)))
              (Vec.of_point (center_of s1)) in
          let drop_info := Enemy.get_drop_info e in
          let (e', died) :=
            Enemy.take_damage (damage_of s1) (Some knockback_dir) e in
          let acc1 :=
            if died
            then mk_tally (damage_dealt acc) (kills acc + 1)
                   (dead_enemies acc ++ [drop_info])
            else acc in
          let acc2 :=
            mk_tally (damage_dealt acc1 + damage_of s1)%Q (kills acc1)
              (dead_enemies acc1) in
          let '(s2, rest', acc3) := collide_enemies s1 rest acc2 in
          (s2, e' :: rest', acc3)
        else
          let '(s2, rest', acc3) := collide_enemies s1 rest acc in
          (s2, e :: rest', acc3)
      else
        let '(s2, rest', acc3) := collide_enemies s rest acc in
        (s2, e :: rest', acc3)
  end.

(** The outer loop [for projectile in self.projectile_group] over the
    members the group has when the call starts, auras skipped. *)
Fixpoint collide_sprites (sprites : list sprite) (enemies : list Enemy.t)
    (acc : tally) : list sprite * list Enemy.t * tally :=
  match sprites with
  | [] => ([], enemies, acc)
  | Aura :: rest =>
      let '(rest', enemies', acc') := collide_sprites rest enemies acc in
      (Aura :: rest', enemies', acc')
  | s :: rest =>
      if sprite_alive s then
        let '(s', enemies1, acc1) := collide_enemies s enemies acc in
        let '(rest', enemies2, acc2) := collide_sprites rest enemies1 acc1 in
        (s' :: rest', enemies2, acc2)
      else
        let '(rest', enemies', acc') := collide_sprites rest enemies acc in
        (s :: rest', enemies', acc')
  end.

(** [handle_projectile_collisions] *)
Definition handle_projectile_collisions (projectile_group : list sprite)
    (enemy_group : list Enemy.t) : list sprite * list Enemy.t * tally :=
  collide_sprites projectile_group enemy_group (mk_tally 0 0 []).

(** The enemies an attack effect damaged in a call: those whose hit points
    changed. *)
Definition damaged (before after : list Enemy.t) : list Z :=
  omap (fun ea =>
          if Qeq_bool (Enemy.hp (fst ea)) (Enemy.hp (snd ea)) then None
          else Some (Enemy.id (fst ea)))
       (zip before after).

End WeaponController.

(** ** entities/drops.py *)

Module Drops.

Inductive tier := small | medium | large.

Inductive drop :=
  | ExperienceGem (pos : Vector2) (t : tier) (value : Z)
  | HealthPickup (pos : Vector2) (value : Q)
  | Chest (pos : Vector2).

(** [ExperienceGem.__init__]: the tier follows the value. *)
Definition tier_of (value : Z) : tier :=
  if 25 <=? value then large
  else if 5 <=? value then medium
  else small.

(** [DropManager]: the drop group. *)
Definition DropManager : Type := list drop.

Definition spawn_xp_gem (pos : Vector2) (value : Z) (m : DropManager)
  : DropManager :=
  m ++ [ExperienceGem pos (tier_of value) value].

Definition spawn_health_pickup (pos : Vector2) (m : DropManager)
  : DropManager :=
  m ++ [HealthPickup pos Settings.health_pickup_value].

Definition spawn_chest (pos : Vector2) (m : DropManager) : DropManager :=
  m ++ [Chest pos].

(** [DropManager.spawn_enemy_drops] *)
Definition spawn_enemy_drops (e : Enemy.t) (g : Random.t) (m : DropManager)
  : DropManager * Random.t :=
  let drop_info := Enemy.get_drop_info e in
  let pos := Enemy.di_pos drop_info in
  let xp_value := Enemy.di_xp_value drop_info in
  let m1 := spawn_xp_gem pos xp_value m in
  let (r1, g1) := Random.random g in
  let '(m2, g2) :=
    if Py.ltb r1 Settings.health_pickup_drop_chance then
      let (ox, ga) := Random.uniform (-10) 10 g1 in
      let (oy, gb) := Random.uniform (-10) 10 ga in
      (spawn_health_pickup (vadd pos (ox, oy)) m1, gb)
    else (m1, g1) in
  let (r2, g3) := Random.random g2 in
  if Py.ltb r2 Settings.chest_drop_chance then
    let (ox, ga) := Random.uniform (-15) 15 g3 in
    let (oy, gb) := Random.uniform (-15) 15 ga in
    (spawn_chest (vadd pos (ox, oy)) m2, gb)
  else (m2, g3).

Definition is_gem (d : drop) : bool :=
  match d with ExperienceGem _ _ _ => true | _ => false end.

End Drops.

(** ** main.py: the parts of [Game.update] that resolve combat *)

Module Game.

(** Lines 304-314 of main.py: the projectile collisions, then one drop
    call per dead enemy, the aura's dead enemies last. *)
Definition resolve_deaths (projectile_group : list WeaponController.sprite)
    (enemy_group : list Enemy.t) (weapon_dead_enemies : list Enemy.drop_info)
    (m : Drops.DropManager)
  : list WeaponController.sprite * list Enemy.t * list Enemy.drop_info
    * Drops.DropManager :=
  let '(sprites, enemies, tally) :=
    WeaponController.handle_projectile_collisions projectile_group
      enemy_group in
  let dead_enemies :=
    WeaponController.dead_enemies tally ++ weapon_dead_enemies in
  let m' :=
    fold_left
      (fun acc drop_info =>
         Drops.spawn_xp_gem (Enemy.di_pos drop_info)
           (Enemy.di_xp_value drop_info) acc)
      dead_enemies m in
  (List.filter WeaponController.sprite_alive sprites,
   List.filter Enemy.alive enemies, dead_enemies, m').

(** The body of the loop of [_handle_player_enemy_collision] for one
    enemy: the player, the enemy, and whether the player died. *)
Definition contact (p : Player.t) (e : Enemy.t) : Player.t * Enemy.t * bool :=
  if Rect.colliderect (Player.hitbox p) (Enemy.hitbox e) then
    if Enemy.can_damage e && negb (Player.is_invincible p) then
      let (p', died) := Player.get_hit (inject_Z (Enemy.damage e)) p in
      if died then (p', e, true)
      else (p', Enemy.reset_damage_cooldown e, false)
    else (p, e, false)
  else (p, e, false).

(** [_handle_player_enemy_collision]: the loop returns at a lethal hit. *)
Fixpoint _handle_player_enemy_collision (p : Player.t)
    (enemy_group : list Enemy.t) : Player.t * list Enemy.t * bool :=
  match enemy_group with
  | [] => (p, [], false)
  | e :: rest =>
      let '(p', e', died) := contact p e in
      if died then (p', e' :: rest, true)
      else
        let '(p'', rest', d) := _handle_player_enemy_collision p' rest in
        (p'', e' :: rest', d)
  end.

(** One frame of contact handling as [Game.update] orders it: the player's
    invincibility window and the enemies' cooldowns run down by [dt], then
    the contacts are resolved. *)
Definition contact_tick (dt : float) (p : Player.t)
    (enemy_group : list Enemy.t)
  : Player.t * list Enemy.t * bool :=
  let p1 := Player.update dt p in
  if Player.dead p1 then (p1, enemy_group, true)
  else _handle_player_enemy_collision p1 (map (Enemy.update dt) enemy_group).

(** [n] frames of contact handling, stopping once the player has died. *)
Fixpoint contact_ticks (n : nat) (dt : float) (p : Player.t)
    (enemy_group : list Enemy.t) : Player.t * list Enemy.t * bool :=
  match n with
  | O => (p, enemy_group, false)
  | S n' =>
      let '(p', es', died) := contact_tick dt p enemy_group in
      if died then (p', es', true) else contact_ticks n' dt p' es'
  end.

End Game.

(** ** Call sequences on a Garlic aura *)

Module AuraTrace.

(** The two methods that read the clock, each with its reading of
    [pygame.time.get_ticks()]. *)
Inductive call :=
  | Update (ticks : Z)
  | CanDamage (ticks : Z) (enemy_id : Z).

Definition ticks_of (c : call) : Z :=
  match c with
  | Update t => t
  | CanDamage t _ => t
  end.

(** [GarlicWeapon.update] damages an enemy exactly when
    [can_damage_enemy] answers true: the log keeps those calls, in order,
    as (clock reading, enemy identity). *)
Definition step (st : GarlicAura.t * list (Z * Z)) (c : call)
  : GarlicAura.t * list (Z * Z) :=
  match c with
  | Update t => (GarlicAura.update t (fst st), snd st)
  | CanDamage t e =>
      let (a', ok) := GarlicAura.can_damage_enemy t e (fst st) in
      (a', if ok then snd st ++ [(t, e)] else snd st)
  end.

Definition run (calls : list call) (a : GarlicAura.t)
  : GarlicAura.t * list (Z * Z) :=
  fold_left step calls (a, []).

(** The calls [GarlicWeapon.update] makes in one frame: the aura's
    [update], then one [can_damage_enemy] per enemy in range, each with the
    clock reading it gets. *)
Fixpoint frame_checks (enemy_ids : list Z) (c : Clock.t)
  : list call * Clock.t :=
  match enemy_ids with
  | [] => ([], c)
  | e :: rest =>
      let (t, c1) := Clock.get_ticks c in
      let (calls, c2) := frame_checks rest c1 in
      (CanDamage t e :: calls, c2)
  end.

Definition frame_calls (enemy_ids : list Z) (c : Clock.t)
  : list call * Clock.t :=
  let (t, c1) := Clock.get_ticks c in
  let (calls, c2) := frame_checks enemy_ids c1 in
  (Update t :: calls, c2).

(** The calls of successive frames, [in_range] listing for each frame the
    enemies [get_enemies_in_range] returned in it. *)
Fixpoint frames (in_range : list (list Z)) (c : Clock.t) : list call :=
  match in_range with
  | [] => []
  | ids :: rest =>
      let (calls, c') := frame_calls ids c in calls ++ frames rest c'
  end.

End AuraTrace.

(** ** The spec's reading of the scaled enemy stats *)

Module Spec.

(** [round(x)]: the nearest integer, halves rounded up. *)
Definition round (x : Q) : Z := Qfloor (x + (1 # 2)).

(** [diff(t) = 1 + hpScalePerMinute * (t / 60)] *)
Definition diff (t : Q) : Q :=
  (1 + Settings.difficulty_hp_scale * (t / 60))%Q.

End Spec.

(** ** Closed forms and invariants used to state the properties *)

Module Forms.

(** The threshold always sits on the halved curve of the current level. *)
Definition on_curve (p : Player.t) : Prop :=
  1 <= Player.level p
  /\ Player.xp_to_next_level p
     = (Settings.base_xp_to_level
        + (Player.level p - 1) * Settings.xp_per_level_increase) / 2.

(** The closed forms of the spec, for a level [L] and a player [p]. *)
Definition damage_at (d : Settings.weapon_data) (L : Z) (p : Player.t) : Q :=
  ((Settings.base_damage d
    + Settings.s_damage (Settings.w_scaling d) * inject_Z (L - 1))
   * Player.might p)%Q.

Definition cooldown_at (d : Settings.weapon_data) (L : Z) (p : Player.t) : Q :=
  (Py.max (1 # 10)
     (Settings.base_cooldown d
      + Settings.s_cooldown (Settings.w_scaling d) * inject_Z (L - 1))
   * (1 - Player.cooldown_reduction p))%Q.

Definition area_at (d : Settings.weapon_data) (L : Z) : Q :=
  (Settings.base_area d
   + Settings.s_area (Settings.w_scaling d) * inject_Z (L - 1))%Q.

Definition amount_at (d : Settings.weapon_data) (L : Z) : Z :=
  if 0 <? Settings.s_amount (Settings.w_scaling d)
  then Settings.base_amount d
       + ((L - 1) / 2) * Settings.s_amount (Settings.w_scaling d)
  else Settings.base_amount d.

(** A weapon whose derived stats are the closed forms at its level. *)
Definition settled (p : Player.t) (w : Weapon.t) : Prop :=
  (Weapon.damage w == damage_at (Weapon.data w) (Weapon.level w) p)%Q
  /\ (Weapon.cooldown w == cooldown_at (Weapon.data w) (Weapon.level w) p)%Q
  /\ (Weapon.area w == area_at (Weapon.data w) (Weapon.level w))%Q
  /\ Weapon.amount w = amount_at (Weapon.data w) (Weapon.level w).

(** [EVOLUTION_DATA.get(evolution_id).get('damage_mult', 1.5)] for a weapon
    whose evolution exists. *)
Definition evolution_mult (w : Weapon.t) : Q :=
  match Weapon.evolution_id w with
  | Some eid =>
      match Py.get eid Settings.EVOLUTION_DATA with
      | Some ed =>
          match Settings.damage_mult ed with Some m => m | None => 3 # 2 end
      | None => 1
      end
  | None => 1
  end.

(** Later recomputations, one per passive change, each under the player's
    stat block of that moment. *)
Definition recalculations (ps : list Player.t) (w : Weapon.t) : Weapon.t :=
  fold_left (fun w' q => Weapon._recalculate_stats q w') ps w.

(** The gem a death is owed: at the enemy's last position, of the tier of
    its XP value. *)
Definition gem_of (di : Enemy.drop_info) : Drops.drop :=
  Drops.ExperienceGem (Enemy.di_pos di)
    (Drops.tier_of (Enemy.di_xp_value di)) (Enemy.di_xp_value di).

(** The damage a hit applies: the enemy's damage less the armor, at least 1. *)
Definition applied (p : Player.t) (e : Enemy.t) : Q :=
  Py.max 1 (inject_Z (Enemy.damage e) - Player.armor p).

(** Damage applications to one enemy are at least [c] seconds apart. *)
Definition separated (c : Q) (log : list (Z * Z)) : Prop :=
  forall (i j : nat) (t1 t2 e : Z),
    (i < j)%nat -> log !! i = Some (t1, e) -> log !! j = Some (t2, e) ->
    (c <= Clock.seconds t2 - Clock.seconds t1)%Q.

(** What holds of the aura and its log after every call, [now] being the
    latest clock reading. *)
Record invariant (c : Q) (now : Z) (st : GarlicAura.t * list (Z * Z)) : Prop := {
  inv_rate : GarlicAura.tick_rate st.1 = c;
  inv_timers : forall e v,
    GarlicAura.damage_timers st.1 !! e = Some v -> (v <= Clock.seconds now)%Q;
  inv_past : forall t e, (t, e) ∈ st.2 -> t <= now;
  inv_last : forall t e, (t, e) ∈ st.2 ->
    match GarlicAura.damage_timers st.1 !! e with
    | Some v => (Clock.seconds t <= v)%Q
    | None => (c * 2 <= Clock.seconds now - Clock.seconds t)%Q
    end;
  inv_separated : separated c st.2
}.

(** What holds of every weapon a session holds under key [k]: its
    evolution fields are those of the table entry, and the axe and the
    knife, whose evolutions have no [EVOLUTION_DATA] entry, are not marked
    evolved. *)
Definition weapon_ok (k : string) (w : Weapon.t) : Prop :=
  Weapon.evolution_id w = Settings.evolution (Weapon.data_of k)
  /\ Weapon.evolution_passive w
     = Settings.evolution_passive (Weapon.data_of k)
  /\ (k = "axe"%string \/ k = "knife"%string -> Weapon.evolved w = false).

(** What holds of every inventory a session reaches: the shipped limits,
    a dictionary of weapons keyed by weapon classes, a dictionary of
    passives keyed by [PASSIVE_DATA], and weapons as [weapon_ok] says. *)
Record well_formed (c : WeaponController.t) : Prop := {
  wf_max_weapons : WeaponController.max_weapons c = Settings.MAX_WEAPONS;
  wf_max_passives : WeaponController.max_passives c = Settings.MAX_PASSIVES;
  wf_weapon_keys : NoDup (map fst (WeaponController.weapons c));
  wf_weapon_classes : forall k,
    k ∈ map fst (WeaponController.weapons c) ->
    k ∈ WeaponController.WEAPON_CLASSES;
  wf_passive_keys : NoDup (map fst (WeaponController.passives c));
  wf_passive_known : forall k,
    k ∈ map fst (WeaponController.passives c) ->
    k ∈ map fst Settings.PASSIVE_DATA;
  wf_weapons : forall k w,
    Py.get k (WeaponController.weapons c) = Some w -> weapon_ok k w
}.

(** The inventories a session reaches: the empty one, then any upgrade
    applied through [apply_upgrade], under whatever player. *)
Inductive reachable : WeaponController.t -> Prop :=
  | reach_init : reachable WeaponController.init
  | reach_upgrade (c : WeaponController.t) (u : WeaponController.upgrade)
      (p : Player.t) :
      reachable c -> reachable (WeaponController.apply_upgrade u p c).1.2.

End Forms.

(** ** Concrete inventories, sprites and call sequences *)

Module Scenario.

(** An inventory with nothing left to offer: the five weapons at level 8
    and marked evolved (a mark the axe and the knife never get in play, see
    [weapon_ok]), six passives at level 5. *)
Definition maxed (wid : string) (p : Player.t) : Weapon.t :=
  let w := Weapon.level_up_times 7 p (Weapon.init wid p) in
  Weapon.mk (Weapon.weapon_id w) (Weapon.data w) (Weapon.level w)
    (Weapon.max_level w) (Weapon.damage w) (Weapon.cooldown w) (Weapon.area w)
    (Weapon.speed w) (Weapon.amount w) (Weapon.pierce w)
    (Weapon.size_multiplier w) (Weapon.cooldown_timer w) true
    (Weapon.evolution_id w) (Weapon.evolution_passive w) (Weapon.homing w)
    (Weapon.aura w).

Definition exhausted : WeaponController.t :=
  let p := Player.init (Rect.mk 0 0 40 40) false in
  WeaponController.mk
    (map (fun wid => (wid, maxed wid p)) WeaponController.WEAPON_CLASSES)
    [("might_boost", 5); ("max_hp_boost", 5); ("regen_boost", 5);
     ("armor_boost", 5); ("speed_boost", 5); ("cooldown_boost", 5)]%string
    Settings.MAX_WEAPONS Settings.MAX_PASSIVES.

(** A knife (damage 8, pierce 1) and two chasers (10 HP each) that both
    overlap it in the same frame. *)
Definition knife : Projectile.t :=
  Projectile.init (Rect.mk 100 100 10 10) 8 1 2.

Definition chaser_at (ident x y : Z) : Enemy.t :=
  Enemy.create_enemy "chaser" ident (inject_Z x, inject_Z y)
    (Rect.mk x y 32 32) 1.

Definition two_chasers : list Enemy.t :=
  [chaser_at 1 90 90; chaser_at 2 95 95].

(** An axe (damage 25, pierce 999) kills an overlapping chaser worth 1 XP;
    the generator's next draws are all 0, below both drop chances. *)
Definition axe : Projectile.t :=
  Projectile.init (Rect.mk 100 100 24 24) 25 999 3.

Definition victim : Enemy.t :=
  Enemy.create_enemy "chaser" 1 (106, 106)%Q (Rect.mk 90 90 32 32) 1.

Definition zero_draws : Random.t := Random.mk (fun _ => 0%nat) 0.

(** A fresh player (100 HP, no armor, 0.5 s window) and two chasers, both
    on top of the player. *)
Definition hero : Player.t := Player.init (Rect.mk 100 100 40 40) false.

Definition chaser_on_hero (ident : Z) : Enemy.t :=
  Enemy.create_enemy "chaser" ident (120, 120)%Q (Rect.mk 104 104 32 32) 1.

(** An aura of tick rate 0.5 s checked against enemy 7 at 0, 100, 499 and
    500 ms, against enemy 8 at 600 ms, and, after a pruning pass at
    1600 ms, against enemy 7 again: enemy 7 is damaged at 0, 500 and
    1600 ms only. *)
Definition sample_calls : list AuraTrace.call :=
  [AuraTrace.Update 0; AuraTrace.CanDamage 0 7; AuraTrace.CanDamage 100 7;
   AuraTrace.CanDamage 499 7; AuraTrace.CanDamage 500 7;
   AuraTrace.CanDamage 600 8; AuraTrace.Update 1600;
   AuraTrace.CanDamage 1600 7].

End Scenario.

(** ** systems/spawner.py: type selection and the update loop *)

Module SpawnerLoop.

(** [_get_initial_weights]: the types of [ENEMY_DATA] with a positive spawn
    weight, in table order.  [enemy_weights] is set once in [__init__] and
    only ever copied. *)
Definition _get_initial_weights : list (string * Q) :=
  omap (fun kd =>
          if Py.ltb 0 (Settings.e_spawn_weight (snd kd))
          then Some (fst kd, Settings.e_spawn_weight (snd kd))
          else None)
       Settings.ENEMY_DATA.

Definition enemy_weights : list (string * Q) := _get_initial_weights.

(** [w[k] = w.get(k, 0) * factor] *)
Definition scale_weight (k : string) (factor : Q) (w : list (string * Q))
  : list (string * Q) :=
  Py.set k ((match Py.get k w with Some v => v | None => 0 end) * factor)%Q w.

(** The cumulative walk [for enemy_type, weight in adjusted_weights.items()],
    with its fallback ['chaser']. *)
Fixpoint pick (roll cumulative : Q) (items : list (string * Q)) : string :=
  match items with
  | [] => "chaser"
  | (enemy_type, weight) :: rest =>
      let cumulative' := (cumulative + weight)%Q in
      if Py.leb roll cumulative' then enemy_type
      else pick roll cumulative' rest
  end.

(** [_select_enemy_type] *)
Definition adjusted_weights (s : EnemySpawner.t) : list (string * Q) :=
  let minutes := (EnemySpawner.game_time s / 60)%Q in
  let factor := (1 + minutes * (1 # 10))%Q in
  let w1 :=
    if Py.ltb 2 minutes then scale_weight "tank" factor enemy_weights
    else enemy_weights in
  if Py.ltb 3 minutes
  then scale_weight "bat" factor (scale_weight "ghost" factor w1)
  else w1.

Definition _select_enemy_type (s : EnemySpawner.t) (g : Random.t)
  : string * Random.t :=
  let adjusted := adjusted_weights s in
  let total_weight := fold_left Qplus (map snd adjusted) 0%Q in
  if Qeq_bool total_weight 0 then ("chaser"%string, g)
  else
    let (roll, g') := Random.uniform 0 total_weight g in
    (pick roll 0 adjusted, g').

Definition set_spawn_timer (v : Q) (s : EnemySpawner.t) : EnemySpawner.t :=
  EnemySpawner.mk (EnemySpawner.game_time s) v (EnemySpawner.last_boss_time s)
    (EnemySpawner.difficulty_hp_scale s) (EnemySpawner.total_spawned s).

(** [spawn_interval = 1.0 / spawn_rate if spawn_rate > 0 else 1.0] *)
Definition spawn_interval (s : EnemySpawner.t) : Q :=
  let spawn_rate := EnemySpawner._get_spawn_rate s in
  if Py.ltb 0 spawn_rate then (1 / spawn_rate)%Q else 1%Q.

(** The number of whole intervals a timer holds. *)
Definition intervals (timer interval : Q) : nat :=
  Z.to_nat (Qfloor (timer / interval)).

Section Positions.

(** [ring_offset r] stands for the point [(cos a * R, sin a * R)] of the
    spawn ring, at the angle [a = 2 * pi * r] that
    [random.uniform(0, 2 * math.pi)] makes of the draw [r] and for the
    radius [R] of [get_spawn_position_outside_camera]; [rect_at] is the
    image rectangle pygame centres on a position. *)
Variable ring_offset : Q -> Vector2.
Variable rect_at : Vector2 -> Rect.t.

(** [get_spawn_position_outside_camera] of utils.py *)
Definition get_spawn_position_outside_camera (player_pos : Vector2)
    (g : Random.t) : Vector2 * Random.t :=
  let (r, g') := Random.random g in
  let x := (fst player_pos + fst (ring_offset r))%Q in
  let y := (snd player_pos + snd (ring_offset r))%Q in
  ((Py.clamp x 50 (Settings.WORLD_WIDTH - 50),
    Py.clamp y 50 (Settings.WORLD_HEIGHT - 50))%Q, g').

(** [spawn_enemy(player_pos)]: the type is drawn first, then the position;
    the number of enemies spawned so far numbers the new ones. *)
Definition spawn_enemy (player_pos : Vector2) (g : Random.t)
    (s : EnemySpawner.t) : list Enemy.t * EnemySpawner.t * Random.t :=
  let (enemy_type, g1) := _select_enemy_type s g in
  let (pos, g2) := get_spawn_position_outside_camera player_pos g1 in
  EnemySpawner.spawn_enemy enemy_type (EnemySpawner.total_spawned s) pos
    rect_at g2 s.

(** [spawn_boss(player_pos)] *)
Definition spawn_boss (player_pos : Vector2) (g : Random.t)
    (s : EnemySpawner.t) : Enemy.t * EnemySpawner.t * Random.t :=
  let (pos, g1) := get_spawn_position_outside_camera player_pos g in
  let (boss, s') :=
    EnemySpawner.spawn_boss (EnemySpawner.total_spawned s) pos rect_at s in
  (boss, s', g1).

(** [while self.spawn_timer >= spawn_interval: ...], within [fuel] rounds:
    the batches of enemies the successive [spawn_enemy] calls created. *)
Fixpoint spawn_loop (fuel : nat) (interval : Q) (player_pos : Vector2)
    (s : EnemySpawner.t) (g : Random.t) (batches : list (list Enemy.t))
  : list (list Enemy.t) * EnemySpawner.t * Random.t :=
  match fuel with
  | O => (batches, s, g)
  | S fuel' =>
      if Py.leb interval (EnemySpawner.spawn_timer s) then
        let s1 := set_spawn_timer (EnemySpawner.spawn_timer s - interval)%Q s in
        let '(enemies, s2, g') := spawn_enemy player_pos g s1 in
        spawn_loop fuel' interval player_pos s2 g' (batches ++ [enemies])
      else (batches, s, g)
  end.

(** [EnemySpawner.update]: the batches spawned by the loop, the boss if one
    was due, the spawner.  The loop gets one round more than the timer
    holds intervals, so that it ends by its own test. *)
Definition update (dt : Q) (player_pos : Vector2) (s : EnemySpawner.t)
    (g : Random.t)
  : list (list Enemy.t) * option Enemy.t * EnemySpawner.t * Random.t :=
  let s1 :=
    EnemySpawner.mk (EnemySpawner.game_time s + dt)%Q
      (EnemySpawner.spawn_timer s + dt)%Q (EnemySpawner.last_boss_time s)
      (EnemySpawner.difficulty_hp_scale s) (EnemySpawner.total_spawned s) in
  let interval := spawn_interval s1 in
  let '(batches, s2, g1) :=
    spawn_loop (S (intervals (EnemySpawner.spawn_timer s1) interval))
      interval player_pos s1 g [] in
  if Py.leb Settings.boss_spawn_interval
       (EnemySpawner.game_time s2 - EnemySpawner.last_boss_time s2)%Q
     && Py.leb Settings.boss_spawn_interval (EnemySpawner.game_time s2)
  then
    let '(boss, s3, g2) := spawn_boss player_pos g1 s2 in
    (batches, Some boss, s3, g2)
  else (batches, None, s2, g1).

(** Successive frames, each with its [dt] and the player's position: the
    game times at which a boss was spawned, in order. *)
Fixpoint run (frames : list (Q * Vector2)) (s : EnemySpawner.t)
    (g : Random.t) (boss_times : list Q) : EnemySpawner.t * list Q :=
  match frames with
  | [] => (s, boss_times)
  | (dt, player_pos) :: rest =>
      let '(_, boss, s', g') := update dt player_pos s g in
      run rest s' g'
        (match boss with
         | Some _ => boss_times ++ [EnemySpawner.game_time s']
         | None => boss_times
         end)
  end.

End Positions.

End SpawnerLoop.

(** ** utils.py: distances and the closest enemy *)

Module Utils.

(** [rect.center] *)
Definition center (r : Rect.t) : Vector2 :=
  (inject_Z (Rect.x r + Z.quot (Rect.w r) 2),
   inject_Z (Rect.y r + Z.quot (Rect.h r) 2)).

(** [distance_squared] *)
Definition distance_squared (pos1 pos2 : Vector2) : Q :=
  ((fst pos2 - fst pos1) * (fst pos2 - fst pos1)
   + (snd pos2 - snd pos1) * (snd pos2 - snd pos1))%Q.

(** [dist_sq <= max_range_sq]: a [max_range] of [None] or of 0 is false as
    a condition and leaves the range unlimited. *)
Definition within (max_range : option Q) (dist_sq : Q) : bool :=
  match max_range with
  | Some r => if Qeq_bool r 0 then true else Py.leb dist_sq (r * r)
  | None => true
  end.

(** The loop of [get_closest_enemy]; [closest] holds the enemy found so
    far with its squared distance, [None] while the distance is infinite. *)
Fixpoint closest_from (pos : Vector2) (max_range : option Q)
    (enemy_group : list Enemy.t) (closest : option (Enemy.t * Q))
  : option (Enemy.t * Q) :=
  match enemy_group with
  | [] => closest
  | enemy :: rest =>
      let dist_sq := distance_squared pos (center (Enemy.rect enemy)) in
      let nearer :=
        match closest with
        | Some (_, closest_dist_sq) => Py.ltb dist_sq closest_dist_sq
        | None => true
        end in
      closest_from pos max_range rest
        (if nearer && within max_range dist_sq
         then Some (enemy, dist_sq) else closest)
  end.

(** [get_closest_enemy] *)
Definition get_closest_enemy (pos : Vector2) (enemy_group : list Enemy.t)
    (max_range : option Q) : option Enemy.t :=
  fst <$> closest_from pos max_range enemy_group None.

End Utils.

(** ** utils.py: [SpatialHash] *)

Module SpatialHash.

(** Cells are keyed by their integer coordinates; entities are sprite
    identities. *)
Record t := mk { cell_size : Q; cells : gmap (Z * Z) (list Z) }.

(** [SpatialHash.__init__] *)
Definition init (size : Q) : t := mk size ∅.

(** [_get_cell]: [int(x // cell_size)] on floats; the floor division
    raises ZeroDivisionError on a cell size of 0, which is [None] here. *)
Definition _get_cell (pos : Vector2) (h : t) : option (Z * Z) :=
  if Qeq_bool (cell_size h) 0 then None
  else Some (Qfloor (fst pos / cell_size h), Qfloor (snd pos / cell_size h)).

(** [clear] *)
Definition clear (h : t) : t := mk (cell_size h) ∅.

(** [insert] *)
Definition insert (entity : Z) (pos : Vector2) (h : t) : option t :=
  match _get_cell pos h with
  | Some cell =>
      Some (mk (cell_size h)
              (<[cell := default [] (cells h !! cell) ++ [entity]]> (cells h)))
  | None => None
  end.

(** [range(-radius, radius + 1)] *)
Definition offsets (radius : Z) : list Z := seqZ (- radius) (2 * radius + 1).

(** [get_nearby]: the cells of the square around the centre cell, column
    by column. *)
Definition get_nearby (pos : Vector2) (radius : Z) (h : t)
  : option (list Z) :=
  match _get_cell pos h with
  | Some center_cell =>
      Some (dx ← offsets radius;
            dy ← offsets radius;
            default [] (cells h !! (fst center_cell + dx, snd center_cell + dy)))
  | None => None
  end.

End SpatialHash.

(** ** entities/drops.py: magnetism and collection *)

Module Pickups.

(** A drop in the drop group: what it is, and the two flags of [Drop]. *)
Record t := mk { item : Drops.drop; is_magnetized : bool; collected : bool }.

(** [Drop.__init__] *)
Definition spawn (d : Drops.drop) : t := mk d false false.

Definition pos_of (d : Drops.drop) : Vector2 :=
  match d with
  | Drops.ExperienceGem pos _ _ => pos
  | Drops.HealthPickup pos _ => pos
  | Drops.Chest pos => pos
  end.

Definition move_to (pos : Vector2) (d : Drops.drop) : Drops.drop :=
  match d with
  | Drops.ExperienceGem _ tier value => Drops.ExperienceGem pos tier value
  | Drops.HealthPickup _ value => Drops.HealthPickup pos value
  | Drops.Chest _ => Drops.Chest pos
  end.

(** [DROP_SETTINGS['chest']['size']] *)
Definition chest_size : Q := 16.

(** [distance <= limit] for the distance between two points, compared
    through the squares. *)
Definition within (a b : Vector2) (limit : Q) : bool :=
  Py.leb 0 limit && Py.leb (Utils.distance_squared a b) (limit * limit).

Section Pull.

(** [pull pos player_pos pickup_radius dt] stands for the position a
    magnetized drop moves to in a frame,
    [pos + direction * speed * dt] with the normalised direction to the
    player. *)
Variable pull : Vector2 -> Vector2 -> Q -> Q -> Vector2.

(** [Drop.magnetize]: the boolean is the return value. *)
Definition magnetize (player_pos : Vector2) (pickup_radius dt : Q) (d : t)
  : t * bool :=
  let pos := pos_of (item d) in
  let magnetized :=
    if within pos player_pos pickup_radius then true else is_magnetized d in
  if magnetized && negb (within pos player_pos 5) then
    (mk (move_to (pull pos player_pos pickup_radius dt) (item d)) magnetized
        (collected d), false)
  else if magnetized && within pos player_pos 5 then
    (mk (item d) magnetized (collected d), true)
  else (mk (item d) magnetized (collected d), false).

(** [Chest.magnetize] *)
Definition chest_magnetize (player_pos : Vector2) (d : t) : bool :=
  within (pos_of (item d)) player_pos (chest_size + 10).

(** [update] of the three classes (the animation timers are left out). *)
Definition update (dt : Q) (player_pos : Vector2) (pickup_radius : Q) (d : t)
  : t :=
  match item d with
  | Drops.Chest _ =>
      if chest_magnetize player_pos d
      then mk (item d) (is_magnetized d) true else d
  | _ =>
      let (d', got) := magnetize player_pos pickup_radius dt d in
      if got then mk (item d') (is_magnetized d') true else d'
  end.

(** What [DropManager.update] returns. *)
Record tally := mk_tally { xp : Z; health : Q; chests : list t }.

(** [DropManager.update]: the drops left in the group, and the tally. *)
Fixpoint manager_update (dt : Q) (player_pos : Vector2) (pickup_radius : Q)
    (drop_group : list t) (acc : tally) : list t * tally :=
  match drop_group with
  | [] => ([], acc)
  | drop :: rest =>
      let drop' := update dt player_pos pickup_radius drop in
      if collected drop' then
        let acc' :=
          match item drop' with
          | Drops.ExperienceGem _ _ value =>
              mk_tally (xp acc + value) (health acc) (chests acc)
          | Drops.HealthPickup _ value =>
              mk_tally (xp acc) (health acc + value)%Q (chests acc)
          | Drops.Chest _ =>
              mk_tally (xp acc) (health acc) (chests acc ++ [drop'])
          end in
        manager_update dt player_pos pickup_radius rest acc'
      else
        let '(kept, acc') :=
          manager_update dt player_pos pickup_radius rest acc in
        (drop' :: kept, acc')
  end.

Definition DropManager_update (dt : Q) (player_pos : Vector2)
    (pickup_radius : Q) (drop_group : list t) : list t * tally :=
  manager_update dt player_pos pickup_radius drop_group (mk_tally 0 0 []).

End Pull.

End Pickups.

(** ** weapons/weapon_base.py: [Weapon.update], and the [update] a weapon
    of each class answers to *)

Module Firing.

Definition set_cooldown_timer (timer : CooldownTimer.t) (w : Weapon.t)
  : Weapon.t :=
  Weapon.mk (Weapon.weapon_id w) (Weapon.data w) (Weapon.level w)
    (Weapon.max_level w) (Weapon.damage w) (Weapon.cooldown w) (Weapon.area w)
    (Weapon.speed w) (Weapon.amount w) (Weapon.pierce w)
    (Weapon.size_multiplier w) timer (Weapon.evolved w)
    (Weapon.evolution_id w) (Weapon.evolution_passive w) (Weapon.homing w)
    (Weapon.aura w).

(** [Weapon.update] of the base class, which the whip, the wand, the axe
    and the knife inherit: [if self.cooldown_timer.use(): self.attack()],
    with the clock reading [use] takes; the boolean tells whether [attack]
    was called. *)
Definition update (ticks : Z) (w : Weapon.t) : Weapon.t * bool :=
  let (timer, fired) := CooldownTimer.use ticks (Weapon.cooldown_timer w) in
  (set_cooldown_timer timer w, fired).

Definition set_aura (a : GarlicAura.t) (w : Weapon.t) : Weapon.t :=
  Weapon.mk (Weapon.weapon_id w) (Weapon.data w) (Weapon.level w)
    (Weapon.max_level w) (Weapon.damage w) (Weapon.cooldown w) (Weapon.area w)
    (Weapon.speed w) (Weapon.amount w) (Weapon.pierce w)
    (Weapon.size_multiplier w) (Weapon.cooldown_timer w) (Weapon.evolved w)
    (Weapon.evolution_id w) (Weapon.evolution_passive w) (Weapon.homing w)
    (Some a).

(** [weapon.update(dt)] as [WeaponController.update] calls it on a weapon
    of any class.  A Garlic, the weapon that holds an aura, answers with
    [GarlicWeapon.update]: it never reads the cooldown timer and never
    calls [attack]; it makes the frame's calls on its aura, for the enemies
    [in_range] that [get_enemies_in_range] returned, and damages those the
    aura grants.  The other weapons answer with [Weapon.update].  The
    result: the weapon, whether [attack] was called, the (clock reading,
    enemy) pairs the aura damaged, and the clock. *)
Definition weapon_update (in_range : list Z) (c : Clock.t) (w : Weapon.t)
  : Weapon.t * bool * list (Z * Z) * Clock.t :=
  match Weapon.aura w with
  | Some a =>
      let (calls, c') := AuraTrace.frame_calls in_range c in
      let (a', log) := AuraTrace.run calls a in
      (set_aura a' w, false, log, c')
  | None =>
      let (ticks, c') := Clock.get_ticks c in
      let (w', fired) := update ticks w in
      (w', fired, [], c')
  end.

(** Successive frames of [Weapon.update], one clock reading each: the
    readings at which the weapon attacked, in order. *)
Fixpoint updates (readings : list Z) (w : Weapon.t) (attacks : list Z)
  : Weapon.t * list Z :=
  match readings with
  | [] => (w, attacks)
  | ticks :: rest =>
      let (w', fired) := update ticks w in
      updates rest w' (if fired then attacks ++ [ticks] else attacks)
  end.

End Firing.

(** ** A session: the calls [Game] makes on the player and the inventory *)

Module Session.

(** [apply_upgrade] of the card chosen in the level-up menu (main.py 240),
    [get_hit] of a contact (344), [heal] of collected health (329),
    [gain_xp] of collected gems (324) and [update] of a frame (282). *)
Inductive event :=
  | Upgrade (u : WeaponController.upgrade)
  | Hit (damage : Q)
  | Heal (amount : Q)
  | Xp (amount : Z)
  | Tick (dt : float).

Definition step (st : Player.t * WeaponController.t) (e : event)
  : Player.t * WeaponController.t :=
  match e with
  | Upgrade u => (WeaponController.apply_upgrade u (fst st) (snd st)).1
  | Hit damage => ((Player.get_hit damage (fst st)).1, snd st)
  | Heal amount => (Player.heal amount (fst st), snd st)
  | Xp amount => ((Player.gain_xp amount (fst st)).1, snd st)
  | Tick dt => (Player.update dt (fst st), snd st)
  end.

Definition run (events : list event) (st : Player.t * WeaponController.t)
  : Player.t * WeaponController.t :=
  fold_left step events st.

(** [_init_entities] before the starting weapon: a fresh player and an
    empty inventory. *)
Definition start (box : Rect.t) (cheat_unlimited_health : bool)
  : Player.t * WeaponController.t :=
  (Player.init box cheat_unlimited_health, WeaponController.init).

End Session.

(** ** systems/ui.py: the settings the cheats menu edits *)

Module Cheats.

(** [CHEAT_SETTINGS] of settings.py *)
Record t := mk {
  unlimited_health : bool;
  starting_weapon : string;
  starting_weapon_level : Z;
  starting_passives : list (string * Z);
  exp_multiplier : Q;
  cheats_enabled : bool
}.

Definition CHEAT_SETTINGS : t := mk false "whip" 1 [] 1 false.

Definition AVAILABLE_STARTING_WEAPONS : list string :=
  ["whip"; "wand"; "garlic"; "axe"; "knife"]%string.

Definition AVAILABLE_STARTING_PASSIVES : list string :=
  ["might_boost"; "max_hp_boost"; "regen_boost"; "pickup_boost";
   "armor_boost"; "speed_boost"; "cooldown_boost"]%string.

(** The builtin [round(x)] of a float: the nearest integer, a tie going
    to the even one. *)
Definition round (x : Q) : Z :=
  let f := Qfloor x in
  let d := (x - inject_Z f)%Q in
  if Py.ltb d (1 # 2) then f
  else if Py.ltb (1 # 2) d then f + 1
  else if Z.even f then f else f + 1.

(** [del d[k]] *)
Fixpoint del {V : Type} (k : string) (d : list (string * V))
  : list (string * V) :=
  match d with
  | [] => []
  | (k', v) :: d' => if String.eqb k k' then d' else (k', v) :: del k d'
  end.

(** [l.index(x)]; [None] stands for the ValueError. *)
Fixpoint index (x : string) (l : list string) : option Z :=
  match l with
  | [] => None
  | y :: l' => if String.eqb x y then Some 0 else Z.succ <$> index x l'
  end.

(** The condition of [_update_cheats_enabled]: some setting is not the
    default one. *)
Definition has_cheats (cs : t) : bool :=
  unlimited_health cs
  || negb (String.eqb (starting_weapon cs) "whip")
  || negb (starting_weapon_level cs =? 1)
  || (0 <? length (starting_passives cs))%nat
  || negb (Qeq_bool (exp_multiplier cs) 1).

Definition _update_cheats_enabled (cs : t) : t :=
  mk (unlimited_health cs) (starting_weapon cs) (starting_weapon_level cs)
     (starting_passives cs) (exp_multiplier cs) (has_cheats cs).

Definition set_starting_passives (sp : list (string * Z)) (cs : t) : t :=
  mk (unlimited_health cs) (starting_weapon cs) (starting_weapon_level cs)
     sp (exp_multiplier cs) (cheats_enabled cs).

(** The toggle of option 0. *)
Definition toggle_unlimited_health (cs : t) : t :=
  _update_cheats_enabled
    (mk (negb (unlimited_health cs)) (starting_weapon cs)
        (starting_weapon_level cs) (starting_passives cs) (exp_multiplier cs)
        (cheats_enabled cs)).

(** [_cycle_weapon]: the new index is reduced modulo the number of weapons,
    so the lookup never misses. *)
Definition _cycle_weapon (direction : Z) (cs : t) : t :=
  let current_index :=
    match index (starting_weapon cs) AVAILABLE_STARTING_WEAPONS with
    | Some i => i
    | None => 0
    end in
  let new_index :=
    (current_index + direction)
    mod Z.of_nat (length AVAILABLE_STARTING_WEAPONS) in
  match AVAILABLE_STARTING_WEAPONS !! Z.to_nat new_index with
  | Some w =>
      _update_cheats_enabled
        (mk (unlimited_health cs) w (starting_weapon_level cs)
            (starting_passives cs) (exp_multiplier cs) (cheats_enabled cs))
  | None => cs
  end.

(** [_cycle_weapon_level] *)
Definition _cycle_weapon_level (direction : Z) (cs : t) : t :=
  let new_level := starting_weapon_level cs + direction in
  let new_level :=
    if new_level <? 1 then 8 else if 8 <? new_level then 1 else new_level in
  _update_cheats_enabled
    (mk (unlimited_health cs) (starting_weapon cs) new_level
        (starting_passives cs) (exp_multiplier cs) (cheats_enabled cs)).

(** [_adjust_exp_multiplier] *)
Definition _adjust_exp_multiplier (direction : Z) (cs : t) : t :=
  let new_val := (exp_multiplier cs + inject_Z direction * (1 # 4))%Q in
  let new_val := Py.max (1 # 4) (Py.min 5 new_val) in
  let new_val := (inject_Z (round (new_val * 4)) / 4)%Q in
  _update_cheats_enabled
    (mk (unlimited_health cs) (starting_weapon cs) (starting_weapon_level cs)
        (starting_passives cs) new_val (cheats_enabled cs)).

(** [_toggle_passive] *)
Definition _toggle_passive (passive_idx : Z) (cs : t) : t :=
  if (passive_idx <? 0)
     || (Z.of_nat (length AVAILABLE_STARTING_PASSIVES) <=? passive_idx)
  then cs
  else
    match AVAILABLE_STARTING_PASSIVES !! Z.to_nat passive_idx with
    | Some passive_id =>
        _update_cheats_enabled
          (if Py.contains passive_id (starting_passives cs)
           then set_starting_passives
                  (del passive_id (starting_passives cs)) cs
           else set_starting_passives
                  (Py.set passive_id 1 (starting_passives cs)) cs)
    | None => cs
    end.

(** [_adjust_passive_level] *)
Definition _adjust_passive_level (passive_idx direction : Z) (cs : t) : t :=
  if (passive_idx <? 0)
     || (Z.of_nat (length AVAILABLE_STARTING_PASSIVES) <=? passive_idx)
  then cs
  else
    match AVAILABLE_STARTING_PASSIVES !! Z.to_nat passive_idx with
    | Some passive_id =>
        let max_level :=
          match Py.get passive_id Settings.PASSIVE_DATA with
          | Some passive_info => Settings.p_max_level passive_info
          | None => 5
          end in
        _update_cheats_enabled
          (match Py.get passive_id (starting_passives cs) with
           | None =>
               if 0 <? direction
               then set_starting_passives
                      (Py.set passive_id 1 (starting_passives cs)) cs
               else cs
           | Some current_level =>
               let new_level := current_level + direction in
               if new_level <? 1 then
                 set_starting_passives
                   (del passive_id (starting_passives cs)) cs
               else if max_level <? new_level then
                 set_starting_passives
                   (Py.set passive_id max_level (starting_passives cs)) cs
               else
                 set_starting_passives
                   (Py.set passive_id new_level (starting_passives cs)) cs
           end)
    | None => cs
    end.

(** [_get_passive_index]: options 5 to 11 are the passives of the menu,
    option 4 is the separator and option 12, the last one, is Back. *)
Definition _get_passive_index (option_index : Z) : Z :=
  if (5 <=? option_index)
     && (option_index <? 5 + Z.of_nat (length AVAILABLE_STARTING_PASSIVES))
  then option_index - 5 else -1.

Definition last_option : Z :=
  5 + Z.of_nat (length AVAILABLE_STARTING_PASSIVES).

(** [_select_option] on the selected index (Return or Space). *)
Definition _select_option (selected_index : Z) (cs : t) : t :=
  if selected_index =? 0 then toggle_unlimited_health cs
  else if selected_index =? 1 then _cycle_weapon 1 cs
  else if selected_index =? 2 then _cycle_weapon_level 1 cs
  else if selected_index =? 3 then _adjust_exp_multiplier 1 cs
  else if selected_index =? 4 then cs
  else if selected_index =? last_option then cs
  else
    let passive_idx := _get_passive_index selected_index in
    if 0 <=? passive_idx then _toggle_passive passive_idx cs else cs.

(** [_adjust_option] on the selected index (Left: -1, Right: 1). *)
Definition _adjust_option (selected_index direction : Z) (cs : t) : t :=
  if selected_index =? 0 then toggle_unlimited_health cs
  else if selected_index =? 1 then _cycle_weapon direction cs
  else if selected_index =? 2 then _cycle_weapon_level direction cs
  else if selected_index =? 3 then _adjust_exp_multiplier direction cs
  else if selected_index =? 4 then cs
  else if selected_index =? last_option then cs
  else
    let passive_idx := _get_passive_index selected_index in
    if 0 <=? passive_idx
    then _adjust_passive_level passive_idx direction cs else cs.

(** What the keyboard does to the settings: a selection or an adjustment
    of the option under the cursor. *)
Inductive input :=
  | Select (selected_index : Z)
  | Adjust (selected_index direction : Z).

Definition handle (cs : t) (i : input) : t :=
  match i with
  | Select selected_index => _select_option selected_index cs
  | Adjust selected_index direction =>
      _adjust_option selected_index direction cs
  end.

End Cheats.

(** ** main.py: [_init_entities] *)

Module Loadout.

(** [for _ in range(level): self.weapon_controller.add_passive(passive_id)] *)
Fixpoint add_passive_times (n : nat) (passive_id : string)
    (st : Player.t * WeaponController.t) : Player.t * WeaponController.t :=
  match n with
  | O => st
  | S n' =>
      add_passive_times n' passive_id
        (WeaponController.add_passive passive_id (fst st) (snd st)).1
  end.

(** [_init_entities]: the player, the starting weapon raised to the
    starting level by direct [level_up] calls, then the starting passives
    in the order of the dictionary. *)
Definition _init_entities (box : Rect.t) (cs : Cheats.t)
  : Player.t * WeaponController.t :=
  let player := Player.init box (Cheats.unlimited_health cs) in
  let c0 := WeaponController.init in
  let starting_weapon := Cheats.starting_weapon cs in
  let c1 := (WeaponController.add_weapon starting_weapon player c0).1 in
  let starting_weapon_level := Cheats.starting_weapon_level cs in
  let c2 :=
    if 1 <? starting_weapon_level then
      match Py.get starting_weapon (WeaponController.weapons c1) with
      | Some weapon =>
          WeaponController.mk
            (Py.set starting_weapon
               (Weapon.level_up_times (Z.to_nat (starting_weapon_level - 1))
                  player weapon)
               (WeaponController.weapons c1))
            (WeaponController.passives c1) (WeaponController.max_weapons c1)
            (WeaponController.max_passives c1)
      | None => c1
      end
    else c1 in
  fold_left
    (fun st kl =>
       if Py.contains (fst kl) Settings.PASSIVE_DATA
       then add_passive_times (Z.to_nat (snd kl)) (fst kl) st
       else st)
    (Cheats.starting_passives cs) (player, c2).

(** A starting passive that is granted if a slot is free: a known one
    with a positive level. *)
Definition wanted (kl : string * Z) : bool :=
  Py.contains (fst kl) Settings.PASSIVE_DATA && (0 <? snd kl).

End Loadout.

(** ** Further predicates used to state the properties *)

Module Laws.

(** Healing amounts are never negative in play: collected pickups are worth
    20 each. *)
Definition heals_nonneg (e : Session.event) : Prop :=
  match e with
  | Session.Heal amount => (0 <= amount)%Q
  | _ => True
  end.

(** [self.passives.get(pid, 0)] *)
Definition passive_level (pid : string) (c : WeaponController.t) : Z :=
  match Py.get pid (WeaponController.passives c) with
  | Some lv => lv
  | None => 0
  end.

(** Hit points stay within the bar, and a living player has some left. *)
Definition vital (p : Player.t) : Prop :=
  (0 <= Player.hp p)%Q /\ (Player.hp p <= Player.max_hp p)%Q
  /\ (Player.dead p = false -> (0 < Player.hp p)%Q).

(** The identity, table entry and level of every weapon, the level of
    every passive and the number of passives, within their limits. *)
Record levels_ok (c : WeaponController.t) : Prop := {
  lv_weapons : forall k w,
    Py.get k (WeaponController.weapons c) = Some w ->
    Weapon.weapon_id w = k /\ Weapon.data w = Weapon.data_of k
    /\ Weapon.max_level w = 8 /\ 1 <= Weapon.level w <= 8;
  lv_passives : forall k lv,
    Py.get k (WeaponController.passives c) = Some lv -> 1 <= lv <= 5;
  lv_count : (length (WeaponController.passives c) <= Settings.MAX_PASSIVES)%nat
}.

(** A weapon whose derived stats are the closed forms at its level under
    the player [p]; the damage only until the weapon evolves; the aura of a
    Garlic follows the weapon. *)
Definition synced (p : Player.t) (w : Weapon.t) : Prop :=
  (Weapon.cooldown w
   == Forms.cooldown_at (Weapon.data w) (Weapon.level w) p)%Q
  /\ (Weapon.area w == Forms.area_at (Weapon.data w) (Weapon.level w))%Q
  /\ Weapon.amount w = Forms.amount_at (Weapon.data w) (Weapon.level w)
  /\ (Weapon.evolved w = false ->
      (Weapon.damage w
       == Forms.damage_at (Weapon.data w) (Weapon.level w) p)%Q)
  /\ (forall a, Weapon.aura w = Some a ->
        GarlicAura.tick_rate a = Weapon.cooldown w
        /\ GarlicAura.radius a = Weapon.aura_radius w).

(** The player's stat block as the passive levels of the inventory give
    it. *)
Definition stats_of (p : Player.t) (c : WeaponController.t) : Prop :=
  (Player.might p
   == 1 + (1 # 10) * inject_Z (passive_level "might_boost" c))%Q
  /\ (Player.cooldown_reduction p
      == (8 # 100) * inject_Z (passive_level "cooldown_boost" c))%Q
  /\ (Player.armor p == inject_Z (passive_level "armor_boost" c))%Q
  /\ (Player.regen p
      == (1 # 2) * inject_Z (passive_level "regen_boost" c))%Q
  /\ (Player.max_hp p
      == 100 + 20 * inject_Z (passive_level "max_hp_boost" c))%Q
  /\ (Player.pickup_radius p
      == 80 * (12 # 10) ^ passive_level "pickup_boost" c)%Q
  /\ (Player.move_speed p
      == 200 * (11 # 10) ^ passive_level "speed_boost" c)%Q.

(** The stats that only passives change. *)
Definition stat_block (p : Player.t) : Q * Q * Q * Q * Q * Q * Q :=
  (Player.max_hp p, Player.move_speed p, Player.pickup_radius p,
   Player.might p, Player.cooldown_reduction p, Player.armor p,
   Player.regen p).

(** What a collision pass leaves of an enemy: everything but its hit
    points, its knockback (the vector and its timer) and its membership of
    the group, which it can only lose. *)
Definition same_enemy (e e' : Enemy.t) : Prop :=
  Enemy.id e' = Enemy.id e /\ Enemy.rect e' = Enemy.rect e
  /\ Enemy.get_drop_info e' = Enemy.get_drop_info e
  /\ (Enemy.alive e' = true -> Enemy.alive e = true)
  /\ Enemy.enemy_type e' = Enemy.enemy_type e
  /\ Enemy.max_hp e' = Enemy.max_hp e /\ Enemy.damage e' = Enemy.damage e
  /\ Enemy.speed e' = Enemy.speed e /\ Enemy.hitbox e' = Enemy.hitbox e
  /\ Enemy.damage_cooldown e' = Enemy.damage_cooldown e.

(** The drop info of the enemies that were in the group before a collision
    pass and are not after it. *)
Definition deaths (before after : list Enemy.t) : list Enemy.drop_info :=
  omap (fun ea =>
          if Enemy.alive (fst ea) && negb (Enemy.alive (snd ea))
          then Some (Enemy.get_drop_info (fst ea))
          else None)
       (zip before after).

(** The identities an attack effect has hit so far. *)
Definition hits (s : WeaponController.sprite) : gset Z :=
  match s with
  | WeaponController.Shot p => Projectile.hit_enemies p
  | WeaponController.Slash sl => WhipSlash.hit_enemies sl
  | WeaponController.Aura => ∅
  end.

(** An attack effect that has hit every live enemy it overlaps. *)
Definition saturated (s : WeaponController.sprite) (es : list Enemy.t)
  : Prop :=
  forall e r,
    e ∈ es -> Enemy.alive e = true ->
    WeaponController.rect_of s = Some r ->
    Rect.colliderect r (Enemy.rect e) = true ->
    Enemy.id e ∈ hits s.

(** Settings the cheats menu can leave behind. *)
Record valid_settings (cs : Cheats.t) : Prop := {
  vs_weapon : Cheats.starting_weapon cs ∈ Cheats.AVAILABLE_STARTING_WEAPONS;
  vs_level : 1 <= Cheats.starting_weapon_level cs <= 8;
  vs_exp : exists k : Z,
    1 <= k <= 20 /\ (Cheats.exp_multiplier cs == inject_Z k / 4)%Q;
  vs_keys : NoDup (map fst (Cheats.starting_passives cs));
  vs_passives : forall k lv,
    (k, lv) ∈ Cheats.starting_passives cs ->
    k ∈ Cheats.AVAILABLE_STARTING_PASSIVES /\ 1 <= lv <= 5;
  vs_flag : Cheats.cheats_enabled cs = Cheats.has_cheats cs
}.

(** The XP, the health and the chests lying in a drop group. *)
Definition gem_total (drops : list Pickups.t) : Z :=
  fold_right
    (fun d acc =>
       match Pickups.item d with
       | Drops.ExperienceGem _ _ value => value + acc
       | _ => acc
       end) 0 drops.

Definition health_total (drops : list Pickups.t) : Q :=
  fold_right
    (fun d acc =>
       match Pickups.item d with
       | Drops.HealthPickup _ value => (value + acc)%Q
       | _ => acc
       end) 0%Q drops.

Definition is_chest (d : Pickups.t) : bool :=
  match Pickups.item d with
  | Drops.Chest _ => true
  | _ => false
  end.

Definition chest_count (drops : list Pickups.t) : nat :=
  length (List.filter
            (fun d => match Pickups.item d with
                      | Drops.Chest _ => true
                      | _ => false
                      end) drops).

(** When a drop that is not yet collected is collected by a frame: a chest
    within 26 pixels of the player; a gem or a health pickup within 5
    pixels, once it is magnetized, which it becomes within the pickup
    radius. *)
Definition reached (player_pos : Vector2) (pickup_radius : Q)
    (d : Pickups.t) : bool :=
  let pos := Pickups.pos_of (Pickups.item d) in
  match Pickups.item d with
  | Drops.Chest _ => Pickups.within pos player_pos 26
  | _ =>
      (Pickups.is_magnetized d || Pickups.within pos player_pos pickup_radius)
      && Pickups.within pos player_pos 5
  end.

(** Successive entries of a log of times are at least [gap] apart. *)
Definition spaced (gap : Q) (log : list Q) : Prop :=
  forall (i j : nat) (t1 t2 : Q),
    (i < j)%nat -> log !! i = Some t1 -> log !! j = Some t2 ->
    (gap <= t2 - t1)%Q.

(** A position inside the margin the spawner keeps to the world's edge. *)
Definition inside_margin (pos : Vector2) : Prop :=
  (50 <= fst pos <= Settings.WORLD_WIDTH - 50)%Q
  /\ (50 <= snd pos <= Settings.WORLD_HEIGHT - 50)%Q.

End Laws.

(** ** Further concrete sessions *)

Module Cases.

(** The axe taken and levelled to 8, then the Hollow Heart picked. *)
Definition axe_ready : Player.t * WeaponController.t :=
  Session.run
    (Session.Upgrade
       (WeaponController.mk_upgrade WeaponController.k_weapon "axe" true 0)
     :: replicate 7
          (Session.Upgrade
             (WeaponController.mk_upgrade WeaponController.k_weapon "axe"
                false 1))
     ++ [Session.Upgrade
           (WeaponController.mk_upgrade WeaponController.k_passive
              "max_hp_boost" true 0)])
    (Session.start (Rect.mk 0 0 40 40) false).

(** Settings with all seven passives of the cheats menu switched on, in
    the order of the menu, and the axe at level 8. *)
Definition all_passives : Cheats.t :=
  Cheats.mk false "axe" 8
    [("might_boost", 5); ("max_hp_boost", 1); ("regen_boost", 2);
     ("pickup_boost", 3); ("armor_boost", 4); ("speed_boost", 5);
     ("cooldown_boost", 5)]%string
    1 true.

End Cases.

(** * Properties *)

(** ** Facts about the numeric helpers *)

Module PyFacts.

Lemma leb_le a b : Py.leb a b = true <-> (a <= b)%Q.
Proof. apply Qle_bool_iff. Qed.

Lemma leb_gt a b : Py.leb a b = false <-> (b < a)%Q.
Proof.
  unfold Py.leb. split.
  - intros H. apply Qnot_le_lt. intros Hle.
    apply Qle_bool_iff in Hle. congruence.
  - intros H. destruct (Qle_bool a b) eqn:E; [|reflexivity].
    apply Qle_bool_iff in E. exfalso. apply (Qlt_not_le _ _ H E).
Qed.

Lemma ltb_lt a b : Py.ltb a b = true <-> (a < b)%Q.
Proof. unfold Py.ltb. rewrite negb_true_iff. apply leb_gt. Qed.

Lemma ltb_ge a b : Py.ltb a b = false <-> (b <= a)%Q.
Proof. unfold Py.ltb. rewrite negb_false_iff. apply Qle_bool_iff. Qed.

Lemma max_spec a b :
  ((a < b)%Q /\ Py.max a b = b) \/ ((b <= a)%Q /\ Py.max a b = a).
Proof.
  unfold Py.max. destruct (Py.ltb a b) eqn:E.
  - left. split; [by apply ltb_lt|reflexivity].
  - right. split; [by apply ltb_ge|reflexivity].
Qed.

Lemma min_spec a b :
  ((b < a)%Q /\ Py.min a b = b) \/ ((a <= b)%Q /\ Py.min a b = a).
Proof.
  unfold Py.min. destruct (Py.ltb b a) eqn:E.
  - left. split; [by apply ltb_lt|reflexivity].
  - right. split; [by apply ltb_ge|reflexivity].
Qed.

Lemma max_ge_l a b : (a <= Py.max a b)%Q.
Proof. destruct (max_spec a b) as [[H ->]|[H ->]]; lra. Qed.

(** On a non-negative float [int] is the floor. *)
Lemma int_floor_nonneg (x : Q) : (0 <= x)%Q -> Py.int x = Qfloor x.
Proof.
  destruct x as [n d]. unfold Qle, Py.int, Qfloor. simpl.
  intros H. rewrite Z.mul_1_r in H.
  apply Z.quot_div_nonneg; lia.
Qed.

(** Lookup in a dictionary whose values were all mapped. *)
Lemma get_map {V W : Type} (f : V -> W) k (d : list (string * V)) :
  Py.get k (map (fun kv => (fst kv, f (snd kv))) d) = f <$> Py.get k d.
Proof.
  induction d as [|[k' v] d IH]; simpl; [reflexivity|].
  destruct (String.eqb k k'); [reflexivity|exact IH].
Qed.

Lemma get_set_eq {V : Type} k (v : V) d : Py.get k (Py.set k v d) = Some v.
Proof.
  induction d as [|[k' v'] d IH]; simpl.
  - by rewrite String.eqb_refl.
  - destruct (String.eqb k k') eqn:E; simpl.
    + by rewrite String.eqb_refl.
    + by rewrite E.
Qed.

Lemma get_set k' k {V : Type} (v : V) d :
  Py.get k' (Py.set k v d) = if String.eqb k' k then Some v else Py.get k' d.
Proof.
  induction d as [|[k0 v0] d IH]; cbn; [done|].
  destruct (String.eqb k k0) eqn:E; cbn.
  - apply String.eqb_eq in E as ->. by destruct (String.eqb k' k0).
  - destruct (String.eqb k' k0) eqn:E'.
    + apply String.eqb_eq in E' as ->.
      rewrite String.eqb_sym in E. by rewrite E.
    + exact IH.
Qed.

Lemma get_Some_elem {V : Type} k (v : V) d : Py.get k d = Some v -> (k, v) ∈ d.
Proof.
  induction d as [|[k0 v0] d IH]; cbn; [done|].
  destruct (String.eqb k k0) eqn:E.
  - apply String.eqb_eq in E as ->. intros [= ->]. left.
  - intros H. right. by apply IH.
Qed.

Lemma get_None_keys {V : Type} k (d : list (string * V)) :
  Py.get k d = None <-> k ∉ map fst d.
Proof.
  induction d as [|[k0 v0] d IH]; cbn.
  - split; [intros _ H; by apply elem_of_nil in H|done].
  - destruct (String.eqb k k0) eqn:E.
    + apply String.eqb_eq in E as ->. split; [done|].
      intros H. exfalso. apply H. left.
    + apply String.eqb_neq in E. rewrite IH, not_elem_of_cons. tauto.
Qed.

Lemma contains_keys {V : Type} k (d : list (string * V)) :
  Py.contains k d = true <-> k ∈ map fst d.
Proof.
  unfold Py.contains. pose proof (get_None_keys k d) as H.
  destruct (Py.get k d).
  - split; [intros _|done].
    destruct (decide (k ∈ map fst d)) as [|Hn]; [done|].
    apply H in Hn. discriminate.
  - split; [done|]. intros Hin. exfalso. by apply (proj1 H).
Qed.

Lemma keys_set {V : Type} k (v : V) d :
  map fst (Py.set k v d)
  = if Py.contains k d then map fst d else map fst d ++ [k].
Proof.
  unfold Py.contains.
  induction d as [|[k0 v0] d IH]; cbn; [done|].
  destruct (String.eqb k k0) eqn:E; cbn.
  - apply String.eqb_eq in E as ->. done.
  - rewrite IH. by destruct (Py.get k d).
Qed.

End PyFacts.

(** ** Facts about doubles *)

Module FloatFacts.

Lemma digits2_pos_bounds m :
  2 ^ (Zpos (digits2_pos m) - 1) <= Zpos m < 2 ^ Zpos (digits2_pos m).
Proof.
  induction m as [m IH|m IH|]; cbn [digits2_pos].
  - rewrite Pos2Z.inj_succ, Z.pow_succ_r by lia.
    replace (Z.succ (Zpos (digits2_pos m)) - 1)
      with (Z.succ (Zpos (digits2_pos m) - 1)) by lia.
    rewrite Z.pow_succ_r by lia. lia.
  - rewrite Pos2Z.inj_succ, Z.pow_succ_r by lia.
    replace (Z.succ (Zpos (digits2_pos m)) - 1)
      with (Z.succ (Zpos (digits2_pos m) - 1)) by lia.
    rewrite Z.pow_succ_r by lia. lia.
  - cbn. lia.
Qed.

Lemma iter_xO m d : Zpos (Pos.iter xO m d) = Zpos m * 2 ^ Zpos d.
Proof.
  induction d as [|d IH] using Pos.peano_ind.
  - cbn. lia.
  - rewrite Pos.iter_succ, Pos2Z.inj_succ, Z.pow_succ_r by lia.
    rewrite Pos2Z.inj_xO, IH. lia.
Qed.

Lemma shl_align_fst m e e' :
  e' <= e -> Zpos (fst (shl_align m e e')) = Zpos m * 2 ^ (e - e').
Proof.
  intros H. unfold shl_align.
  destruct (e' - e) as [|p|p] eqn:E.
  - replace (e - e') with 0 by lia. cbn [fst]. lia.
  - lia.
  - cbn [fst]. rewrite iter_xO. f_equal. f_equal. lia.
Qed.

Lemma shr_1_m mrs : 0 <= shr_m mrs -> shr_m (shr_1 mrs) = shr_m mrs / 2.
Proof.
  destruct mrs as [m r s]. cbn [shr_m]. intros H.
  destruct m as [|[q|q|]|q]; cbn [shr_1 shr_m]; try lia; try reflexivity.
  - apply Z.div_unique with 1; lia.
  - apply Z.div_unique with 0; lia.
Qed.

Lemma iter_shr_1_m p : forall mrs,
  0 <= shr_m mrs ->
  shr_m (SpecFloat.iter_pos shr_1 p mrs) = shr_m mrs / 2 ^ Zpos p.
Proof.
  induction p as [p IH|p IH|]; intros mrs H; cbn [SpecFloat.iter_pos].
  - assert (0 <= shr_m (shr_1 mrs)) as H1
      by (rewrite shr_1_m by exact H; apply Z.div_pos; lia).
    assert (0 <= shr_m (SpecFloat.iter_pos shr_1 p (shr_1 mrs))) as H2
      by (rewrite IH by exact H1; apply Z.div_pos; lia).
    rewrite IH, IH, shr_1_m by assumption.
    rewrite !Z.div_div by lia. f_equal.
    rewrite (Pos2Z.inj_xI p).
    replace (2 * Zpos p + 1) with (1 + Zpos p + Zpos p) by lia.
    rewrite (Z.pow_add_r 2 (1 + Zpos p) (Zpos p)) by lia.
    rewrite (Z.pow_add_r 2 1 (Zpos p)) by lia. change (2 ^ 1) with 2. ring.
  - assert (0 <= shr_m (SpecFloat.iter_pos shr_1 p mrs)) as H2
      by (rewrite IH by exact H; apply Z.div_pos; lia).
    rewrite IH, IH by assumption.
    rewrite Z.div_div by lia. f_equal.
    rewrite (Pos2Z.inj_xO p).
    replace (2 * Zpos p) with (Zpos p + Zpos p) by lia.
    rewrite Z.pow_add_r by lia. reflexivity.
  - rewrite shr_1_m by exact H. reflexivity.
Qed.

(** Canonical mantissas have at most [prec] digits, exactly [prec] above
    the smallest exponent. *)
Lemma bounded_digits m e :
  bounded prec emax m e = true ->
  emin <= e /\ Zpos (digits2_pos m) <= prec
  /\ (emin < e -> Zpos (digits2_pos m) = prec).
Proof.
  unfold bounded, canonical_mantissa, SpecFloat.fexp.
  intros H. apply andb_prop in H as [H _]. apply Z.eqb_eq in H.
  unfold SpecFloat.emin in *. lia.
Qed.

Lemma canonical_lt m1 e1 m2 e2 :
  bounded prec emax m1 e1 = true -> bounded prec emax m2 e2 = true ->
  e1 < e2 -> Zpos m1 < Zpos m2 * 2 ^ (e2 - e1).
Proof.
  intros H1 H2 He.
  destruct (bounded_digits _ _ H1) as (E1 & D1 & _).
  destruct (bounded_digits _ _ H2) as (_ & _ & D2).
  specialize (D2 ltac:(lia)).
  pose proof (digits2_pos_bounds m1) as [_ B1].
  pose proof (digits2_pos_bounds m2) as [B2 _].
  rewrite D2 in B2.
  assert (2 ^ Zpos (digits2_pos m1) <= 2 ^ prec)
    by (apply Z.pow_le_mono_r; lia).
  assert (2 ^ 1 <= 2 ^ (e2 - e1)) by (apply Z.pow_le_mono_r; lia).
  change (2 ^ 1) with 2 in *.
  assert (2 ^ prec = 2 * 2 ^ (prec - 1)) by reflexivity.
  nia.
Qed.

(** A positive mantissa on an exponent not below [emin] stays positive
    through the shift that brings it to its format. *)
Lemma shr_fexp_pos m e l :
  1 <= m -> emin <= e ->
  1 <= shr_m (fst (shr_fexp prec emax m e l))
  /\ emin <= snd (shr_fexp prec emax m e l).
Proof.
  intros Hm He. unfold shr_fexp, shr.
  destruct m as [|m|m]; try lia. cbn [Zdigits2].
  assert (shr_m (shr_record_of_loc (Zpos m) l) = Zpos m) as Em
    by (destruct l as [|[]]; reflexivity).
  destruct (fexp prec emax (Zpos (digits2_pos m) + e) - e) as [|p|p] eqn:E;
    cbn [fst snd]; try (rewrite Em; lia).
  rewrite iter_shr_1_m by (rewrite Em; lia). rewrite Em.
  unfold SpecFloat.fexp in *.
  assert (Zpos p = Zpos (digits2_pos m) - prec) as -> by lia.
  split; [|lia].
  pose proof (digits2_pos_bounds m) as [B _].
  apply Z.div_le_lower_bound; [apply Z.pow_pos_nonneg; lia|].
  rewrite Z.mul_1_r.
  etransitivity; [|exact B]. apply Z.pow_le_mono_r; unfold prec; lia.
Qed.

Lemma round_nearest_even_ge m l : m <= round_nearest_even m l.
Proof. destruct l as [|[]]; cbn; try lia. destruct (Z.even m); lia. Qed.

(** Rounding a positive mantissa never gives a zero or a NaN. *)
Lemma binary_round_aux_sign s m e l :
  1 <= m -> emin <= e ->
  match binary_round_aux prec emax s m e l with
  | S754_finite s' _ _ | S754_infinity s' => s' = s
  | _ => False
  end.
Proof.
  intros Hm He. unfold binary_round_aux.
  pose proof (shr_fexp_pos m e l Hm He) as [P1 P2].
  destruct (shr_fexp prec emax m e l) as [mrs' e']. cbn [fst snd] in *.
  pose proof (round_nearest_even_ge (shr_m mrs') (loc_of_shr_record mrs')) as R.
  pose proof (shr_fexp_pos (round_nearest_even (shr_m mrs') (loc_of_shr_record mrs'))
                e' loc_Exact ltac:(lia) P2) as [Q1 Q2].
  destruct (shr_fexp prec emax _ e' loc_Exact) as [mrs'' e''].
  cbn [fst snd] in *.
  destruct (shr_m mrs'') as [|q|q]; try lia.
  destruct (e'' <=? emax - prec); reflexivity.
Qed.

Lemma binary_round_sign s m e :
  emin <= e ->
  match binary_round prec emax s m e with
  | S754_finite s' _ _ | S754_infinity s' => s' = s
  | _ => False
  end.
Proof.
  intros He. unfold binary_round.
  destruct (shl_align m e (fexp prec emax (Zpos (digits2_pos m) + e)))
    as [mz ez] eqn:E.
  apply binary_round_aux_sign; [lia|].
  unfold shl_align in E.
  destruct (fexp prec emax (Zpos (digits2_pos m) + e) - e) eqn:E';
    injection E as <- <-; unfold SpecFloat.fexp in *; lia.
Qed.

(** [x - y <= 0] exactly when [x <= y], shown here in the direction the
    invincibility window needs: the difference of a number and a smaller
    one is not rounded down to zero. *)
Lemma SFsub_pos a b :
  valid_binary a = true -> valid_binary b = true ->
  SFltb b a = true ->
  SFleb (SF64sub a b) (S754_zero false) = false.
Proof.
  intros Va Vb Hlt. unfold SFltb in Hlt.
  destruct a as [sa|sa| |sa ma ea], b as [sb|sb| |sb mb eb];
    cbn [SFcompare] in Hlt; try discriminate;
    try (destruct sa; try discriminate; reflexivity);
    try (destruct sb; try discriminate; reflexivity);
    try (destruct sa, sb; try discriminate; reflexivity).
  cbn [SpecFloat.valid_binary] in Va, Vb.
  destruct (bounded_digits _ _ Va) as (Ea & _).
  destruct (bounded_digits _ _ Vb) as (Eb & _).
  unfold SF64sub. cbn [SFsub]. set (ez := Z.min ea eb).
  assert (ez <= ea /\ ez <= eb /\ emin <= ez) as (Za & Zb & Ze) by (unfold ez; lia).
  pose proof (shl_align_fst ma ea ez Za) as A.
  pose proof (shl_align_fst mb eb ez Zb) as B.
  set (xa := Zpos (fst (shl_align ma ea ez))) in *.
  set (xb := Zpos (fst (shl_align mb eb ez))) in *.
  assert (0 < xa /\ 0 < xb) as [Pa Pb] by (unfold xa, xb; lia).
  assert (0 < cond_Zopp sa xa - cond_Zopp sb xb) as D.
  { destruct sa, sb; cbn [cond_Zopp]; try discriminate; try lia.
    - (* both negative: b < a means |a| < |b| *)
      destruct (Z.compare_spec eb ea) as [E|E|E]; try discriminate.
      + subst eb. replace (ea - ez) with 0 in * by (unfold ez; lia).
        rewrite Pos.compare_cont_spec in Hlt. cbn in Hlt.
        destruct (Pos.compare_spec mb ma); try discriminate. lia.
      + pose proof (canonical_lt _ _ _ _ Va Vb E).
        replace (ea - ez) with 0 in * by (unfold ez; lia).
        replace (eb - ez) with (eb - ea) in * by (unfold ez; lia). lia.
    - destruct (Z.compare_spec eb ea) as [E|E|E]; try discriminate.
      + subst eb. replace (ea - ez) with 0 in * by (unfold ez; lia).
        rewrite Pos.compare_cont_spec in Hlt. cbn in Hlt.
        destruct (Pos.compare_spec mb ma); try discriminate. lia.
      + pose proof (canonical_lt _ _ _ _ Vb Va E).
        replace (eb - ez) with 0 in * by (unfold ez; lia).
        replace (ea - ez) with (ea - eb) in * by (unfold ez; lia). lia. }
  destruct (cond_Zopp sa xa - cond_Zopp sb xb) as [|d|d]; try lia.
  cbn [binary_normalize].
  pose proof (binary_round_sign false d ez Ze) as R.
  destruct (binary_round prec emax false d ez) as [s|s| |s m e];
    try contradiction; subst s; reflexivity.
Qed.

(** [x - y] is positive when [y < x]: exact in double precision. *)
Lemma sub_pos (x y : float) :
  (y <? x)%float = true -> (x - y <=? 0)%float = false.
Proof.
  rewrite ltb_spec, leb_spec, sub_spec. intros H.
  change (Prim2SF 0) with (S754_zero false).
  apply SFsub_pos; [apply Prim2SF_valid|apply Prim2SF_valid|exact H].
Qed.

(** [int()] of a double that is not negative is the floor of its value. *)
Lemma int_floor (x : float) :
  (0 <= Float.to_Q x)%Q -> Float.int x = Qfloor (Float.to_Q x).
Proof. apply PyFacts.int_floor_nonneg. Qed.

End FloatFacts.

(** ** Player progression (entities/player.py) *)

Module Progression.

Import Forms Scenario.

Lemma level_up_level p :
  Player.level (fst (Player.level_up p)) = Player.level p + 1.
Proof. reflexivity. Qed.

Lemma level_up_threshold p :
  Player.xp_to_next_level (fst (Player.level_up p))
  = (Settings.base_xp_to_level
     + (Player.level p + 1 - 1) * Settings.xp_per_level_increase) / 2.
Proof. reflexivity. Qed.

Lemma level_up_xp p :
  Player.xp (fst (Player.level_up p))
  = Player.xp p - Player.xp_to_next_level p.
Proof. reflexivity. Qed.

(** The two outcomes of [gain_xp]. *)
Lemma gain_xp_cases a p :
  (Player.xp p + a < Player.xp_to_next_level p
   /\ snd (Player.gain_xp a p) = false
   /\ Player.level (fst (Player.gain_xp a p)) = Player.level p
   /\ Player.xp (fst (Player.gain_xp a p)) = Player.xp p + a
   /\ Player.xp_to_next_level (fst (Player.gain_xp a p))
      = Player.xp_to_next_level p)
  \/
  (Player.xp_to_next_level p <= Player.xp p + a
   /\ snd (Player.gain_xp a p) = true
   /\ Player.level (fst (Player.gain_xp a p)) = Player.level p + 1
   /\ Player.xp (fst (Player.gain_xp a p))
      = Player.xp p + a - Player.xp_to_next_level p
   /\ Player.xp_to_next_level (fst (Player.gain_xp a p))
      = (Settings.base_xp_to_level
         + Player.level p * Settings.xp_per_level_increase) / 2).
Proof.
  unfold Player.gain_xp. cbn [Player.xp Player.xp_to_next_level Player.set_progress].
  destruct (Z.leb_spec (Player.xp_to_next_level p) (Player.xp p + a)).
  - right. split; [done|]. split; [done|].
    rewrite level_up_level, level_up_xp, level_up_threshold. cbn.
    repeat split; try lia. f_equal. lia.
  - left. cbn. repeat split; lia.
Qed.

Lemma init_on_curve box cheat : on_curve (Player.init box cheat).
Proof. split; [cbn; lia|reflexivity]. Qed.

Lemma gain_xp_on_curve a p : on_curve p -> on_curve (fst (Player.gain_xp a p)).
Proof.
  intros [Hl Ht].
  destruct (gain_xp_cases a p) as [(_ & _ & El & _ & Et)|(_ & _ & El & _ & Et)].
  - split; rewrite ?El, ?Et; [lia|exact Ht].
  - split; rewrite ?El, ?Et; [lia|]. f_equal. lia.
Qed.

Lemma gain_all_on_curve amounts p :
  on_curve p -> on_curve (Player.gain_all amounts p).
Proof.
  revert p. induction amounts as [|a amounts IH]; intros p Hp; [exact Hp|].
  apply IH, gain_xp_on_curve, Hp.
Qed.

(** Every level is reached: paying exactly the threshold each time. *)
Lemma exact_payments_reach n : forall p,
  on_curve p -> Player.xp p = 0 ->
  exists amounts,
    length amounts = n
    /\ Player.level (Player.gain_all amounts p) = Player.level p + Z.of_nat n
    /\ Player.xp (Player.gain_all amounts p) = 0.
Proof.
  induction n as [|n IH]; intros p Hp Hx.
  - exists []. cbn. repeat split; [lia|exact Hx].
  - pose proof (gain_xp_on_curve (Player.xp_to_next_level p) p Hp) as Hp'.
    destruct (gain_xp_cases (Player.xp_to_next_level p) p)
      as [(Hlt & _)|(_ & _ & El & Ex & _)]; [lia|].
    destruct (IH _ Hp') as (amounts & Hlen & Hlv & Hxp); [lia|].
    exists (Player.xp_to_next_level p :: amounts). cbn [Player.gain_all fold_left length].
    fold (Player.gain_all amounts (fst (Player.gain_xp (Player.xp_to_next_level p) p))).
    repeat split; [lia| |exact Hxp].
    rewrite Hlv, El. lia.
Qed.

(** C5: the threshold to reach level 2 is floor(100/2) = 50, and for every
    level L >= 2 the threshold in effect once the player has reached level L
    (after any sequence of XP gains from a fresh player) is
    floor((100 + (L-1)*50) / 2). *)
Theorem xp_threshold_closed_form (box : Rect.t) (cheat : bool)
    (amounts : list Z) (L : Z) :
  2 <= L ->
  Player.level (Player.gain_all amounts (Player.init box cheat)) = L ->
  Player.xp_to_next_level (Player.init box cheat) = 100 / 2
  /\ 100 / 2 = 50
  /\ Player.xp_to_next_level (Player.gain_all amounts (Player.init box cheat))
     = (100 + (L - 1) * 50) / 2.
Proof.
  intros HL Hlv. split; [reflexivity|]. split; [reflexivity|].
  destruct (gain_all_on_curve amounts _ (init_on_curve box cheat)) as [_ Ht].
  rewrite Ht, Hlv. reflexivity.
Qed.

(** A fresh player paid 50 and then 75 XP stands at level 3, where the
    threshold is floor((100 + 2*50)/2) = 100. *)
Lemma xp_threshold_closed_form_witness :
  Player.xp_to_next_level (Player.init (Rect.mk 0 0 40 40) false) = 100 / 2
  /\ 100 / 2 = 50
  /\ Player.xp_to_next_level
       (Player.gain_all [50; 75] (Player.init (Rect.mk 0 0 40 40) false))
     = (100 + (3 - 1) * 50) / 2.
Proof.
  apply (xp_threshold_closed_form (Rect.mk 0 0 40 40) false [50; 75] 3).
  - lia.
  - reflexivity.
Defined.

(** No call ever raises the level by more than one. *)
Lemma gain_xp_at_most_one a p :
  Player.level (fst (Player.gain_xp a p)) <= Player.level p + 1.
Proof.
  destruct (gain_xp_cases a p) as [(_ & _ & El & _)|(_ & _ & El & _)]; lia.
Qed.

(** C10: for every XP amount, one [gain_xp] call raises the level by at most
    one.  Below the threshold nothing but the XP changes.  When the
    threshold is met the level goes up by exactly one and the XP left is
    the old XP plus the gain minus the old threshold, whether or not that
    still meets the new threshold; if it does, the excess is kept as it is
    and the very next call, even of 0 XP, levels up again from it. *)
Theorem gain_xp_single_level_up (p : Player.t) (a : Z) :
  let p' := fst (Player.gain_xp a p) in
  Player.level p' <= Player.level p + 1
  /\ (Player.xp p + a < Player.xp_to_next_level p ->
      snd (Player.gain_xp a p) = false
      /\ Player.level p' = Player.level p
      /\ Player.xp p' = Player.xp p + a)
  /\ (Player.xp_to_next_level p <= Player.xp p + a ->
      snd (Player.gain_xp a p) = true
      /\ Player.level p' = Player.level p + 1
      /\ Player.xp p' = Player.xp p + a - Player.xp_to_next_level p
      /\ (Player.xp_to_next_level p' <= Player.xp p' ->
          Player.level (fst (Player.gain_xp 0 p')) = Player.level p + 2
          /\ Player.xp (fst (Player.gain_xp 0 p'))
             = Player.xp p' - Player.xp_to_next_level p')).
Proof.
  intros p'. subst p'. split; [apply gain_xp_at_most_one|]. split.
  - intros Hlt.
    destruct (gain_xp_cases a p) as [(_ & Hs & El & Ex & _)|(Hge & _)]; [|lia].
    done.
  - intros Hmet.
    destruct (gain_xp_cases a p) as [(Hlt & _)|(_ & Hs & El & Ex & Et)]; [lia|].
    split; [exact Hs|]. split; [exact El|]. split; [exact Ex|].
    intros Hstill.
    destruct (gain_xp_cases 0 (fst (Player.gain_xp a p)))
      as [(Hlt & _)|(_ & _ & El' & Ex' & _)]; [lia|].
    rewrite El', Ex', El. split; lia.
Qed.

(** 1000 XP at once on a fresh player: level 2 only, 950 XP kept although
    the new threshold is 75; a later call of 0 XP then reaches level 3. *)
Lemma gain_xp_single_level_up_witness :
  let p := Player.init (Rect.mk 0 0 40 40) false in
  let p' := fst (Player.gain_xp 1000 p) in
  snd (Player.gain_xp 1000 p) = true
  /\ Player.level p' = 1 + 1
  /\ Player.xp p' = 0 + 1000 - 50
  /\ Player.level (fst (Player.gain_xp 0 p')) = 1 + 2
  /\ Player.xp (fst (Player.gain_xp 0 p')) = 950 - 75.
Proof.
  intros p p'.
  destruct (gain_xp_single_level_up p 1000) as (_ & _ & Hmet).
  destruct Hmet as (Hs & Hl & Hx & Hnext); [vm_compute; discriminate|].
  destruct Hnext as [Hl2 Hx2]; [vm_compute; discriminate|].
  split; [exact Hs|]. split; [exact Hl|]. split; [exact Hx|].
  split; [exact Hl2|exact Hx2].
Defined.

Example big_gain_levels_once :
  let p' := fst (Player.gain_xp 1000 (Player.init (Rect.mk 0 0 40 40) false)) in
  Player.level p' = 2 /\ Player.xp p' = 950 /\ Player.xp_to_next_level p' = 75.
Proof. repeat split. Qed.

End Progression.

(** ** Weapon stats (weapons/weapon_base.py) *)

Module WeaponStats.

Import Forms Scenario.

Lemma recalculate_settled p w : settled p (Weapon._recalculate_stats p w).
Proof. repeat split; reflexivity. Qed.

Lemma recalculate_frame p w :
  Weapon.level (Weapon._recalculate_stats p w) = Weapon.level w
  /\ Weapon.data (Weapon._recalculate_stats p w) = Weapon.data w
  /\ Weapon.max_level (Weapon._recalculate_stats p w) = Weapon.max_level w
  /\ Weapon.evolved (Weapon._recalculate_stats p w) = Weapon.evolved w
  /\ Weapon.evolution_id (Weapon._recalculate_stats p w)
     = Weapon.evolution_id w.
Proof. repeat split. Qed.

Lemma level_up_cases p w :
  (Weapon.level w < Weapon.max_level w
   /\ Weapon.level_up p w
      = (Weapon._recalculate_stats p
           (Weapon.mk (Weapon.weapon_id w) (Weapon.data w) (Weapon.level w + 1)
              (Weapon.max_level w) (Weapon.damage w) (Weapon.cooldown w)
              (Weapon.area w) (Weapon.speed w) (Weapon.amount w)
              (Weapon.pierce w) (Weapon.size_multiplier w)
              (Weapon.cooldown_timer w) (Weapon.evolved w)
              (Weapon.evolution_id w) (Weapon.evolution_passive w)
              (Weapon.homing w) (Weapon.aura w)), true))
  \/ (Weapon.max_level w <= Weapon.level w /\ Weapon.level_up p w = (w, false)).
Proof.
  unfold Weapon.level_up.
  destruct (Z.ltb_spec (Weapon.level w) (Weapon.max_level w)); [left|right]; done.
Qed.

Lemma level_up_settled p w :
  settled p w -> settled p (fst (Weapon.level_up p w)).
Proof.
  intros Hw. destruct (level_up_cases p w) as [[_ ->]|[_ ->]].
  - apply recalculate_settled.
  - exact Hw.
Qed.

Lemma level_up_times_spec n : forall p w,
  settled p w ->
  Weapon.level w + Z.of_nat n <= Weapon.max_level w ->
  let w' := Weapon.level_up_times n p w in
  settled p w'
  /\ Weapon.level w' = Weapon.level w + Z.of_nat n
  /\ Weapon.data w' = Weapon.data w
  /\ Weapon.max_level w' = Weapon.max_level w.
Proof.
  induction n as [|n IH]; intros p w Hs Hle; cbn [Weapon.level_up_times].
  - repeat split; [apply Hs..|lia].
  - destruct (level_up_cases p w) as [[Hlt E]|[Hge _]]; [|lia].
    specialize (IH p (fst (Weapon.level_up p w)) (level_up_settled p w Hs)).
    rewrite E in IH |- *. cbn [fst] in IH |- *.
    destruct IH as (H1 & H2 & H3 & H4); [cbn; lia|].
    split; [exact H1|]. rewrite H2, H3, H4. cbn. repeat split. lia.
Qed.

Lemma make_spec wid d p :
  settled p (Weapon.make wid d p)
  /\ Weapon.level (Weapon.make wid d p) = 1
  /\ Weapon.data (Weapon.make wid d p) = d
  /\ Weapon.max_level (Weapon.make wid d p) = Settings.w_max_level d.
Proof. split; [apply recalculate_settled|repeat split]. Qed.

Lemma init_spec wid p :
  settled p (Weapon.init wid p)
  /\ Weapon.level (Weapon.init wid p) = 1
  /\ Weapon.data (Weapon.init wid p) = Weapon.data_of wid
  /\ Weapon.max_level (Weapon.init wid p)
     = Settings.w_max_level (Weapon.data_of wid).
Proof.
  unfold Weapon.init. destruct (String.eqb wid "garlic").
  - repeat split; reflexivity.
  - apply make_spec.
Qed.

(** C4: a weapon built from any data table entry and levelled up to a level
    L in [1, maxLevel] has damage (baseDamage + damagePerLevel*(L-1)) * might,
    cooldown max(0.1, baseCooldown + cooldownDelta*(L-1)) * (1 - reduction),
    area baseArea + areaPerLevel*(L-1), and amount
    baseAmount + floor((L-1)/2)*amountPerLevel when amountPerLevel > 0, else
    baseAmount; a later recomputation under changed player modifiers gives
    the same forms with the new might and cooldown reduction. *)
Theorem weapon_stats_closed_form (wid : string) (d : Settings.weapon_data)
    (p p' : Player.t) (L : Z) :
  1 <= L <= Settings.w_max_level d ->
  let w := Weapon.level_up_times (Z.to_nat (L - 1)) p (Weapon.make wid d p) in
  Weapon.level w = L
  /\ (Weapon.damage w
      == (Settings.base_damage d
          + Settings.s_damage (Settings.w_scaling d) * inject_Z (L - 1))
         * Player.might p)%Q
  /\ (Weapon.cooldown w
      == Py.max (1 # 10)
           (Settings.base_cooldown d
            + Settings.s_cooldown (Settings.w_scaling d) * inject_Z (L - 1))
         * (1 - Player.cooldown_reduction p))%Q
  /\ (Weapon.area w
      == Settings.base_area d
         + Settings.s_area (Settings.w_scaling d) * inject_Z (L - 1))%Q
  /\ Weapon.amount w
     = (if 0 <? Settings.s_amount (Settings.w_scaling d)
        then Settings.base_amount d
             + ((L - 1) / 2) * Settings.s_amount (Settings.w_scaling d)
        else Settings.base_amount d)
  /\ (Weapon.damage (Weapon._recalculate_stats p' w)
      == (Settings.base_damage d
          + Settings.s_damage (Settings.w_scaling d) * inject_Z (L - 1))
         * Player.might p')%Q
  /\ (Weapon.cooldown (Weapon._recalculate_stats p' w)
      == Py.max (1 # 10)
           (Settings.base_cooldown d
            + Settings.s_cooldown (Settings.w_scaling d) * inject_Z (L - 1))
         * (1 - Player.cooldown_reduction p'))%Q.
Proof.
  intros HL w.
  destruct (make_spec wid d p) as (Hs & Hl & Hd & Hm).
  destruct (level_up_times_spec (Z.to_nat (L - 1)) p (Weapon.make wid d p) Hs)
    as ((S1 & S2 & S3 & S4) & El & Ed & Em); [rewrite Hl, Hm; lia|].
  fold w in S1, S2, S3, S4, El, Ed, Em.
  assert (EL : Weapon.level w = L) by (rewrite El, Hl; lia).
  rewrite Ed, Hd, EL in S1, S2, S3, S4.
  split; [exact EL|]. split; [exact S1|]. split; [exact S2|].
  split; [exact S3|]. split; [exact S4|].
  destruct (recalculate_settled p' w) as (R1 & R2 & _).
  destruct (recalculate_frame p' w) as (F1 & F2 & _).
  rewrite F1, F2, Ed, Hd, EL in R1, R2.
  split; [exact R1|exact R2].
Qed.

(** The wand of the shipped table at level 5 under 1.2 might and 16 %
    cooldown reduction. *)
Lemma weapon_stats_closed_form_witness :
  let p := Player.apply_passive (Settings.mk_passive Settings.st_might (2 # 10) 5)
             (Player.init (Rect.mk 0 0 40 40) false) in
  let p' := Player.apply_passive
              (Settings.mk_passive Settings.st_cooldown_reduction (16 # 100) 5) p in
  let w := Weapon.level_up_times 4 p (Weapon.make "wand" Settings.wand_data p) in
  Weapon.level w = 5
  /\ (Weapon.damage w == (10 + 3 * inject_Z (5 - 1)) * (12 # 10))%Q
  /\ (Weapon.cooldown w
      == Py.max (1 # 10) (1 + (-8 # 100) * inject_Z (5 - 1)) * (1 - 0))%Q
  /\ (Weapon.area w == 1 + 0 * inject_Z (5 - 1))%Q
  /\ Weapon.amount w = 1 + ((5 - 1) / 2) * 1
  /\ (Weapon.damage (Weapon._recalculate_stats p' w)
      == (10 + 3 * inject_Z (5 - 1)) * (12 # 10))%Q
  /\ (Weapon.cooldown (Weapon._recalculate_stats p' w)
      == Py.max (1 # 10) (1 + (-8 # 100) * inject_Z (5 - 1)) * (1 - (16 # 100)))%Q.
Proof.
  intros p p'.
  assert (HL : 1 <= 5 <= Settings.w_max_level Settings.wand_data)
    by (cbn; lia).
  exact (weapon_stats_closed_form "wand" Settings.wand_data p p' 5 HL).
Defined.

Example wand_level_5 :
  let p := Player.init (Rect.mk 0 0 40 40) false in
  let w := Weapon.level_up_times 4 p (Weapon.init "wand" p) in
  (Weapon.damage w == 22)%Q /\ (Weapon.cooldown w == 68 # 100)%Q
  /\ Weapon.amount w = 3.
Proof. vm_compute. repeat split. Qed.

(** The weapon classes of the shipped table obey the same forms. *)
Lemma shipped_weapon_settled wid p n :
  1 + Z.of_nat n <= Settings.w_max_level (Weapon.data_of wid) ->
  let w := Weapon.level_up_times n p (Weapon.init wid p) in
  settled p w /\ Weapon.level w = 1 + Z.of_nat n
  /\ Weapon.data w = Weapon.data_of wid.
Proof.
  intros Hn w.
  destruct (init_spec wid p) as (Hs & Hl & Hd & Hm).
  destruct (level_up_times_spec n p (Weapon.init wid p) Hs)
    as (S & El & Ed & _); [rewrite Hl, Hm; lia|].
  fold w in S, El, Ed. rewrite Hl in El. rewrite Hd in Ed. done.
Qed.

End WeaponStats.

(** ** Evolution and stat recomputation *)

Module Evolution.

Import Forms Scenario.

Lemma evolve_true w :
  snd (Weapon.evolve w) = true ->
  let w1 := fst (Weapon.evolve w) in
  (Weapon.damage w1 == Weapon.damage w * evolution_mult w)%Q
  /\ Weapon.evolved w1 = true
  /\ Weapon.level w1 = Weapon.level w
  /\ Weapon.data w1 = Weapon.data w
  /\ Weapon.max_level w1 = Weapon.max_level w.
Proof.
  unfold Weapon.evolve, evolution_mult.
  destruct (Weapon.evolution_id w) as [eid|]; [|discriminate].
  destruct (negb (Weapon.truthy (Some eid))); [discriminate|].
  destruct (Py.get eid Settings.EVOLUTION_DATA) as [ed|]; [|discriminate].
  intros _. cbn. repeat split; reflexivity.
Qed.

Lemma recalculations_last ps q w :
  recalculations (ps ++ [q]) w
  = Weapon._recalculate_stats q (recalculations ps w).
Proof. unfold recalculations. by rewrite fold_left_app. Qed.

Lemma recalculations_frame ps : forall w,
  Weapon.level (recalculations ps w) = Weapon.level w
  /\ Weapon.data (recalculations ps w) = Weapon.data w
  /\ Weapon.evolved (recalculations ps w) = Weapon.evolved w.
Proof.
  induction ps as [|q ps IH]; intros w; [done|].
  cbn [recalculations fold_left]. fold (recalculations ps (Weapon._recalculate_stats q w)).
  destruct (IH (Weapon._recalculate_stats q w)) as (-> & -> & ->). done.
Qed.

Lemma can_evolve_evolved passives w :
  Weapon.evolved w = true -> Weapon.can_evolve passives w = false.
Proof. intros E. unfold Weapon.can_evolve. by rewrite E. Qed.

(** [add_passive], when it succeeds, recomputes every weapon under the
    updated player. *)
Lemma add_passive_recalculates pid p c p' c' wid w :
  WeaponController.add_passive pid p c = (p', c', true) ->
  Py.get wid (WeaponController.weapons c) = Some w ->
  Py.get wid (WeaponController.weapons c')
  = Some (Weapon._recalculate_stats p' w).
Proof.
  unfold WeaponController.add_passive. intros H Hw.
  destruct (Py.get pid Settings.PASSIVE_DATA) as [pd|]; [|congruence].
  destruct (Py.get pid (WeaponController.passives c)) as [lv|].
  - destruct (lv <? Settings.p_max_level pd); [|congruence].
    injection H as <- <-. cbn.
    by rewrite (PyFacts.get_map (Weapon._recalculate_stats _)), Hw.
  - destruct (_ <=? _)%nat; [congruence|].
    injection H as <- <-. cbn.
    by rewrite (PyFacts.get_map (Weapon._recalculate_stats _)), Hw.
Qed.

(** C9: once a weapon has evolved (damage multiplied by the evolution's
    multiplier), any stat recomputation, such as the one [add_passive]
    forces on every weapon, puts its damage back to the un-evolved closed
    form (baseDamage + damagePerLevel*(level-1)) * might, exactly what the
    weapon would have had without evolving; the weapon stays marked
    evolved, so the evolution is never offered again, and every later
    recomputation keeps the un-evolved form. *)
Theorem evolution_multiplier_lost (w : Weapon.t) (q : Player.t)
    (later : list Player.t) (passives : list (string * Z)) :
  snd (Weapon.evolve w) = true ->
  let w1 := fst (Weapon.evolve w) in
  let w2 := Weapon._recalculate_stats q w1 in
  (Weapon.damage w1 == Weapon.damage w * evolution_mult w)%Q
  /\ (Weapon.damage w2
      == (Settings.base_damage (Weapon.data w)
          + Settings.s_damage (Settings.w_scaling (Weapon.data w))
            * inject_Z (Weapon.level w - 1))
         * Player.might q)%Q
  /\ (Weapon.damage w2 == Weapon.damage (Weapon._recalculate_stats q w))%Q
  /\ Weapon.can_evolve passives w2 = false
  /\ (Weapon.damage (recalculations (later ++ [q]) w2) == Weapon.damage w2)%Q
  /\ Weapon.can_evolve passives (recalculations later w2) = false
  /\ (forall pid p c p' c' wid,
        WeaponController.add_passive pid p c = (p', c', true) ->
        Py.get wid (WeaponController.weapons c) = Some w1 ->
        exists w3,
          Py.get wid (WeaponController.weapons c') = Some w3
          /\ (Weapon.damage w3
              == (Settings.base_damage (Weapon.data w)
                  + Settings.s_damage (Settings.w_scaling (Weapon.data w))
                    * inject_Z (Weapon.level w - 1))
                 * Player.might p')%Q).
Proof.
  intros Hev w1 w2.
  destruct (evolve_true w Hev) as (Hd & He & Hl & Hdata & Hm).
  fold w1 in Hd, He, Hl, Hdata, Hm.
  assert (Hform : forall r,
    (Weapon.damage (Weapon._recalculate_stats r w1)
     == (Settings.base_damage (Weapon.data w)
         + Settings.s_damage (Settings.w_scaling (Weapon.data w))
           * inject_Z (Weapon.level w - 1))
        * Player.might r)%Q).
  { intros r. cbn [Weapon._recalculate_stats Weapon.damage].
    rewrite Hl, Hdata. reflexivity. }
  split; [exact Hd|]. split; [apply Hform|].
  split.
  { subst w2. cbn [Weapon._recalculate_stats Weapon.damage].
    rewrite Hl, Hdata. reflexivity. }
  split; [apply can_evolve_evolved; exact He|].
  split.
  { rewrite recalculations_last.
    destruct (recalculations_frame later w2) as (F1 & F2 & _).
    cbn [Weapon._recalculate_stats Weapon.damage]. rewrite F1, F2. reflexivity. }
  split.
  { apply can_evolve_evolved.
    destruct (recalculations_frame later w2) as (_ & _ & ->). exact He. }
  intros pid p c p' c' wid Hadd Hget.
  exists (Weapon._recalculate_stats p' w1).
  split; [exact (add_passive_recalculates _ _ _ _ _ _ _ Hadd Hget)|apply Hform].
Qed.

(** The whip at level 8: 55 damage, 110 once evolved, 55 again after a
    recomputation. *)
Lemma evolution_multiplier_lost_witness :
  let p := Player.init (Rect.mk 0 0 40 40) false in
  let w := Weapon.level_up_times 7 p (Weapon.init "whip" p) in
  let w1 := fst (Weapon.evolve w) in
  let w2 := Weapon._recalculate_stats p w1 in
  (Weapon.damage w == 55)%Q
  /\ (Weapon.damage w1 == 110)%Q
  /\ (Weapon.damage w2 == 55)%Q
  /\ Weapon.can_evolve [("might_boost"%string, 1)] w2 = false.
Proof.
  intros p w w1 w2.
  assert (Hev : snd (Weapon.evolve w) = true) by reflexivity.
  destruct (evolution_multiplier_lost w p [] [("might_boost"%string, 1)] Hev)
    as (H1 & H2 & _ & H4 & _).
  split; [reflexivity|].
  split; [apply (Qeq_trans _ _ _ H1); reflexivity|].
  split; [apply (Qeq_trans _ _ _ H2); reflexivity|exact H4].
Defined.

End Evolution.

(** ** Difficulty scaling of spawned enemies (systems/spawner.py) *)

Module Spawning.

(** [create_enemy] always takes its numbers from the entry [data_of]
    finds, the chaser's for an unknown tag. *)
Lemma create_enemy_stats enemy_type ident pos r m :
  let e := Enemy.create_enemy enemy_type ident pos r m in
  Enemy.max_hp e
  = Float.int (Enemy.scaled_hp (Enemy.data_of enemy_type) m)
  /\ Enemy.damage e
     = Float.int (Enemy.scaled_damage (Enemy.data_of enemy_type) m).
Proof.
  unfold Enemy.create_enemy, Enemy.data_of.
  destruct (Py.get enemy_type Settings.ENEMY_DATA) as [d|] eqn:E; cbn.
  - unfold Enemy.data_of. rewrite E. done.
  - done.
Qed.

Lemma swarm_copies_stats n : forall enemy_type ident pos rect_at m g e,
  e ∈ (EnemySpawner.swarm_copies n enemy_type ident pos rect_at m g).1 ->
  exists ident' pos' r',
    e = Enemy.create_enemy enemy_type ident' pos' r' m.
Proof.
  induction n as [|n IH]; intros enemy_type ident pos rect_at m g e;
    cbn [EnemySpawner.swarm_copies].
  - cbn. intros H. by apply elem_of_nil in H.
  - destruct (Random.uniform (-30) 30 g) as [ox g1].
    destruct (Random.uniform (-30) 30 g1) as [oy g2].
    destruct (EnemySpawner.swarm_copies n enemy_type (ident + 1) pos rect_at m g2)
      as [rest g3] eqn:E.
    cbn [fst]. intros [->|Hin]%elem_of_cons.
    + eauto.
    + apply (IH enemy_type (ident + 1) pos rect_at m g2). by rewrite E.
Qed.

Lemma spawn_enemy_members enemy_type ident pos rect_at g s e :
  e ∈ (EnemySpawner.spawn_enemy enemy_type ident pos rect_at g s).1.1 ->
  exists ident' pos' r',
    e = Enemy.create_enemy enemy_type ident' pos' r'
          (EnemySpawner._get_difficulty_multiplier s).
Proof.
  unfold EnemySpawner.spawn_enemy.
  destruct (EnemySpawner.swarm_copies _ _ _ _ _ _ _) as [copies g'] eqn:E.
  cbn [fst]. intros [->|Hin]%elem_of_cons.
  - eauto.
  - eapply swarm_copies_stats. rewrite E. exact Hin.
Qed.

(** C2, as the code has it: every enemy that [spawn_enemy] creates at game
    time t, the first of the batch and the copies of a swarm alike, has
    max HP int(baseHP * d) and damage int(baseDamage * (1 + (d - 1) * 0.5)),
    with d = 1 + hpScalePerMinute * (t / 60) and every operation carried
    out in double precision, as long as the two products are finite ([int]
    raises otherwise).  The conversion is Python's [int], which truncates:
    a product that is not negative is cut to the floor of its value as a
    double, which is neither [round] of it nor always the floor of the
    exact product.  Damage grows at half the rate of HP. *)
Theorem spawned_enemy_stats (s : EnemySpawner.t) (enemy_type : string)
    (ident : Z) (pos : Vector2) (rect_at : Vector2 -> Rect.t) (g : Random.t)
    (e : Enemy.t) :
  let t := Float.of_Q (EnemySpawner.game_time s) in
  let scale := Float.of_Q (EnemySpawner.difficulty_hp_scale s) in
  let d := (1 + scale * (t / 60))%float in
  let data := Enemy.data_of enemy_type in
  let hp := (Float.of_Z (Settings.e_hp data) * d)%float in
  let dmg :=
    (Float.of_Z (Settings.e_damage data) * (1 + (d - 1) * 0.5))%float in
  e ∈ (EnemySpawner.spawn_enemy enemy_type ident pos rect_at g s).1.1 ->
  is_finite hp = true -> is_finite dmg = true ->
  EnemySpawner._get_difficulty_multiplier s = d
  /\ Enemy.max_hp e = Float.int hp
  /\ Enemy.damage e = Float.int dmg
  /\ ((0 <= Float.to_Q hp)%Q -> Enemy.max_hp e = Qfloor (Float.to_Q hp))
  /\ ((0 <= Float.to_Q dmg)%Q -> Enemy.damage e = Qfloor (Float.to_Q dmg)).
Proof.
  intros t scale d data hp dmg Hin _ _.
  destruct (spawn_enemy_members _ _ _ _ _ _ _ Hin) as (i' & pos' & r' & ->).
  destruct (create_enemy_stats enemy_type i' pos' r'
              (EnemySpawner._get_difficulty_multiplier s)) as [Hhp Hdmg].
  change (EnemySpawner._get_difficulty_multiplier s) with d in Hhp, Hdmg |- *.
  change (Enemy.scaled_hp (Enemy.data_of enemy_type) d) with hp in Hhp.
  change (Enemy.scaled_damage (Enemy.data_of enemy_type) d) with dmg in Hdmg.
  split; [reflexivity|]. split; [exact Hhp|]. split; [exact Hdmg|].
  split; intros H.
  - rewrite Hhp. by apply FloatFacts.int_floor.
  - rewrite Hdmg. by apply FloatFacts.int_floor.
Qed.

(** A tank spawned at 168 s: d is the double 1.1399999999999999, the HP
    product the double 56.99999999999999 and the HP 56; the damage product
    is 21.4 and the damage 21. *)
Lemma spawned_enemy_stats_witness :
  let s := EnemySpawner.at_time 168 in
  let e := Enemy.create_enemy "tank" 1 (0, 0)%Q (Rect.mk 0 0 48 48)
             (EnemySpawner._get_difficulty_multiplier s) in
  let d := (1 + Float.of_Q (5 # 100) * (Float.of_Q 168 / 60))%float in
  (EnemySpawner._get_difficulty_multiplier s = d
   /\ Enemy.max_hp e = Float.int (50 * d)
   /\ Enemy.damage e = Float.int (20 * (1 + (d - 1) * 0.5))
   /\ ((0 <= Float.to_Q (50 * d))%Q ->
       Enemy.max_hp e = Qfloor (Float.to_Q (50 * d)))
   /\ ((0 <= Float.to_Q (20 * (1 + (d - 1) * 0.5)))%Q ->
       Enemy.damage e = Qfloor (Float.to_Q (20 * (1 + (d - 1) * 0.5)))))
  /\ Enemy.max_hp e = 56 /\ Enemy.damage e = 21.
Proof.
  intros s e d. split; [|split; reflexivity].
  assert (Hin : e ∈ (EnemySpawner.spawn_enemy "tank" 1 (0, 0)%Q
                       (fun _ => Rect.mk 0 0 48 48)
                       (Random.mk (fun _ => 0%nat) 0) s).1.1)
    by (apply list_elem_of_here).
  exact (spawned_enemy_stats s "tank" 1 (0, 0)%Q (fun _ => Rect.mk 0 0 48 48)
           (Random.mk (fun _ => 0%nat) 0) e Hin eq_refl eq_refl).
Defined.

(** The claim with [round] fails: a ghost (base HP 15) spawned at 60 s has
    d = 1.05 and 15 * 1.05 = 15.75, which rounds to 16, while the code
    gives 15; a tank (base damage 20) spawned at 72 s has
    20 * 1.03 = 20.6, which rounds to 21, while the code gives 20.  Nor is
    the result the floor of the exact product: a tank (base HP 50) spawned
    at 168 s has 50 * 1.14 = 57 exactly, but in doubles the product is
    56.99999999999999 and the code gives 56. *)
Lemma spawned_stats_not_rounded :
  let g := Random.mk (fun _ => 0%nat) 0 in
  let rect_at := fun _ : Vector2 => Rect.mk 0 0 40 40 in
  let spawned enemy_type time :=
    (EnemySpawner.spawn_enemy enemy_type 1 (0, 0)%Q rect_at g
       (EnemySpawner.at_time time)).1.1 in
  map Enemy.max_hp (spawned "ghost" 60%Q) = [15]
  /\ Spec.round (15 * Spec.diff 60) = 16
  /\ map Enemy.damage (spawned "tank" 72%Q) = [20]
  /\ Spec.round (20 * (1 + (Spec.diff 72 - 1) * (1 # 2))) = 21
  /\ map Enemy.max_hp (spawned "tank" 168%Q) = [56]
  /\ (50 * Spec.diff 168 == 57)%Q
  /\ Spec.round (50 * Spec.diff 168) = 57.
Proof. vm_compute. repeat split. Qed.

End Spawning.

(** ** Upgrade selection (weapons/controller.py) *)

Module Upgrades.

Import Forms Scenario.

Import WeaponController.

Lemma swap_Permutation {A : Type} i j (x : list A) : Random.swap i j x ≡ₚ x.
Proof.
  unfold Random.swap.
  destruct (x !! i) as [a|] eqn:Ei; [|done].
  destruct (x !! j) as [b|] eqn:Ej; [|done].
  by apply Permutation_insert_swap.
Qed.

Lemma shuffle_from_Permutation {A : Type} i : forall (x : list A) g,
  (Random.shuffle_from i x g).1 ≡ₚ x.
Proof.
  induction i as [|i IH]; intros x g; cbn [Random.shuffle_from]; [done|].
  destruct (Random.randbelow (S (S i)) g) as [j g'].
  rewrite IH. apply swap_Permutation.
Qed.

Lemma shuffle_Permutation {A : Type} (x : list A) g :
  (Random.shuffle x g).1 ≡ₚ x.
Proof. apply shuffle_from_Permutation. Qed.

(** [random.choice] on a non-empty sequence returns one of its members. *)
Lemma choice_member {A : Type} (seq : list A) g :
  seq <> [] -> exists u, (Random.choice seq g).1 = Some u /\ u ∈ seq.
Proof.
  intros Hne. unfold Random.choice, Random.randbelow.
  destruct (Random.next g) as [k g']. cbn [fst].
  assert (Hlt : (k mod length seq < length seq)%nat).
  { apply Nat.mod_upper_bound. destruct seq; [done|cbn; lia]. }
  destruct (lookup_lt_is_Some_2 seq _ Hlt) as [u Hu].
  exists u. split; [exact Hu|]. by eapply list_elem_of_lookup_2.
Qed.

(** The padding loop appends [n] members of a non-empty pool, and nothing
    when the pool is empty. *)
Lemma pad_options_spec n : forall possible options g,
  exists padding,
    (pad_options n possible options g).1 = options ++ padding
    /\ (forall u, u ∈ padding -> u ∈ possible)
    /\ length padding = match possible with [] => 0%nat | _ => n end.
Proof.
  induction n as [|n IH]; intros possible options g; cbn [pad_options].
  - exists []. rewrite app_nil_r. repeat split.
    + intros u Hu. by apply elem_of_nil in Hu.
    + by destruct possible.
  - destruct possible as [|u0 rest] eqn:Ep.
    + exists []. rewrite app_nil_r. repeat split.
      intros u Hu. by apply elem_of_nil in Hu.
    + rewrite <- Ep.
      destruct (choice_member possible g) as (u & Hu & Hin); [by subst|].
      destruct (Random.choice possible g) as [o g'] eqn:Ec.
      cbn [fst] in Hu. subst o.
      destruct (IH possible (options ++ [u]) g') as (padding & E & Hsub & Hlen).
      exists (u :: padding). split; [|split].
      * rewrite E, <- app_assoc. done.
      * intros v [->|Hv]%elem_of_cons; auto.
      * cbn. rewrite Hlen. by subst.
Qed.

Lemma select_options_spec count (pool : list upgrade) g :
  exists shuffled padding,
    shuffled ≡ₚ pool
    /\ (select_options count pool g).1 = take count shuffled ++ padding
    /\ (forall u, u ∈ padding -> u ∈ pool)
    /\ length padding
       = match pool with [] => 0%nat | _ => (count - length pool)%nat end.
Proof.
  unfold select_options.
  pose proof (shuffle_Permutation pool g) as Hperm.
  destruct (Random.shuffle pool g) as [shuffled g1]. cbn [fst] in Hperm.
  destruct (pad_options_spec (count - length (take count shuffled)) shuffled
              (take count shuffled) g1) as (padding & E & Hsub & Hlen).
  exists shuffled, padding. split; [exact Hperm|]. split; [exact E|]. split.
  - intros u Hu. rewrite <- Hperm. by apply Hsub.
  - rewrite Hlen. pose proof (Permutation_length Hperm) as Hl.
    destruct shuffled as [|s0 srest], pool as [|p0 prest]; try done.
    rewrite length_take, Hl. lia.
Qed.

(** C3, as the code has it: the options are the first N entries of a shuffle
    of the candidate pool, followed, when the pool is non-empty, by
    N - |pool| entries drawn again from the pool (repeats allowed); so a
    non-empty pool always gives exactly N options, and an empty pool gives
    the empty list. *)
Theorem upgrade_options_padded (count : nat) (g : Random.t)
    (c : WeaponController.t) :
  let pool := possible_upgrades c in
  let options := (get_upgrade_options count g c).1 in
  (exists shuffled padding,
      shuffled ≡ₚ pool
      /\ options = take count shuffled ++ padding
      /\ (forall u, u ∈ padding -> u ∈ pool)
      /\ length padding
         = match pool with [] => 0%nat | _ => (count - length pool)%nat end)
  /\ (forall u, u ∈ options -> u ∈ pool)
  /\ (pool <> [] -> length options = count)
  /\ (pool = [] -> options = []).
Proof.
  intros pool options.
  destruct (select_options_spec count pool g)
    as (shuffled & padding & Hperm & E & Hsub & Hlen).
  change (options = take count shuffled ++ padding) in E. clearbody options.
  split; [by exists shuffled, padding|]. split; [|split].
  - intros u. rewrite E. intros [Hu|Hu]%elem_of_app; [|auto].
    rewrite <- Hperm. by eapply subseteq_take.
  - intros Hne. rewrite E, length_app, length_take, Hlen.
    rewrite (Permutation_length Hperm). destruct pool; [done|]. lia.
  - intros Hempty. rewrite E. rewrite Hempty in Hperm, Hlen.
    apply Permutation_nil_r in Hperm. subst shuffled.
    destruct padding; [|done]. by rewrite take_nil.
Qed.

(** The claim as stated fails: on an empty candidate pool the result of
    asking for three options is the empty list. *)
Lemma empty_pool_gives_no_options :
  let g := Random.mk (fun n => n) 0 in
  possible_upgrades exhausted = []
  /\ (get_upgrade_options 3 g exhausted).1 = []
  /\ (select_options 3 [] g).1 = [].
Proof. vm_compute. repeat split. Qed.

(** A fresh inventory holding only the whip offers twelve candidates, and
    three distinct ones come back. *)
Example fresh_inventory_options :
  let p := Player.init (Rect.mk 0 0 40 40) false in
  let c := (add_weapon "whip" p WeaponController.init).1 in
  length (possible_upgrades c) = 12%nat
  /\ map u_id (get_upgrade_options 3 (Random.mk (fun n => n) 0) c).1
     = ["speed_boost"; "regen_boost"; "pickup_boost"]%string.
Proof. vm_compute. repeat split. Qed.

(** *** The pool is never empty in play

    With the shipped tables every inventory a session reaches still offers
    something: the axe and the knife can never be marked evolved, so once
    everything else is exhausted one of their evolutions stays on offer. *)

Lemma recalculate_ok k p w :
  weapon_ok k w -> weapon_ok k (Weapon._recalculate_stats p w).
Proof. intros H. exact H. Qed.

Lemma level_up_ok k p w : weapon_ok k w -> weapon_ok k (Weapon.level_up p w).1.
Proof.
  intros H. unfold Weapon.level_up.
  destruct (Weapon.level w <? Weapon.max_level w); exact H.
Qed.

Lemma evolve_ok k w : weapon_ok k w -> weapon_ok k (Weapon.evolve w).1.
Proof.
  intros H. pose proof H as (E1 & E2 & E3). unfold Weapon.evolve.
  destruct (Weapon.evolution_id w) as [eid|] eqn:Eid; [|exact H].
  destruct (negb (Weapon.truthy (Some eid))); [exact H|].
  destruct (Py.get eid Settings.EVOLUTION_DATA) as [ed|] eqn:Eed; [|exact H].
  cbn [fst]. split; [exact E1|]. split; [exact E2|].
  intros [-> | ->]; cbn in E1; injection E1 as E1;
    subst eid; cbn in Eed; discriminate.
Qed.

Lemma init_ok k p : weapon_ok k (Weapon.init k p).
Proof. unfold Weapon.init. destruct (String.eqb k "garlic"); done. Qed.

Lemma classes_existsb wid :
  existsb (String.eqb wid) WEAPON_CLASSES = true -> wid ∈ WEAPON_CLASSES.
Proof.
  intros H. apply existsb_exists in H as (k & Hin & ->%String.eqb_eq).
  by apply list_elem_of_In.
Qed.

Lemma add_weapon_wf wid p c : well_formed c -> well_formed (add_weapon wid p c).1.
Proof.
  intros [W1 W2 W3 W4 W5 W6 W7]. unfold add_weapon.
  destruct (Py.get wid (weapons c)) as [w|] eqn:Eg.
  - destruct (Weapon.level_up p w) as [w' ok] eqn:El. cbn [fst].
    assert (Hc : Py.contains wid (weapons c) = true)
      by (unfold Py.contains; by rewrite Eg).
    split; cbn [weapons passives max_weapons max_passives]; try done.
    + by rewrite PyFacts.keys_set, Hc.
    + intros k. rewrite PyFacts.keys_set, Hc. apply W4.
    + intros k w0. rewrite PyFacts.get_set.
      destruct (String.eqb k wid) eqn:E; [|apply W7].
      apply String.eqb_eq in E as ->. intros [= <-].
      replace w' with (Weapon.level_up p w).1 by (by rewrite El).
      apply level_up_ok. by apply W7.
  - destruct (max_weapons c <=? length (weapons c))%nat; [done|].
    destruct (existsb (String.eqb wid) WEAPON_CLASSES) eqn:Ecl; [|done].
    assert (Hc : Py.contains wid (weapons c) = false)
      by (unfold Py.contains; by rewrite Eg).
    apply PyFacts.get_None_keys in Eg.
    split; cbn [fst weapons passives max_weapons max_passives]; try done.
    + rewrite PyFacts.keys_set, Hc. apply NoDup_app. split; [done|].
      split; [|apply NoDup_singleton].
      intros k Hk ->%list_elem_of_singleton. done.
    + intros k. rewrite PyFacts.keys_set, Hc.
      intros [Hk| ->%list_elem_of_singleton]%elem_of_app; [by apply W4|].
      by apply classes_existsb.
    + intros k w0. rewrite PyFacts.get_set.
      destruct (String.eqb k wid) eqn:E; [|apply W7].
      apply String.eqb_eq in E as ->. intros [= <-]. apply init_ok.
Qed.

Lemma keys_recalculated p (ws : list (string * Weapon.t)) :
  map fst (map (fun kw => (kw.1, Weapon._recalculate_stats p kw.2)) ws)
  = map fst ws.
Proof. induction ws as [|[k w] ws IH]; cbn; [done|]. by rewrite IH. Qed.

Lemma update_weapon_stats_wf p c :
  well_formed c -> well_formed (_update_weapon_stats p c).
Proof.
  intros [W1 W2 W3 W4 W5 W6 W7].
  split; cbn [_update_weapon_stats weapons passives max_weapons max_passives];
    try done.
  - by rewrite keys_recalculated.
  - intros k. rewrite keys_recalculated. apply W4.
  - intros k w. rewrite (PyFacts.get_map (Weapon._recalculate_stats p)).
    destruct (Py.get k (weapons c)) as [w0|] eqn:E; [|done].
    intros [= <-]. apply recalculate_ok. by apply W7.
Qed.

Lemma set_passive_wf pid lv c :
  pid ∈ map fst Settings.PASSIVE_DATA ->
  well_formed c ->
  well_formed (mk (weapons c) (Py.set pid lv (passives c)) (max_weapons c)
                  (max_passives c)).
Proof.
  intros Hpid [W1 W2 W3 W4 W5 W6 W7].
  split; cbn [weapons passives max_weapons max_passives]; try done.
  - rewrite PyFacts.keys_set.
    destruct (Py.contains pid (passives c)) eqn:Hc; [done|].
    apply NoDup_app. split; [done|]. split; [|apply NoDup_singleton].
    intros k Hk ->%list_elem_of_singleton.
    apply PyFacts.contains_keys in Hk. congruence.
  - intros k. rewrite PyFacts.keys_set.
    destruct (Py.contains pid (passives c)); [apply W6|].
    intros [Hk| ->%list_elem_of_singleton]%elem_of_app; [by apply W6|done].
Qed.

Lemma add_passive_wf pid p c :
  well_formed c -> well_formed (add_passive pid p c).1.2.
Proof.
  intros Hwf. unfold add_passive.
  destruct (Py.get pid Settings.PASSIVE_DATA) as [pd|] eqn:Ed; [|done].
  assert (Hpid : pid ∈ map fst Settings.PASSIVE_DATA).
  { apply PyFacts.contains_keys. unfold Py.contains. by rewrite Ed. }
  destruct (Py.get pid (passives c)) as [lv|].
  - destruct (lv <? Settings.p_max_level pd); [|done].
    cbn [fst snd]. by apply update_weapon_stats_wf, set_passive_wf.
  - destruct (max_passives c <=? length (passives c))%nat; [done|].
    cbn [fst snd]. by apply update_weapon_stats_wf, set_passive_wf.
Qed.

Lemma evolve_weapon_wf wid c :
  well_formed c -> well_formed (evolve_weapon wid c).1.
Proof.
  intros [W1 W2 W3 W4 W5 W6 W7]. unfold evolve_weapon.
  destruct (Py.get wid (weapons c)) as [w|] eqn:Eg; [|done].
  destruct (Weapon.evolve w) as [w' ok] eqn:Ee. cbn [fst].
  assert (Hc : Py.contains wid (weapons c) = true)
    by (unfold Py.contains; by rewrite Eg).
  split; cbn [weapons passives max_weapons max_passives]; try done.
  - by rewrite PyFacts.keys_set, Hc.
  - intros k. rewrite PyFacts.keys_set, Hc. apply W4.
  - intros k w0. rewrite PyFacts.get_set.
    destruct (String.eqb k wid) eqn:E; [|apply W7].
    apply String.eqb_eq in E as ->. intros [= <-].
    replace w' with (Weapon.evolve w).1 by (by rewrite Ee).
    apply evolve_ok. by apply W7.
Qed.

Lemma init_wf : well_formed WeaponController.init.
Proof.
  split; cbn; try done; try apply NoDup_nil_2.
  all: intros k H; by apply elem_of_nil in H.
Qed.

Lemma reachable_wf c : reachable c -> well_formed c.
Proof.
  induction 1 as [|c u p _ IH]; [apply init_wf|].
  unfold apply_upgrade. destruct (u_kind u).
  - pose proof (add_weapon_wf (u_id u) p c IH) as H.
    by destruct (add_weapon (u_id u) p c).
  - apply add_passive_wf, IH.
  - pose proof (evolve_weapon_wf (u_id u) c IH) as H.
    by destruct (evolve_weapon (u_id u) c).
Qed.

(** Distinct keys drawn from a table of [n] keys are at most [n]. *)
Lemma keys_bounded (keys table : list string) :
  NoDup keys -> (forall k, k ∈ keys -> k ∈ table) ->
  (length keys <= length table)%nat.
Proof. intros Hnd Hsub. by apply submseteq_length, NoDup_submseteq. Qed.

(** An owned weapon at its level cap, not evolved, whose required passive
    is held, is listed by [check_evolutions]. *)
Lemma evolution_offered c k w ps :
  Py.get k (weapons c) = Some w ->
  Weapon.evolved w = false ->
  Weapon.truthy (Weapon.evolution_id w) = true ->
  (Weapon.level w <? Weapon.max_level w) = false ->
  Weapon.evolution_passive w = Some ps -> Weapon.truthy (Some ps) = true ->
  Py.contains ps (passives c) = true ->
  mk_upgrade k_evolution k false 0 ∈ possible_upgrades c.
Proof.
  intros Hg He Hid Hl Hp Hps Hc. unfold possible_upgrades.
  rewrite !elem_of_app. do 4 right.
  apply list_elem_of_In, in_map_iff. exists k. split; [done|].
  unfold check_evolutions. apply in_map_iff. exists (k, w). split; [done|].
  apply filter_In. split; [by apply list_elem_of_In, PyFacts.get_Some_elem|].
  cbn. unfold Weapon.can_evolve. by rewrite He, Hid, Hl, Hp, Hps, Hc.
Qed.

Lemma level_up_offered c k w :
  Py.get k (weapons c) = Some w ->
  (Weapon.level w <? Weapon.max_level w) = true ->
  mk_upgrade k_weapon k false (Weapon.level w) ∈ possible_upgrades c.
Proof.
  intros Hg Hl. unfold possible_upgrades. rewrite !elem_of_app. left.
  apply list_elem_of_omap. exists (k, w).
  split; [by apply PyFacts.get_Some_elem|]. cbn. by rewrite Hl.
Qed.

Lemma new_weapon_offered c k :
  (length (weapons c) < max_weapons c)%nat ->
  k ∈ map fst Settings.WEAPON_DATA ->
  Py.contains k (weapons c) = false ->
  mk_upgrade k_weapon k true 0 ∈ possible_upgrades c.
Proof.
  intros Hlen Hk Hc. unfold possible_upgrades. rewrite !elem_of_app.
  right. left. apply Nat.ltb_lt in Hlen. rewrite Hlen.
  apply list_elem_of_In, in_map_iff in Hk as ([k0 d] & <- & Hin).
  apply list_elem_of_omap. exists (k0, d).
  split; [by apply list_elem_of_In|]. cbn in *. by rewrite Hc.
Qed.

Lemma new_passive_offered c k :
  (length (passives c) < max_passives c)%nat ->
  k ∈ map fst Settings.PASSIVE_DATA ->
  Py.contains k (passives c) = false ->
  mk_upgrade k_passive k true 0 ∈ possible_upgrades c.
Proof.
  intros Hlen Hk Hc. unfold possible_upgrades. rewrite !elem_of_app.
  do 3 right. left. apply Nat.ltb_lt in Hlen. rewrite Hlen.
  apply list_elem_of_In, in_map_iff in Hk as ([k0 d] & <- & Hin).
  apply list_elem_of_omap. exists (k0, d).
  split; [by apply list_elem_of_In|]. cbn in *. by rewrite Hc.
Qed.

(** A capped, un-evolved axe or knife either has its evolution on offer or
    its required passive is not held. *)
Lemma capped_blade c k ps :
  well_formed c ->
  (k = "axe"%string /\ ps = "max_hp_boost"%string)
  \/ (k = "knife"%string /\ ps = "speed_boost"%string) ->
  Py.contains k (weapons c) = true ->
  possible_upgrades c <> [] \/ Py.contains ps (passives c) = false.
Proof.
  intros Hwf Hk Hc. unfold Py.contains in Hc.
  destruct (Py.get k (weapons c)) as [w|] eqn:Eg; [|done].
  destruct (wf_weapons c Hwf k w Eg) as (E1 & E2 & E3).
  destruct (Weapon.level w <? Weapon.max_level w) eqn:El.
  { left. intros Hnil. pose proof (level_up_offered c k w Eg El) as Hin.
    rewrite Hnil in Hin. by apply elem_of_nil in Hin. }
  destruct (Py.contains ps (passives c)) eqn:Hps; [left|by right].
  intros Hnil.
  assert (Hin : mk_upgrade k_evolution k false 0 ∈ possible_upgrades c).
  { apply (evolution_offered c k w ps); try done.
    - apply E3. destruct Hk as [[-> _]|[-> _]]; auto.
    - rewrite E1. by destruct Hk as [[-> _]|[-> _]].
    - rewrite E2. by destruct Hk as [[-> ->]|[-> ->]].
    - by destruct Hk as [[_ ->]|[_ ->]]. }
  rewrite Hnil in Hin. by apply elem_of_nil in Hin.
Qed.

Lemma well_formed_pool_nonempty c : well_formed c -> possible_upgrades c <> [].
Proof.
  intros Hwf.
  assert (Hwlen : (length (weapons c) <= 5)%nat).
  { rewrite <- (length_map fst).
    apply (keys_bounded _ WEAPON_CLASSES);
      [apply Hwf|apply (wf_weapon_classes c Hwf)]. }
  assert (Hnew : forall k, k ∈ WEAPON_CLASSES ->
            Py.contains k (weapons c) = false -> possible_upgrades c <> []).
  { intros k Hk Hc Hnil.
    assert (Hin : mk_upgrade k_weapon k true 0 ∈ possible_upgrades c).
    { apply new_weapon_offered; [|exact Hk|exact Hc].
      rewrite (wf_max_weapons c Hwf). unfold Settings.MAX_WEAPONS. lia. }
    rewrite Hnil in Hin. by apply elem_of_nil in Hin. }
  destruct (Py.contains "axe" (weapons c)) eqn:Haxe;
    [|apply (Hnew "axe"%string); [set_solver|done]].
  destruct (Py.contains "knife" (weapons c)) eqn:Hknife;
    [|apply (Hnew "knife"%string); [set_solver|done]].
  destruct (capped_blade c "axe" "max_hp_boost" Hwf) as [H|Hhp]; auto.
  destruct (capped_blade c "knife" "speed_boost" Hwf) as [H|Hsp]; auto.
  (* neither passive is held: a passive slot is free *)
  intros Hnil.
  assert (Hin : mk_upgrade k_passive "max_hp_boost" true 0 ∈ possible_upgrades c).
  { apply new_passive_offered; [|set_solver|exact Hhp].
    rewrite (wf_max_passives c Hwf). unfold Settings.MAX_PASSIVES.
    assert ((length (passives c) <= 5)%nat); [|lia].
    rewrite <- (length_map fst).
    apply (keys_bounded _ ["might_boost"; "regen_boost"; "pickup_boost";
                           "armor_boost"; "cooldown_boost"]%string);
      [apply Hwf|].
    intros k Hk. pose proof (wf_passive_known c Hwf k Hk) as Hknown.
    assert (k <> "max_hp_boost"%string).
    { intros ->. apply PyFacts.contains_keys in Hk. congruence. }
    assert (k <> "speed_boost"%string).
    { intros ->. apply PyFacts.contains_keys in Hk. congruence. }
    cbn in Hknown. rewrite !elem_of_cons, elem_of_nil in Hknown.
    rewrite !elem_of_cons. tauto. }
  rewrite Hnil in Hin. by apply elem_of_nil in Hin.
Qed.

(** In play the pool is never empty, so a request for N options always
    returns exactly N. *)
Lemma reachable_options_full count g c :
  reachable c ->
  possible_upgrades c <> []
  /\ length (get_upgrade_options count g c).1 = count.
Proof.
  intros Hr. pose proof (well_formed_pool_nonempty c (reachable_wf c Hr)) as Hne.
  split; [exact Hne|]. unfold get_upgrade_options.
  destruct (select_options_spec count (possible_upgrades c) g)
    as (shuffled & padding & Hperm & E & _ & Hlen).
  rewrite E, length_app, length_take, Hlen, (Permutation_length Hperm).
  destruct (possible_upgrades c); [done|]. lia.
Qed.

End Upgrades.

(** ** Pierce accounting (weapons/projectiles.py, weapons/controller.py) *)

Module Pierce.

Import Forms Scenario.

Import WeaponController.

(** An accepted hit records the enemy and lowers the counter by one. *)
Lemma hit_enemy_true enemy_id p :
  (Projectile.hit_enemy enemy_id p).2 = true ->
  (enemy_id ∉ Projectile.hit_enemies p)
  /\ (enemy_id ∈ Projectile.hit_enemies (Projectile.hit_enemy enemy_id p).1)
  /\ Projectile.hits_remaining (Projectile.hit_enemy enemy_id p).1
     = Projectile.hits_remaining p - 1.
Proof.
  unfold Projectile.hit_enemy.
  destruct (decide (enemy_id ∈ Projectile.hit_enemies p)); [discriminate|].
  cbn. intros _. split; [done|]. split; [set_solver|done].
Qed.

(** A refused hit changes nothing. *)
Lemma hit_enemy_false enemy_id p :
  (Projectile.hit_enemy enemy_id p).2 = false ->
  (Projectile.hit_enemy enemy_id p).1 = p
  /\ enemy_id ∈ Projectile.hit_enemies p.
Proof.
  unfold Projectile.hit_enemy.
  destruct (decide (enemy_id ∈ Projectile.hit_enemies p)); [done|discriminate].
Qed.

(** The same enemy identity is never accepted twice. *)
Lemma hit_enemy_once enemy_id p :
  enemy_id ∈ Projectile.hit_enemies p ->
  (Projectile.hit_enemy enemy_id p).2 = false.
Proof.
  unfold Projectile.hit_enemy. intros H.
  destruct (decide (enemy_id ∈ Projectile.hit_enemies p)); done.
Qed.

(** The counter never goes up, and the set of hit enemies never shrinks. *)
Lemma hit_enemy_monotone enemy_id p :
  Projectile.hits_remaining (Projectile.hit_enemy enemy_id p).1
  <= Projectile.hits_remaining p
  /\ Projectile.hit_enemies p
     ⊆ Projectile.hit_enemies (Projectile.hit_enemy enemy_id p).1.
Proof.
  unfold Projectile.hit_enemy.
  destruct (decide (enemy_id ∈ Projectile.hit_enemies p)); cbn.
  - split; [lia|done].
  - split; [lia|set_solver].
Qed.

Lemma update_keeps_counter dt p :
  Projectile.hits_remaining (Projectile.update dt p)
  = Projectile.hits_remaining p.
Proof. reflexivity. Qed.

(** The hit that brings the counter to zero removes the projectile, and so
    does the frame in which its age reaches its lifetime. *)
Lemma removed_at_last_hit enemy_id p :
  (Projectile.hit_enemy enemy_id p).2 = true ->
  Projectile.hits_remaining p <= 1 ->
  Projectile.alive (Projectile.hit_enemy enemy_id p).1 = false.
Proof.
  unfold Projectile.hit_enemy.
  destruct (decide (enemy_id ∈ Projectile.hit_enemies p)); [discriminate|].
  cbn. intros _ H. destruct (Z.leb_spec (Projectile.hits_remaining p - 1) 0); [done|lia].
Qed.

Lemma kept_before_last_hit enemy_id p :
  1 < Projectile.hits_remaining p ->
  Projectile.alive (Projectile.hit_enemy enemy_id p).1 = Projectile.alive p.
Proof.
  unfold Projectile.hit_enemy. intros H.
  destruct (decide (enemy_id ∈ Projectile.hit_enemies p)); [done|].
  cbn. destruct (Z.leb_spec (Projectile.hits_remaining p - 1) 0); [lia|done].
Qed.

Lemma removed_at_lifetime dt p :
  (Projectile.lifetime p <=? Projectile.age p + dt)%float = true ->
  Projectile.alive (Projectile.update dt p) = false.
Proof.
  intros H. cbn. by rewrite H.
Qed.

(** C6 fails on the code: one call of [handle_projectile_collisions] lets a
    projectile of pierce 1 damage both overlapping enemies; its counter
    ends at -1. *)
Theorem pierce_one_damages_two :
  let '(sprites, enemies, tally) :=
    handle_projectile_collisions [Shot knife] two_chasers in
  map Enemy.id enemies = [1; 2]
  /\ map Enemy.hp two_chasers = [10; 10]%Q
  /\ map Enemy.hp enemies = [2; 2]%Q
  /\ damaged two_chasers enemies = [1; 2]
  /\ damage_dealt tally = 16%Q
  /\ Projectile.pierce knife = 1
  /\ match sprites with
     | [Shot p] =>
         Projectile.hits_remaining p = -1
         /\ Projectile.alive p = false
         /\ 1 ∈ Projectile.hit_enemies p /\ 2 ∈ Projectile.hit_enemies p
     | _ => False
     end.
Proof.
  vm_compute. repeat split; try reflexivity.
  all: apply bool_decide_unpack; vm_compute; exact I.
Qed.

End Pierce.

(** ** Drops on enemy death (main.py, entities/drops.py) *)

Module DeathDrops.

Import Forms Scenario.

Lemma tier_of_spec value :
  (value < 5 -> Drops.tier_of value = Drops.small)
  /\ (5 <= value < 25 -> Drops.tier_of value = Drops.medium)
  /\ (25 <= value -> Drops.tier_of value = Drops.large).
Proof.
  unfold Drops.tier_of.
  destruct (Z.leb_spec 25 value), (Z.leb_spec 5 value);
    repeat split; intros; try reflexivity; lia.
Qed.

Lemma fold_spawn_xp_gem dead : forall m,
  fold_left
    (fun acc di =>
       Drops.spawn_xp_gem (Enemy.di_pos di) (Enemy.di_xp_value di) acc)
    dead m
  = m ++ map gem_of dead.
Proof.
  induction dead as [|di dead IH]; intros m; cbn [fold_left map].
  - by rewrite app_nil_r.
  - rewrite IH. unfold Drops.spawn_xp_gem. by rewrite <- app_assoc.
Qed.

(** What the frame does for the enemies that died in it: one gem each, at
    the enemy's position and of the tier of its value, and nothing else. *)
Lemma resolve_deaths_gems sprites enemies weapon_dead m :
  let '(_, _, dead, m') := Game.resolve_deaths sprites enemies weapon_dead m in
  m' = m ++ map gem_of dead
  /\ forallb Drops.is_gem (map gem_of dead) = true.
Proof.
  unfold Game.resolve_deaths.
  destruct (WeaponController.handle_projectile_collisions sprites enemies)
    as [[sp es] tally].
  split; [apply fold_spawn_xp_gem|].
  induction (WeaponController.dead_enemies tally ++ weapon_dead); done.
Qed.

(** C1 fails on the code: the frame's handling of a death spawns the gem
    only and rolls nothing, while [spawn_enemy_drops], which rolls the
    health pickup and the chest, is never called; with draws of 0 it would
    have added both. *)
Theorem death_spawns_gem_only :
  let '(_, survivors, dead, drops) :=
    Game.resolve_deaths [WeaponController.Shot axe] [victim] [] [] in
  survivors = []
  /\ dead = [Enemy.mk_drop_info 1 (106, 106)%Q]
  /\ drops = [Drops.ExperienceGem (106, 106)%Q Drops.small 1]
  /\ match (Drops.spawn_enemy_drops victim zero_draws []).1 with
     | [Drops.ExperienceGem _ Drops.small 1; Drops.HealthPickup _ _;
        Drops.Chest _] => True
     | _ => False
     end.
Proof. vm_compute. repeat split. Qed.

End DeathDrops.

(** ** Contact damage (main.py, entities/player.py, entities/enemy.py) *)

Module Contact.

Import Forms Scenario.

Lemma applied_positive p e : (1 <= applied p e)%Q.
Proof. apply PyFacts.max_ge_l. Qed.

(** [get_hit] on a player that can be hurt. *)
Lemma get_hit_open dmg p :
  Player.is_invincible p = false -> Player.dead p = false ->
  Player.unlimited_health p = false ->
  let a := Py.max 1 (dmg - Player.armor p) in
  let p' := (Player.get_hit dmg p).1 in
  (Player.damage_taken p' == Player.damage_taken p + a)%Q
  /\ Player.is_invincible p' = true
  /\ Player.i_frames_timer p' = Player.i_frames_duration p
  /\ Player.i_frames_duration p' = Player.i_frames_duration p
  /\ ((0 < Player.hp p - a)%Q ->
      (Player.get_hit dmg p).2 = false /\ Player.dead p' = false
      /\ (Player.hp p' == Player.hp p - a)%Q)
  /\ ((Player.hp p - a <= 0)%Q ->
      (Player.get_hit dmg p).2 = true /\ Player.dead p' = true
      /\ (Player.hp p' == 0)%Q).
Proof.
  intros Hi Hd Hc a p'. subst p'. unfold Player.get_hit.
  rewrite Hi, Hd, Hc. cbn [orb].
  cbn [Player.hp Player.set_i_frames Player.set_damage_taken Player.set_hp].
  fold a.
  destruct (Py.leb (Player.hp p - a) 0) eqn:E; cbn.
  - apply PyFacts.leb_le in E.
    repeat split; try reflexivity; intros; try lra; try assumption.
  - apply PyFacts.leb_gt in E.
    repeat split; try reflexivity; intros; try lra; try assumption.
Qed.

(** [get_hit] under the unlimited-health cheat: the window opens and
    nothing else changes. *)
Lemma get_hit_cheat dmg p :
  Player.is_invincible p = false -> Player.dead p = false ->
  Player.unlimited_health p = true ->
  Player.get_hit dmg p
  = (Player.set_i_frames true (Player.i_frames_duration p) p, false).
Proof. intros Hi Hd Hc. unfold Player.get_hit. by rewrite Hi, Hd, Hc. Qed.

(** A closed gate: no overlap, the enemy on cooldown, or the player
    invincible; nothing changes. *)
Lemma contact_closed p e :
  Rect.colliderect (Player.hitbox p) (Enemy.hitbox e)
  && (Enemy.can_damage e && negb (Player.is_invincible p)) = false ->
  Game.contact p e = (p, e, false).
Proof.
  unfold Game.contact.
  destruct (Rect.colliderect _ _); [|done]. cbn [andb].
  by intros ->.
Qed.

Lemma contact_open p e :
  Rect.colliderect (Player.hitbox p) (Enemy.hitbox e) = true ->
  Enemy.can_damage e = true -> Player.is_invincible p = false ->
  Game.contact p e
  = let (p', died) := Player.get_hit (inject_Z (Enemy.damage e)) p in
    if died then (p', e, true) else (p', Enemy.reset_damage_cooldown e, false).
Proof. unfold Game.contact. by intros -> -> ->. Qed.

(** While the player is invincible a whole pass over the enemies changes
    nothing. *)
Lemma invincible_pass es : forall p,
  Player.is_invincible p = true ->
  Game._handle_player_enemy_collision p es = (p, es, false).
Proof.
  induction es as [|e es IH]; intros p Hi; cbn [Game._handle_player_enemy_collision].
  - done.
  - rewrite contact_closed.
    + by rewrite (IH p Hi).
    + rewrite Hi. cbn. by rewrite !andb_false_r.
Qed.

Lemma update_regen_frame dt p :
  Player.is_invincible (Player.update_regen dt p) = Player.is_invincible p
  /\ Player.dead (Player.update_regen dt p) = Player.dead p
  /\ Player.damage_taken (Player.update_regen dt p) = Player.damage_taken p
  /\ (Player.hp p <= Player.hp (Player.update_regen dt p))%Q.
Proof.
  unfold Player.update_regen.
  destruct (Py.ltb 0 (Player.regen p)) eqn:Er; cbn [andb];
    [|repeat split; lra].
  destruct (Py.ltb (Player.hp p) (Player.max_hp p)) eqn:Eh;
    [|repeat split; lra].
  cbn [Player.regen_timer Player.set_regen_timer].
  destruct (1 <=? Player.regen_timer p + dt)%float; [|repeat split; cbn; lra].
  cbn. repeat split.
  apply PyFacts.ltb_lt in Er, Eh.
  destruct (PyFacts.min_spec (Player.hp p + Player.regen p) (Player.max_hp p))
    as [[_ ->]|[_ ->]]; lra.
Qed.

(** The window stays open over a frame shorter than what is left of it:
    in doubles the difference of the timer and a smaller frame time is
    still above 0. *)
Lemma window_stays_open dt p :
  Player.is_invincible p = true -> Player.dead p = false ->
  (dt <? Player.i_frames_timer p)%float = true ->
  Player.is_invincible (Player.update dt p) = true
  /\ Player.dead (Player.update dt p) = false
  /\ (Player.hp p <= Player.hp (Player.update dt p))%Q
  /\ Player.damage_taken (Player.update dt p) = Player.damage_taken p.
Proof.
  intros Hi Hd Hdt. unfold Player.update. rewrite Hd.
  destruct (update_regen_frame dt (Player.update_i_frames dt p))
    as (-> & -> & -> & Hhp).
  unfold Player.update_i_frames in *. rewrite Hi in *.
  cbn [Player.i_frames_timer Player.set_i_frames] in *.
  rewrite (FloatFacts.sub_pos _ _ Hdt) in *. cbn in *. done.
Qed.

(** C7, as the code has it.  (1) With the gate closed (no overlap, the
    enemy's cooldown still running, or the player invincible) a contact
    changes nothing.  (2) With the gate open on a living player, the
    invincibility window opens for its full duration.  Under the
    unlimited-health cheat that is all that happens to the player: no
    damage is applied, and the enemy's cooldown is set to 0.5 s.
    Otherwise the damage taken grows by max(1, damage - armor); if the
    player survives, the HP drops by that amount and the enemy's cooldown
    is set to 0.5 s; if the hit is lethal, the HP is 0, the player is
    dead, and the enemy is left as it was.  (On a dead player, which the
    frame never brings to the contact pass, an open gate resets the
    enemy's cooldown and changes nothing of the player.)  (3) Once a
    contact the player survives has opened the window, the other enemies
    of that pass are passed over, and a later frame shorter than the
    window's duration applies no damage, whatever overlaps the player (the
    HP can only have regenerated): one damage application in all. *)
Theorem contact_damage_gated :
  (forall p e,
      Rect.colliderect (Player.hitbox p) (Enemy.hitbox e)
      && (Enemy.can_damage e && negb (Player.is_invincible p)) = false ->
      Game.contact p e = (p, e, false))
  /\ (forall p e,
        Rect.colliderect (Player.hitbox p) (Enemy.hitbox e) = true ->
        Enemy.can_damage e = true ->
        Player.is_invincible p = false -> Player.dead p = false ->
        let '(p', e', died) := Game.contact p e in
        Player.is_invincible p' = true
        /\ Player.i_frames_timer p' = Player.i_frames_duration p
        /\ (Player.unlimited_health p = true ->
            died = false
            /\ p' = Player.set_i_frames true (Player.i_frames_duration p) p
            /\ Player.hp p' = Player.hp p
            /\ Player.damage_taken p' = Player.damage_taken p
            /\ e' = Enemy.reset_damage_cooldown e
            /\ Enemy.damage_cooldown e' = 0.5%float
            /\ Enemy.can_damage e' = false)
        /\ (Player.unlimited_health p = false ->
            (Player.damage_taken p' == Player.damage_taken p + applied p e)%Q
            /\ ((0 < Player.hp p - applied p e)%Q ->
                died = false
                /\ (Player.hp p' == Player.hp p - applied p e)%Q
                /\ e' = Enemy.reset_damage_cooldown e
                /\ Enemy.damage_cooldown e' = 0.5%float
                /\ Enemy.can_damage e' = false)
            /\ ((Player.hp p - applied p e <= 0)%Q ->
                died = true /\ Player.dead p' = true
                /\ (Player.hp p' == 0)%Q /\ e' = e)))
  /\ (forall p e,
        Rect.colliderect (Player.hitbox p) (Enemy.hitbox e) = true ->
        Enemy.can_damage e = true ->
        Player.is_invincible p = false -> Player.dead p = true ->
        Game.contact p e = (p, Enemy.reset_damage_cooldown e, false))
  /\ (forall p e es dt es',
        Rect.colliderect (Player.hitbox p) (Enemy.hitbox e) = true ->
        Enemy.can_damage e = true ->
        Player.is_invincible p = false -> Player.dead p = false ->
        Player.unlimited_health p = true \/ (0 < Player.hp p - applied p e)%Q ->
        (dt <? Player.i_frames_duration p)%float = true ->
        let '(p1, es1, died1) :=
          Game._handle_player_enemy_collision p (e :: es) in
        let '(p2, es2, died2) := Game.contact_tick dt p1 es' in
        died1 = false /\ died2 = false
        /\ es1 = Enemy.reset_damage_cooldown e :: es
        /\ es2 = map (Enemy.update dt) es'
        /\ Player.is_invincible p2 = true
        /\ Player.damage_taken p2 = Player.damage_taken p1
        /\ (Player.hp p1 <= Player.hp p2)%Q).
Proof.
  split; [exact contact_closed|]. split; [|split].
  - intros p e Hov Hcd Hi Hd.
    rewrite (contact_open p e Hov Hcd Hi).
    destruct (Player.unlimited_health p) eqn:Hc.
    + rewrite (get_hit_cheat _ p Hi Hd Hc).
      split; [reflexivity|]. split; [reflexivity|]. split; [|discriminate].
      intros _. repeat split.
    + destruct (get_hit_open (inject_Z (Enemy.damage e)) p Hi Hd Hc)
        as (Ht & Hinv & Htimer & _ & Hlive & Hdie).
      fold (applied p e) in Ht, Hlive, Hdie.
      destruct (Player.get_hit (inject_Z (Enemy.damage e)) p) as [p' died].
      cbn [fst snd] in *.
      destruct died.
      * split; [exact Hinv|]. split; [exact Htimer|]. split; [discriminate|].
        intros _. split; [exact Ht|]. split.
        -- intros Hpos. destruct (Hlive Hpos) as [? _]. discriminate.
        -- intros Hle. destruct (Hdie Hle) as (_ & ? & ?). done.
      * split; [exact Hinv|]. split; [exact Htimer|]. split; [discriminate|].
        intros _. split; [exact Ht|]. split.
        -- intros Hpos. destruct (Hlive Hpos) as (_ & _ & ?). done.
        -- intros Hle. destruct (Hdie Hle) as [? _]. discriminate.
  - intros p e Hov Hcd Hi Hd.
    rewrite (contact_open p e Hov Hcd Hi).
    unfold Player.get_hit. by rewrite Hi, Hd.
  - intros p e es dt es' Hov Hcd Hi Hd Hsurvive Hdt.
    cbn [Game._handle_player_enemy_collision].
    rewrite (contact_open p e Hov Hcd Hi).
    assert (exists p1,
      Player.get_hit (inject_Z (Enemy.damage e)) p = (p1, false)
      /\ Player.is_invincible p1 = true /\ Player.dead p1 = false
      /\ Player.i_frames_timer p1 = Player.i_frames_duration p)
      as (p1 & -> & Hinv & Hdead & Htimer).
    { destruct (Player.unlimited_health p) eqn:Hc.
      - rewrite (get_hit_cheat _ p Hi Hd Hc). eexists. split; [reflexivity|].
        by cbn.
      - destruct Hsurvive as [?|Hpos]; [discriminate|].
        destruct (get_hit_open (inject_Z (Enemy.damage e)) p Hi Hd Hc)
          as (_ & Hinv & Htimer & _ & Hlive & _).
        fold (applied p e) in Hlive.
        destruct (Hlive Hpos) as (Hret & Hdead & _).
        destruct (Player.get_hit (inject_Z (Enemy.damage e)) p) as [p1 died].
        cbn [fst snd] in *. subst died. by exists p1. }
    rewrite (invincible_pass es p1 Hinv).
    unfold Game.contact_tick.
    destruct (window_stays_open dt p1 Hinv Hdead) as (Hi2 & Hd2 & Hhp2 & Ht2);
      [rewrite Htimer; exact Hdt|].
    rewrite Hd2, (invincible_pass _ _ Hi2).
    repeat split; done.
Qed.

(** The shipped numbers: a fresh player under two overlapping chasers takes
    one hit of 10; in frames 0.1 s apart the 0.5 s window keeps every
    further contact out, and since 0.5 - 0.1 - 0.1 - 0.1 - 0.1 - 0.1 is
    still above 0 in doubles, it does so through the fifth such frame and
    lets the second hit in at the sixth. *)
Example two_contacts_one_hit :
  let '(p0, es0, _) :=
    Game.contact_tick 0 hero [chaser_on_hero 1; chaser_on_hero 2] in
  let '(p1, es1, _) := Game.contact_tick 0.1 p0 es0 in
  let '(p5, es5, _) := Game.contact_ticks 4 0.1 p1 es1 in
  let '(p6, es6, _) := Game.contact_tick 0.1 p5 es5 in
  (Player.hp p0 == 90)%Q /\ (Player.hp p1 == 90)%Q
  /\ (Player.damage_taken p1 == 10)%Q
  /\ map Enemy.can_damage es0 = [false; true]
  /\ (Player.hp p5 == 90)%Q /\ Player.is_invincible p5 = true
  /\ (Player.hp p6 == 80)%Q.
Proof. vm_compute. repeat split; discriminate. Qed.

(** The claim as stated fails at a lethal hit.  A chaser stays on a fresh
    player through frames of 0.1 s, the longest frame the game loop lets
    through: it lands a hit every sixth frame, at frames 1, 7, ..., 55.
    The tenth hit is applied (100 damage taken in all, 0 HP left, the
    window opened) and the pass returns before the enemy's cooldown is
    reset: the cooldown stays where the countdown left it, below 0, so the
    enemy could hit again at once. *)
Lemma lethal_hit_leaves_cooldown :
  let '(p54, es54, died54) :=
    Game.contact_ticks 54 0.1 hero [chaser_on_hero 1] in
  let '(p55, es55, died55) := Game.contact_tick 0.1 p54 es54 in
  (Player.damage_taken p54 == 90)%Q /\ died54 = false
  /\ (Player.damage_taken p55 == 100)%Q /\ died55 = true
  /\ (Player.hp p55 == 0)%Q
  /\ Player.is_invincible p55 = true
  /\ map Enemy.can_damage es55 = [true]
  /\ map (fun e => (Enemy.damage_cooldown e =? 0.5)%float) es55 = [false].
Proof. vm_compute. repeat split; discriminate. Qed.

End Contact.

(** ** The Garlic aura's per-enemy tick timers (weapons/projectiles.py) *)

Module Garlic.

Import Forms Scenario.

Import AuraTrace.

Lemma seconds_mono t1 t2 : t1 <= t2 -> (Clock.seconds t1 <= Clock.seconds t2)%Q.
Proof.
  intros H. unfold Clock.seconds.
  apply Qmult_le_compat_r; [|discriminate].
  by rewrite <- Zle_Qle.
Qed.

Lemma separated_snoc c log t' e :
  separated c log ->
  (forall t1, (t1, e) ∈ log -> (c <= Clock.seconds t' - Clock.seconds t1)%Q) ->
  separated c (log ++ [(t', e)]).
Proof.
  intros Hsep Hnew i j t1 t2 e0 Hij Hi Hj.
  destruct (decide (j < length log)%nat) as [Hlt|Hge].
  - rewrite lookup_app_l in Hi, Hj by lia. eauto.
  - assert (j = length log) as ->.
    { apply lookup_lt_Some in Hj. rewrite length_app in Hj. cbn in Hj. lia. }
    rewrite lookup_app_l in Hi by lia.
    rewrite list_lookup_middle in Hj by done. injection Hj as <- <-.
    apply Hnew. by eapply list_elem_of_lookup_2.
Qed.

(** A granted check, at a reading not before [now], keeps the invariant. *)
Lemma grant_preserves c now t e a log :
  invariant c now (a, log) -> now <= t ->
  (forall v, GarlicAura.damage_timers a !! e = Some v ->
             (c <= Clock.seconds t - v)%Q) ->
  invariant c t
    (GarlicAura.mk (GarlicAura.damage a) (GarlicAura.radius a)
       (GarlicAura.tick_rate a)
       (<[e := Clock.seconds t]> (GarlicAura.damage_timers a)),
     log ++ [(t, e)]).
Proof.
  intros [Hr Ht Hp Hl Hs] Hle Hgap. cbn [fst snd] in *.
  pose proof (seconds_mono _ _ Hle) as Hsec.
  split; cbn [fst snd GarlicAura.tick_rate GarlicAura.damage_timers].
  - exact Hr.
  - intros e0 v. destruct (decide (e = e0)) as [->|Hne].
    + rewrite lookup_insert_eq. intros [= <-]. lra.
    + rewrite lookup_insert_ne by done. intros Hv. specialize (Ht _ _ Hv). lra.
  - intros t0 e0 [Hin|Hin]%elem_of_app.
    + specialize (Hp _ _ Hin). lia.
    + apply list_elem_of_singleton in Hin. injection Hin as -> ->. lia.
  - intros t0 e0 [Hin|Hin]%elem_of_app.
    + destruct (decide (e = e0)) as [->|Hne].
      * rewrite lookup_insert_eq. apply seconds_mono.
        specialize (Hp _ _ Hin). lia.
      * rewrite lookup_insert_ne by done.
        specialize (Hl _ _ Hin). specialize (Hp _ _ Hin).
        apply seconds_mono in Hp.
        destruct (GarlicAura.damage_timers a !! e0); lra.
    + apply list_elem_of_singleton in Hin. injection Hin as -> ->.
      rewrite lookup_insert_eq. lra.
  - apply separated_snoc; [exact Hs|].
    intros t1 Hin. specialize (Hl _ _ Hin). specialize (Hp _ _ Hin).
    apply seconds_mono in Hp.
    destruct (GarlicAura.damage_timers a !! e) as [v|] eqn:Ev.
    + specialize (Hgap v eq_refl). lra.
    + destruct (Qlt_le_dec c 0); lra.
Qed.

Lemma step_preserves c now st call :
  invariant c now st -> now <= ticks_of call ->
  invariant c (ticks_of call) (step st call).
Proof.
  destruct st as [a log]. intros Hinv Hle.
  pose proof (seconds_mono _ _ Hle) as Hsec.
  destruct call as [t|t e]; cbn [step ticks_of fst snd] in *.
  - (* the pruning pass *)
    destruct Hinv as [Hr Ht Hp Hl Hs]. cbn [fst snd] in *.
    split; cbn [fst snd GarlicAura.update GarlicAura.tick_rate
                GarlicAura.damage_timers].
    + exact Hr.
    + intros e v [Hv _]%map_lookup_filter_Some. specialize (Ht _ _ Hv). lra.
    + intros t0 e0 Hin. specialize (Hp _ _ Hin). lia.
    + intros t0 e0 Hin. specialize (Hl _ _ Hin). specialize (Hp _ _ Hin).
      apply seconds_mono in Hp.
      destruct (filter _ (GarlicAura.damage_timers a) !! e0) as [v|] eqn:Ef.
      * apply map_lookup_filter_Some in Ef as [Ev _]. by rewrite Ev in Hl.
      * apply map_lookup_filter_None in Ef as [Ev|Ev].
        -- rewrite Ev in Hl. lra.
        -- destruct (GarlicAura.damage_timers a !! e0) as [v|] eqn:Ev0.
           ++ specialize (Ev v eq_refl). cbn in Ev.
              apply not_true_is_false, PyFacts.ltb_ge in Ev.
              rewrite Hr in Ev. lra.
           ++ lra.
    + exact Hs.
  - (* a check *)
    unfold GarlicAura.can_damage_enemy.
    destruct (GarlicAura.damage_timers a !! e) as [last|] eqn:El.
    + destruct (Py.leb (GarlicAura.tick_rate a) (Clock.seconds t - last)) eqn:Eg.
      * apply (grant_preserves c now); [exact Hinv|exact Hle|].
        intros v Hv. rewrite El in Hv. injection Hv as <-.
        apply PyFacts.leb_le in Eg.
        pose proof (inv_rate _ _ _ Hinv) as Hr. cbn [fst] in Hr.
        by rewrite Hr in Eg.
      * destruct Hinv as [Hr Ht Hp Hl Hs]. cbn [fst snd] in *.
        split; cbn [fst snd]; auto.
        -- intros e0 v Hv. specialize (Ht _ _ Hv). lra.
        -- intros t0 e0 Hin. specialize (Hp _ _ Hin). lia.
        -- intros t0 e0 Hin. specialize (Hl _ _ Hin). specialize (Hp _ _ Hin).
           apply seconds_mono in Hp.
           destruct (GarlicAura.damage_timers a !! e0); lra.
    + apply (grant_preserves c now); [exact Hinv|exact Hle|].
      intros v Hv. congruence.
Qed.

Lemma run_preserves c calls : forall now st,
  invariant c now st -> Sorted Z.le (now :: map ticks_of calls) ->
  separated c (fold_left step calls st).2.
Proof.
  induction calls as [|call calls IH]; intros now st Hinv Hsorted;
    cbn [fold_left map] in *.
  - exact (inv_separated _ _ _ Hinv).
  - apply Sorted_inv in Hsorted as [Hrest Hhd]. apply HdRel_inv in Hhd.
    apply (IH (ticks_of call)); [|exact Hrest].
    by apply (step_preserves c now).
Qed.

Lemma init_invariant dmg r c now : invariant c now (GarlicAura.init dmg r c, []).
Proof.
  split; cbn; try done.
  all: intros t e H; by apply elem_of_nil in H.
Qed.

(** C8: for an aura of tick rate c, along any sequence of its [update] and
    [can_damage_enemy] calls read off a clock that does not run backwards,
    two damage applications to the same enemy are at least c seconds
    apart, however often the check runs; a check on one enemy leaves every
    other enemy's timer alone; and [update] keeps exactly the timers idle
    for less than 2*c. *)
Theorem garlic_tick_rate_respected (c dmg : Q) (r : Z) (calls : list call) :
  Sorted Z.le (map ticks_of calls) ->
  let log := (run calls (GarlicAura.init dmg r c)).2 in
  (forall (i j : nat) (t1 t2 e : Z),
      (i < j)%nat -> log !! i = Some (t1, e) -> log !! j = Some (t2, e) ->
      (c <= Clock.seconds t2 - Clock.seconds t1)%Q)
  /\ (forall (a : GarlicAura.t) (t e e' : Z),
        e <> e' ->
        GarlicAura.damage_timers (GarlicAura.can_damage_enemy t e a).1 !! e'
        = GarlicAura.damage_timers a !! e')
  /\ (forall (a : GarlicAura.t) (t e : Z) (v : Q),
        GarlicAura.damage_timers (GarlicAura.update t a) !! e = Some v
        <-> GarlicAura.damage_timers a !! e = Some v
            /\ (Clock.seconds t - v < GarlicAura.tick_rate a * 2)%Q).
Proof.
  intros Hsorted log. split; [|split].
  - subst log. unfold run. destruct calls as [|call calls].
    + cbn. intros i j t1 t2 e _ H. by rewrite lookup_nil in H.
    + apply (run_preserves c (call :: calls) (ticks_of call));
        [apply init_invariant|].
      constructor; [exact Hsorted|]. constructor. cbn. lia.
  - intros a t e e' Hne. unfold GarlicAura.can_damage_enemy.
    destruct (GarlicAura.damage_timers a !! e) as [last|].
    + destruct (Py.leb _ _); cbn; [by rewrite lookup_insert_ne|done].
    + cbn. by rewrite lookup_insert_ne.
  - intros a t e v. cbn [GarlicAura.update GarlicAura.damage_timers].
    rewrite map_lookup_filter_Some. cbn. by rewrite PyFacts.ltb_lt.
Qed.

Lemma garlic_tick_rate_respected_witness :
  let log := (run sample_calls (GarlicAura.init 5 60 (1 # 2))).2 in
  log = [(0, 7); (500, 7); (600, 8); (1600, 7)]
  /\ (forall (i j : nat) (t1 t2 e : Z),
        (i < j)%nat -> log !! i = Some (t1, e) -> log !! j = Some (t2, e) ->
        ((1 # 2) <= Clock.seconds t2 - Clock.seconds t1)%Q).
Proof.
  intros log.
  assert (Hsorted : Sorted Z.le (map ticks_of sample_calls)).
  { cbn. repeat first [apply Sorted_cons | apply Sorted_nil
                      | apply HdRel_cons | apply HdRel_nil | lia]. }
  split; [vm_compute; reflexivity|].
  exact (proj1 (garlic_tick_rate_respected (1 # 2) 5 60 sample_calls Hsorted)).
Defined.

(** The calls of successive frames of [GarlicWeapon.update] read
    successive clock values, so a clock that never runs backwards gives a
    sorted call sequence. *)
Lemma frame_checks_readings ids : forall c,
  map ticks_of (frame_checks ids c).1
  = map (Clock.reading c) (seq (Clock.calls c) (length ids))
  /\ Clock.calls (frame_checks ids c).2 = (Clock.calls c + length ids)%nat
  /\ Clock.reading (frame_checks ids c).2 = Clock.reading c.
Proof.
  induction ids as [|e ids IH]; intros c; cbn [frame_checks].
  - cbn. repeat split. lia.
  - cbn [Clock.get_ticks].
    destruct (IH (Clock.mk (Clock.reading c) (S (Clock.calls c))))
      as (E1 & E2 & E3).
    destruct (frame_checks ids _) as [calls c2]. cbn [fst snd] in *.
    cbn [map length seq ticks_of]. rewrite E1, E2, E3. cbn.
    repeat split. lia.
Qed.

Lemma frames_readings in_range : forall c,
  exists n, map ticks_of (frames in_range c)
            = map (Clock.reading c) (seq (Clock.calls c) n).
Proof.
  induction in_range as [|ids rest IH]; intros c; cbn [frames].
  - by exists 0%nat.
  - unfold frame_calls. cbn [Clock.get_ticks].
    destruct (frame_checks_readings ids
                (Clock.mk (Clock.reading c) (S (Clock.calls c))))
      as (E1 & E2 & E3).
    destruct (frame_checks ids _) as [calls c2]. cbn [fst snd] in *.
    destruct (IH c2) as [n En].
    exists (S (length ids + n)).
    cbn [Clock.reading Clock.calls] in E1, E2, E3.
    cbn [map app ticks_of seq]. rewrite map_app, E1, En, E2, E3.
    f_equal. by rewrite seq_app, map_app.
Qed.

Lemma readings_sorted (reading : nat -> Z) n : forall k,
  (forall m, reading m <= reading (S m)) ->
  Sorted Z.le (map reading (seq k n)).
Proof.
  induction n as [|n IH]; intros k Hmono; cbn; [constructor|].
  constructor; [by apply IH|].
  destruct n; cbn; constructor. apply Hmono.
Qed.

Lemma frames_respect_tick_rate (c dmg : Q) (r : Z)
    (in_range : list (list Z)) (clock : Clock.t) :
  (forall m, Clock.reading clock m <= Clock.reading clock (S m)) ->
  separated c (run (frames in_range clock) (GarlicAura.init dmg r c)).2.
Proof.
  intros Hmono.
  destruct (frames_readings in_range clock) as [n En].
  pose proof (readings_sorted (Clock.reading clock) n (Clock.calls clock) Hmono)
    as Hsorted.
  rewrite <- En in Hsorted. unfold run.
  destruct (frames in_range clock) as [|call calls].
  - cbn. intros i j t1 t2 e _ H. by rewrite lookup_nil in H.
  - apply (run_preserves c (call :: calls) (ticks_of call));
      [apply init_invariant|].
    constructor; [exact Hsorted|]. constructor. cbn. lia.
Qed.

End Garlic.

(** ** The spawner's rate, selection and loop (systems/spawner.py) *)

Module SpawnerFacts.

Import Laws.

Lemma clamp_bounds (v lo hi : Q) :
  (lo <= hi)%Q -> (lo <= Py.clamp v lo hi <= hi)%Q.
Proof.
  intros H. unfold Py.clamp.
  destruct (PyFacts.min_spec hi v) as [[H1 ->]|[H1 ->]];
    destruct (PyFacts.max_spec lo v) as [[H2 E2]|[H2 E2]];
    destruct (PyFacts.max_spec lo hi) as [[H3 E3]|[H3 E3]];
    rewrite ?E2, ?E3; lra.
Qed.

Lemma floor_unique (x : Q) (n : Z) :
  (inject_Z n <= x)%Q -> (x < inject_Z (n + 1))%Q -> Qfloor x = n.
Proof.
  intros Hlo Hhi.
  pose proof (Qfloor_le x) as H1. pose proof (Qlt_floor x) as H2.
  assert (inject_Z (Qfloor x) < inject_Z (n + 1))%Q as H3 by lra.
  assert (inject_Z n < inject_Z (Qfloor x + 1))%Q as H4 by lra.
  rewrite <- Zlt_Qlt in H3, H4. lia.
Qed.

Lemma spawn_rate_le_max s :
  (EnemySpawner._get_spawn_rate s <= Settings.max_spawn_rate)%Q.
Proof.
  unfold EnemySpawner._get_spawn_rate.
  match goal with |- (Py.min ?a ?b <= _)%Q =>
    destruct (PyFacts.min_spec a b) as [[H ->]|[H ->]] end; lra.
Qed.

Lemma spawn_interval_pos s : (0 < SpawnerLoop.spawn_interval s)%Q.
Proof.
  unfold SpawnerLoop.spawn_interval.
  destruct (Py.ltb 0 (EnemySpawner._get_spawn_rate s)) eqn:E; [|reflexivity].
  apply PyFacts.ltb_lt in E.
  apply Qlt_shift_div_l; [exact E|lra].
Qed.

(** X1: the spawn rate never decreases with the game time: from the base
    rate of 1 enemy per second at time 0 it grows by 0.1 per minute up to
    the cap of 10 per second, which it reaches at 90 minutes (5400 s) and
    keeps from then on. *)
Theorem spawn_rate_monotone_capped (s1 s2 : EnemySpawner.t) :
  (0 <= EnemySpawner.game_time s1)%Q ->
  (EnemySpawner.game_time s1 <= EnemySpawner.game_time s2)%Q ->
  (Settings.base_spawn_rate <= EnemySpawner._get_spawn_rate s1)%Q
  /\ (EnemySpawner._get_spawn_rate s1 <= EnemySpawner._get_spawn_rate s2)%Q
  /\ (EnemySpawner._get_spawn_rate s2 <= Settings.max_spawn_rate)%Q
  /\ ((EnemySpawner.game_time s1 < 5400)%Q ->
      (EnemySpawner._get_spawn_rate s1
       == 1 + (1 # 10) * (EnemySpawner.game_time s1 / 60))%Q)
  /\ ((5400 <= EnemySpawner.game_time s1)%Q ->
      (EnemySpawner._get_spawn_rate s1 == Settings.max_spawn_rate)%Q).
Proof.
  intros H0 Hle. unfold EnemySpawner._get_spawn_rate.
  unfold Settings.base_spawn_rate, Settings.spawn_rate_increase,
    Settings.max_spawn_rate.
  destruct (PyFacts.min_spec (1 + (1 # 10) * (EnemySpawner.game_time s1 / 60)) 10)
    as [[H1 ->]|[H1 ->]];
  destruct (PyFacts.min_spec (1 + (1 # 10) * (EnemySpawner.game_time s2 / 60)) 10)
    as [[H2 ->]|[H2 ->]];
  unfold Qdiv in *; change (/ 60)%Q with (1 # 60) in *;
  repeat split; intros; lra.
Qed.

Lemma spawn_rate_monotone_capped_witness :
  (1 <= EnemySpawner._get_spawn_rate (EnemySpawner.at_time 600))%Q
  /\ (EnemySpawner._get_spawn_rate (EnemySpawner.at_time 600)
      <= EnemySpawner._get_spawn_rate (EnemySpawner.at_time 6000))%Q
  /\ (EnemySpawner._get_spawn_rate (EnemySpawner.at_time 6000) <= 10)%Q.
Proof.
  destruct (spawn_rate_monotone_capped (EnemySpawner.at_time 600)
              (EnemySpawner.at_time 6000)) as (H1 & H2 & H3 & _).
  - vm_compute; discriminate.
  - vm_compute; discriminate.
  - split; [exact H1|]. split; [exact H2|exact H3].
Defined.

Lemma pick_member roll : forall items cumulative,
  SpawnerLoop.pick roll cumulative items ∈ map fst items
  \/ SpawnerLoop.pick roll cumulative items = "chaser"%string.
Proof.
  induction items as [|[k w] items IH]; intros c; cbn; [by right|].
  destruct (Py.leb roll (c + w)).
  - left. left.
  - destruct (IH (c + w)%Q) as [H|H]; [left; by right|by right].
Qed.

Lemma adjusted_keys s :
  map fst (SpawnerLoop.adjusted_weights s)
  = ["chaser"; "tank"; "swarm"; "ghost"; "bat"]%string.
Proof.
  unfold SpawnerLoop.adjusted_weights.
  destruct (Py.ltb 2 _), (Py.ltb 3 _); reflexivity.
Qed.

Lemma select_cases s g :
  let k := (SpawnerLoop._select_enemy_type s g).1 in
  k = "chaser"%string \/ k = "tank"%string \/ k = "swarm"%string
  \/ k = "ghost"%string \/ k = "bat"%string.
Proof.
  cbn zeta. unfold SpawnerLoop._select_enemy_type.
  destruct (Qeq_bool _ 0); [by left|].
  destruct (Random.uniform _ _ g) as [roll g']. cbn [fst].
  destruct (pick_member roll (SpawnerLoop.adjusted_weights s) 0) as [H|H];
    [|by left].
  rewrite adjusted_keys in H.
  rewrite !elem_of_cons, elem_of_nil in H. tauto.
Qed.

(** X2: the weighted selection only ever returns one of the five types
    that carry a positive spawn weight (chaser, tank, swarm, ghost, bat),
    whatever the game time and the draw: the boss, whose weight is 0, is
    never selected, and the fallback is itself one of the five. *)
Theorem select_enemy_type_weighted (s : EnemySpawner.t) (g : Random.t) :
  map fst SpawnerLoop.enemy_weights
  = ["chaser"; "tank"; "swarm"; "ghost"; "bat"]%string
  /\ (SpawnerLoop._select_enemy_type s g).1 ∈ map fst SpawnerLoop.enemy_weights
  /\ (SpawnerLoop._select_enemy_type s g).1 <> "boss"%string.
Proof.
  split; [reflexivity|].
  change (map fst SpawnerLoop.enemy_weights)
    with ["chaser"; "tank"; "swarm"; "ghost"; "bat"]%string.
  rewrite !elem_of_cons, elem_of_nil.
  destruct (select_cases s g) as [H|[H|[H|[H|H]]]]; cbn zeta in H; rewrite H;
    (split; [tauto|discriminate]).
Qed.

Lemma swarm_copies_members n : forall enemy_type ident pos rect_at m g e,
  e ∈ (EnemySpawner.swarm_copies n enemy_type ident pos rect_at m g).1 ->
  inside_margin (Enemy.pos e)
  /\ exists ident' r',
       e = Enemy.create_enemy enemy_type ident' (Enemy.pos e) r' m.
Proof.
  induction n as [|n IH]; intros enemy_type ident pos rect_at m g e;
    cbn [EnemySpawner.swarm_copies].
  - intros H. by apply elem_of_nil in H.
  - destruct (Random.uniform (-30) 30 g) as [ox g1].
    destruct (Random.uniform (-30) 30 g1) as [oy g2].
    destruct (EnemySpawner.swarm_copies n enemy_type (ident + 1) pos rect_at m g2)
      as [rest g3] eqn:E.
    cbn [fst]. rewrite elem_of_cons. intros [->|H].
    + split.
      * unfold Enemy.create_enemy.
        destruct (Py.get enemy_type Settings.ENEMY_DATA); cbn;
          (split; apply clamp_bounds; vm_compute; discriminate).
      * eexists _, _.
        unfold Enemy.create_enemy.
        destruct (Py.get enemy_type Settings.ENEMY_DATA); reflexivity.
    + apply (IH enemy_type (ident + 1) pos rect_at m g2 e).
      by rewrite E.
Qed.

Lemma swarm_copies_length n : forall enemy_type ident pos rect_at m g,
  length (EnemySpawner.swarm_copies n enemy_type ident pos rect_at m g).1 = n.
Proof.
  induction n as [|n IH]; intros enemy_type ident pos rect_at m g;
    cbn [EnemySpawner.swarm_copies]; [reflexivity|].
  destruct (Random.uniform (-30) 30 g) as [ox g1].
  destruct (Random.uniform (-30) 30 g1) as [oy g2].
  specialize (IH enemy_type (ident + 1) pos rect_at m g2).
  destruct (EnemySpawner.swarm_copies n enemy_type (ident + 1) pos rect_at m g2)
    as [rest g3].
  cbn [fst length] in *. by rewrite IH.
Qed.

Lemma swarm_copies_ids n : forall enemy_type ident pos rect_at m g,
  map Enemy.id
    (EnemySpawner.swarm_copies n enemy_type ident pos rect_at m g).1
  = seqZ ident (Z.of_nat n).
Proof.
  induction n as [|n IH]; intros enemy_type ident pos rect_at m g;
    [reflexivity|].
  cbn [EnemySpawner.swarm_copies].
  destruct (Random.uniform (-30) 30 g) as [ox g1].
  destruct (Random.uniform (-30) 30 g1) as [oy g2].
  specialize (IH enemy_type (ident + 1) pos rect_at m g2).
  destruct (EnemySpawner.swarm_copies n enemy_type (ident + 1) pos rect_at m g2)
    as [rest g3].
  cbn [fst map] in *. rewrite IH.
  rewrite Nat2Z.inj_succ, (seqZ_cons ident) by lia.
  f_equal.
  - unfold Enemy.create_enemy.
    by destruct (Py.get enemy_type Settings.ENEMY_DATA).
  - f_equal; lia.
Qed.

Lemma position_inside ring_offset player_pos g :
  inside_margin
    (SpawnerLoop.get_spawn_position_outside_camera ring_offset player_pos g).1.
Proof.
  unfold SpawnerLoop.get_spawn_position_outside_camera.
  destruct (Random.random g) as [r g']. cbn.
  split; apply clamp_bounds; vm_compute; discriminate.
Qed.

(** X3: one [spawn_enemy(player_pos)] call creates a batch of one type,
    five enemies for a swarm and one otherwise; the spawner's count grows by
    the size of the batch, and every enemy of the batch, the clustered
    swarm copies included, stands inside the 50-pixel margin of the
    2000 x 2000 world. *)
Theorem spawn_enemy_batch (ring_offset : Q -> Vector2)
    (rect_at : Vector2 -> Rect.t) (player_pos : Vector2) (g : Random.t)
    (s : EnemySpawner.t) :
  let '(enemies, s', _) :=
    SpawnerLoop.spawn_enemy ring_offset rect_at player_pos g s in
  let enemy_type := (SpawnerLoop._select_enemy_type s g).1 in
  length enemies = (if String.eqb enemy_type "swarm" then 5 else 1)%nat
  /\ EnemySpawner.total_spawned s'
     = EnemySpawner.total_spawned s + Z.of_nat (length enemies)
  /\ map Enemy.id enemies
     = seqZ (EnemySpawner.total_spawned s) (Z.of_nat (length enemies))
  /\ (forall e, e ∈ enemies ->
        Enemy.enemy_type e = enemy_type /\ Enemy.alive e = true
        /\ inside_margin (Enemy.pos e)).
Proof.
  unfold SpawnerLoop.spawn_enemy.
  pose proof (select_cases s g) as Hk. cbn zeta in Hk.
  destruct (SpawnerLoop._select_enemy_type s g) as [k g1]. cbn [fst] in *.
  pose proof (position_inside ring_offset player_pos g1) as Hpos.
  destruct (SpawnerLoop.get_spawn_position_outside_camera ring_offset
              player_pos g1) as [pos g2]. cbn [fst] in Hpos.
  unfold EnemySpawner.spawn_enemy.
  set (m := EnemySpawner._get_difficulty_multiplier s).
  set (n := match Py.get k Settings.ENEMY_DATA with
            | Some d =>
                match Settings.e_spawn_count d with
                | Some c => c
                | None => 1%nat
                end
            | None => 1%nat
            end).
  pose proof (swarm_copies_length (n - 1) k (EnemySpawner.total_spawned s + 1)
                pos rect_at m g2) as Hlen.
  pose proof (swarm_copies_ids (n - 1) k (EnemySpawner.total_spawned s + 1)
                pos rect_at m g2) as Hids.
  pose proof (fun e =>
    swarm_copies_members (n - 1) k (EnemySpawner.total_spawned s + 1)
      pos rect_at m g2 e) as Hmem.
  destruct (EnemySpawner.swarm_copies (n - 1) k
              (EnemySpawner.total_spawned s + 1) pos rect_at m g2)
    as [copies g3].
  cbn [fst] in *. cbn [length EnemySpawner.total_spawned].
  assert (n = if String.eqb k "swarm" then 5%nat else 1%nat) as Hn
    by (destruct Hk as [->|[->|[->|[->| ->]]]]; reflexivity).
  assert (Enemy.enemy_type (Enemy.create_enemy k (EnemySpawner.total_spawned s)
                              pos (rect_at pos) m) = k
          /\ forall ident r p',
               Enemy.enemy_type (Enemy.create_enemy k ident p' r m) = k) as [Hty Hty']
    by (destruct Hk as [->|[->|[->|[->| ->]]]]; split; reflexivity).
  rewrite Hlen.
  split; [rewrite <- Hn; destruct Hk as [->|[->|[->|[->| ->]]]]; reflexivity|].
  split; [reflexivity|].
  split.
  - cbn [map]. rewrite Hids.
    rewrite Nat2Z.inj_succ, (seqZ_cons (EnemySpawner.total_spawned s)) by lia.
    f_equal; [|f_equal; lia].
    unfold Enemy.create_enemy.
    by destruct (Py.get k Settings.ENEMY_DATA).
  - intros e. rewrite elem_of_cons. intros [->|He].
    + split; [exact Hty|]. split.
      * unfold Enemy.create_enemy.
        by destruct (Py.get k Settings.ENEMY_DATA).
      * unfold Enemy.create_enemy.
        by destruct (Py.get k Settings.ENEMY_DATA).
    + destruct (Hmem e He) as [Hin (ident' & r' & He')].
      split; [rewrite He'; apply Hty'|]. split; [|exact Hin].
      rewrite He'. unfold Enemy.create_enemy.
      by destruct (Py.get k Settings.ENEMY_DATA).
Qed.

Lemma intervals_small (t i : Q) :
  (0 < i)%Q -> (t < i)%Q -> SpawnerLoop.intervals t i = 0%nat.
Proof.
  intros Hi Ht. unfold SpawnerLoop.intervals.
  assert (t / i < 1)%Q as H by (apply Qlt_shift_div_r; lra).
  pose proof (Qfloor_le (t / i)) as H1.
  assert (inject_Z (Qfloor (t / i)) < inject_Z 1)%Q as H2
    by (change (inject_Z 1) with 1%Q; set (x := (t / i)%Q) in *; lra).
  rewrite <- Zlt_Qlt in H2. lia.
Qed.

Lemma intervals_step (t i : Q) :
  (0 < i)%Q -> (i <= t)%Q ->
  SpawnerLoop.intervals t i = S (SpawnerLoop.intervals (t - i) i).
Proof.
  intros Hi Ht. unfold SpawnerLoop.intervals.
  assert ((t - i) / i == t / i - 1)%Q as E by (field; lra).
  assert (1 <= t / i)%Q as H1 by (apply Qle_shift_div_l; lra).
  assert (1 <= Qfloor (t / i)) as H2.
  { change 1 with (Qfloor 1). by apply Qfloor_resp_le. }
  assert (Qfloor ((t - i) / i) = Qfloor (t / i) - 1) as ->.
  { apply floor_unique.
    - rewrite E. pose proof (Qfloor_le (t / i)) as H.
      unfold Z.sub. rewrite inject_Z_plus.
      change (inject_Z (- (1))) with (-1)%Q.
      set (x := (t / i)%Q) in *. lra.
    - rewrite E. pose proof (Qlt_floor (t / i)) as H.
      replace (Qfloor (t / i) - 1 + 1) with (Qfloor (t / i)) by lia.
      rewrite inject_Z_plus in H. change (inject_Z 1) with 1%Q in H.
      set (x := (t / i)%Q) in *. lra. }
  lia.
Qed.

Lemma spawn_enemy_frame ring_offset rect_at player_pos g s :
  let s' := (SpawnerLoop.spawn_enemy ring_offset rect_at player_pos g s).1.2 in
  EnemySpawner.spawn_timer s' = EnemySpawner.spawn_timer s
  /\ EnemySpawner.game_time s' = EnemySpawner.game_time s
  /\ EnemySpawner.last_boss_time s' = EnemySpawner.last_boss_time s
  /\ (SpawnerLoop.spawn_enemy ring_offset rect_at player_pos g s).1.1 <> [].
Proof.
  unfold SpawnerLoop.spawn_enemy.
  destruct (SpawnerLoop._select_enemy_type s g) as [k g1].
  destruct (SpawnerLoop.get_spawn_position_outside_camera ring_offset
              player_pos g1) as [pos g2].
  unfold EnemySpawner.spawn_enemy.
  destruct (EnemySpawner.swarm_copies _ _ _ _ _ _ _) as [copies g3].
  cbn. done.
Qed.

(** The loop ends by its own test once it has as many rounds as the timer
    holds intervals, and one more. *)
Lemma spawn_loop_spec ring_offset rect_at fuel :
  forall interval player_pos s g acc,
  (0 < interval)%Q ->
  (SpawnerLoop.intervals (EnemySpawner.spawn_timer s) interval < fuel)%nat ->
  let r := SpawnerLoop.spawn_loop ring_offset rect_at fuel interval
             player_pos s g acc in
  let n := SpawnerLoop.intervals (EnemySpawner.spawn_timer s) interval in
  (exists new, r.1.1 = acc ++ new /\ length new = n /\ Forall (fun b => b <> []) new)
  /\ (EnemySpawner.spawn_timer r.1.2
      == EnemySpawner.spawn_timer s - inject_Z (Z.of_nat n) * interval)%Q
  /\ (EnemySpawner.spawn_timer r.1.2 < interval)%Q
  /\ ((0 <= EnemySpawner.spawn_timer s)%Q ->
      (0 <= EnemySpawner.spawn_timer r.1.2)%Q)
  /\ EnemySpawner.game_time r.1.2 = EnemySpawner.game_time s
  /\ EnemySpawner.last_boss_time r.1.2 = EnemySpawner.last_boss_time s.
Proof.
  induction fuel as [|fuel IH]; intros interval player_pos s g acc Hi Hfuel;
    [lia|].
  cbn [SpawnerLoop.spawn_loop].
  destruct (Py.leb interval (EnemySpawner.spawn_timer s)) eqn:E.
  - apply PyFacts.leb_le in E.
    set (s1 := SpawnerLoop.set_spawn_timer
                 (EnemySpawner.spawn_timer s - interval) s).
    pose proof (spawn_enemy_frame ring_offset rect_at player_pos g s1)
      as (Ft & Fg & Fb & Fne).
    destruct (SpawnerLoop.spawn_enemy ring_offset rect_at player_pos g s1)
      as [[enemies s2] g'].
    cbn [fst snd] in Ft, Fg, Fb, Fne.
    cbn [SpawnerLoop.set_spawn_timer EnemySpawner.spawn_timer
         EnemySpawner.game_time EnemySpawner.last_boss_time s1] in Ft, Fg, Fb.
    pose proof (intervals_step _ _ Hi E) as Hn.
    rewrite Hn in Hfuel |- *. rewrite <- Ft in Hn, Hfuel |- *.
    destruct (IH interval player_pos s2 g' (acc ++ [enemies]) Hi)
      as ((new & E1 & E2 & E3) & Ht & Hlt & Hge & Hgt & Hbt); [lia|].
    cbn zeta. split; [|split; [|split; [|split; [|split]]]].
    + exists (enemies :: new). rewrite E1, <- app_assoc. cbn.
      split; [done|]. split; [by rewrite E2|]. by constructor.
    + apply (Qeq_trans _ _ _ Ht).
      rewrite Nat2Z.inj_succ. unfold Z.succ. rewrite inject_Z_plus.
      change (inject_Z 1) with 1%Q. rewrite Ft. ring.
    + exact Hlt.
    + intros H0. apply Hge. rewrite Ft. lra.
    + by rewrite Hgt.
    + by rewrite Hbt.
  - apply PyFacts.leb_gt in E.
    rewrite (intervals_small _ _ Hi E). cbn [fst snd].
    cbn zeta. split; [|split; [|split; [|split; [|split]]]];
      try done.
    + exists []. by rewrite app_nil_r.
    + change (inject_Z (Z.of_nat 0)) with 0%Q. ring.
Qed.

Lemma update_frame ring_offset rect_at dt player_pos s g :
  let '(_, boss, s', _) :=
    SpawnerLoop.update ring_offset rect_at dt player_pos s g in
  EnemySpawner.game_time s' = (EnemySpawner.game_time s + dt)%Q
  /\ match boss with
     | Some _ =>
         (Settings.boss_spawn_interval
          <= EnemySpawner.game_time s' - EnemySpawner.last_boss_time s)%Q
         /\ (Settings.boss_spawn_interval <= EnemySpawner.game_time s')%Q
         /\ EnemySpawner.last_boss_time s' = EnemySpawner.game_time s'
     | None => EnemySpawner.last_boss_time s' = EnemySpawner.last_boss_time s
     end.
Proof.
  unfold SpawnerLoop.update.
  set (s1 := EnemySpawner.mk _ _ _ _ _).
  pose proof (spawn_loop_spec ring_offset rect_at
                (S (SpawnerLoop.intervals (EnemySpawner.spawn_timer s1)
                      (SpawnerLoop.spawn_interval s1)))
                (SpawnerLoop.spawn_interval s1) player_pos s1 g []
                (spawn_interval_pos s1)) as H.
  destruct H as (_ & _ & _ & _ & Hg & Hb); [lia|].
  destruct (SpawnerLoop.spawn_loop _ _ _ _ _ _ _ _) as [[batches s2] g1].
  cbn [fst snd] in Hg, Hb.
  destruct (Py.leb _ _ && Py.leb _ _) eqn:E.
  - apply andb_true_iff in E as [E1 E2].
    apply PyFacts.leb_le in E1, E2.
    unfold SpawnerLoop.spawn_boss.
    destruct (SpawnerLoop.get_spawn_position_outside_camera _ _ _) as [pos g2].
    cbn. rewrite Hg, Hb in *. cbn in *. done.
  - rewrite Hg, Hb. done.
Qed.

(** X4: one [update(dt, ...)] adds [dt] to the game time and to the spawn
    timer and then calls [spawn_enemy] once for every whole spawn interval
    the timer holds, so that several intervals elapsed in one tick give
    several batches; it leaves the remainder, below one interval, on the
    timer.  The interval, the inverse of the spawn rate at the new game
    time, is positive, so the loop always ends. *)
Theorem update_spawns_per_interval (ring_offset : Q -> Vector2)
    (rect_at : Vector2 -> Rect.t) (dt : Q) (player_pos : Vector2)
    (s : EnemySpawner.t) (g : Random.t) :
  let '(batches, _, s', _) :=
    SpawnerLoop.update ring_offset rect_at dt player_pos s g in
  let timer := (EnemySpawner.spawn_timer s + dt)%Q in
  let interval := SpawnerLoop.spawn_interval s' in
  EnemySpawner.game_time s' = (EnemySpawner.game_time s + dt)%Q
  /\ (0 < interval)%Q
  /\ length batches = SpawnerLoop.intervals timer interval
  /\ Forall (fun batch => batch <> []) batches
  /\ (EnemySpawner.spawn_timer s'
      == timer - inject_Z (Z.of_nat (length batches)) * interval)%Q
  /\ (EnemySpawner.spawn_timer s' < interval)%Q
  /\ ((0 <= timer)%Q -> (0 <= EnemySpawner.spawn_timer s')%Q).
Proof.
  unfold SpawnerLoop.update.
  set (s1 := EnemySpawner.mk _ _ _ _ _).
  pose proof (spawn_loop_spec ring_offset rect_at
                (S (SpawnerLoop.intervals (EnemySpawner.spawn_timer s1)
                      (SpawnerLoop.spawn_interval s1)))
                (SpawnerLoop.spawn_interval s1) player_pos s1 g []
                (spawn_interval_pos s1)) as H.
  destruct H as ((new & E1 & E2 & E3) & Ht & Hlt & Hge & Hg & Hb); [lia|].
  destruct (SpawnerLoop.spawn_loop _ _ _ _ _ _ _ _) as [[batches s2] g1].
  cbn [fst snd] in *. cbn [app] in E1. subst batches.
  assert (SpawnerLoop.spawn_interval s2 = SpawnerLoop.spawn_interval s1) as Hi
    by (unfold SpawnerLoop.spawn_interval, EnemySpawner._get_spawn_rate;
        by rewrite Hg).
  assert (forall s3,
    EnemySpawner.game_time s3 = EnemySpawner.game_time s2 ->
    EnemySpawner.spawn_timer s3 = EnemySpawner.spawn_timer s2 ->
    EnemySpawner.game_time s3 = (EnemySpawner.game_time s + dt)%Q
    /\ (0 < SpawnerLoop.spawn_interval s3)%Q
    /\ length new
       = SpawnerLoop.intervals (EnemySpawner.spawn_timer s + dt)
           (SpawnerLoop.spawn_interval s3)
    /\ Forall (fun batch => batch <> []) new
    /\ (EnemySpawner.spawn_timer s3
        == EnemySpawner.spawn_timer s + dt
           - inject_Z (Z.of_nat (length new)) * SpawnerLoop.spawn_interval s3)%Q
    /\ (EnemySpawner.spawn_timer s3 < SpawnerLoop.spawn_interval s3)%Q
    /\ ((0 <= EnemySpawner.spawn_timer s + dt)%Q ->
        (0 <= EnemySpawner.spawn_timer s3)%Q)) as Hall.
  { intros s3 G3 T3.
    assert (SpawnerLoop.spawn_interval s3 = SpawnerLoop.spawn_interval s1) as ->
      by (unfold SpawnerLoop.spawn_interval, EnemySpawner._get_spawn_rate;
          by rewrite G3, Hg).
    rewrite G3, T3, Hg, E2.
    split; [reflexivity|]. split; [apply spawn_interval_pos|].
    split; [reflexivity|]. split; [exact E3|].
    split; [exact Ht|]. split; [exact Hlt|exact Hge]. }
  destruct (Py.leb _ _ && Py.leb _ _).
  - unfold SpawnerLoop.spawn_boss.
    destruct (SpawnerLoop.get_spawn_position_outside_camera _ _ _) as [pos g2].
    cbn [EnemySpawner.spawn_boss]. apply Hall; reflexivity.
  - apply Hall; reflexivity.
Qed.

Lemma spaced_snoc gap log t :
  spaced gap log ->
  (forall t', t' ∈ log -> (gap <= t - t')%Q) ->
  spaced gap (log ++ [t]).
Proof.
  intros Hs Hnew i j t1 t2 Hij H1 H2.
  destruct (decide (j < length log)%nat) as [Hj|Hj].
  - rewrite lookup_app_l in H1, H2 by lia. by apply (Hs i j).
  - assert (j = length log) as ->.
    { apply lookup_lt_Some in H2. rewrite length_app in H2. cbn in H2. lia. }
    rewrite lookup_app_l in H1 by lia.
    rewrite lookup_app_r, Nat.sub_diag in H2 by lia.
    cbn in H2. injection H2 as <-.
    apply Hnew. by eapply list_elem_of_lookup_2.
Qed.

Lemma run_spec ring_offset rect_at frames : forall s g log,
  spaced Settings.boss_spawn_interval log ->
  (forall t, t ∈ log ->
     (Settings.boss_spawn_interval <= t)%Q
     /\ (t <= EnemySpawner.last_boss_time s)%Q) ->
  let log' := (SpawnerLoop.run ring_offset rect_at frames s g log).2 in
  spaced Settings.boss_spawn_interval log'
  /\ (forall t, t ∈ log' -> (Settings.boss_spawn_interval <= t)%Q)
  /\ (length log' <= length log + length frames)%nat.
Proof.
  induction frames as [|[dt player_pos] frames IH]; intros s g log Hs Hin.
  - cbn. split; [exact Hs|]. split; [|lia]. intros t Ht. by apply Hin.
  - cbn [SpawnerLoop.run].
    pose proof (update_frame ring_offset rect_at dt player_pos s g) as Hu.
    destruct (SpawnerLoop.update ring_offset rect_at dt player_pos s g)
      as [[[batches boss] s'] g'].
    destruct Hu as [Hg Hboss].
    destruct boss as [b|].
    + destruct Hboss as (H1 & H2 & H3).
      destruct (IH s' g' (log ++ [EnemySpawner.game_time s']))
        as (R1 & R2 & R3).
      * apply spaced_snoc; [exact Hs|].
        intros t' Ht'. destruct (Hin t' Ht') as [_ Hle]. lra.
      * intros t. rewrite elem_of_app, list_elem_of_singleton.
        intros [Ht| ->].
        -- destruct (Hin t Ht) as [Ha Hb]. split; [exact Ha|].
           rewrite H3. unfold Settings.boss_spawn_interval in *. lra.
        -- split; [exact H2|]. rewrite H3. lra.
      * cbn zeta in *. split; [exact R1|]. split; [exact R2|].
        rewrite length_app in R3. cbn in *. lia.
    + destruct (IH s' g' log) as (R1 & R2 & R3).
      * exact Hs.
      * intros t Ht. rewrite Hboss. by apply Hin.
      * cbn zeta in *. split; [exact R1|]. split; [exact R2|]. cbn. lia.
Qed.

(** X5: over any sequence of frames from a fresh spawner, a boss spawns at
    most once per frame, never before the game time has reached 600 s, and
    any two boss spawns are at least 600 s of game time apart. *)
Theorem bosses_ten_minutes_apart (ring_offset : Q -> Vector2)
    (rect_at : Vector2 -> Rect.t) (frames : list (Q * Vector2))
    (g : Random.t) :
  let boss_times :=
    (SpawnerLoop.run ring_offset rect_at frames EnemySpawner.init g []).2 in
  (length boss_times <= length frames)%nat
  /\ (forall t, t ∈ boss_times -> (Settings.boss_spawn_interval <= t)%Q)
  /\ spaced Settings.boss_spawn_interval boss_times.
Proof.
  destruct (run_spec ring_offset rect_at frames EnemySpawner.init g [])
    as (R1 & R2 & R3).
  - intros i j t1 t2 _ H. by rewrite lookup_nil in H.
  - intros t Ht. by apply elem_of_nil in Ht.
  - cbn zeta in *. split; [exact R3|]. split; [exact R2|exact R1].
Qed.

End SpawnerFacts.

(** ** The player's hit points and the two damage gates over time
    (entities/player.py, entities/enemy.py) *)

Module Vitals.

Import Laws.

Ltac psimpl :=
  cbn [Player.max_hp Player.hp Player.move_speed Player.pickup_radius
       Player.might Player.cooldown_reduction Player.armor Player.regen
       Player.level Player.xp Player.xp_to_next_level
       Player.i_frames_duration Player.i_frames_timer Player.is_invincible
       Player.damage_taken Player.dead Player.hitbox Player.unlimited_health
       Player.regen_timer Player.set_hp Player.set_progress
       Player.set_i_frames Player.set_damage_taken Player.set_dead
       Player.set_stats Player.set_regen_timer fst snd] in *.

Lemma heal_vital a p : (0 <= a)%Q -> vital p -> vital (Player.heal a p).
Proof.
  intros Ha (H0 & H1 & H2). unfold vital, Player.heal. psimpl.
  destruct (PyFacts.min_spec (Player.hp p + a) (Player.max_hp p))
    as [[H ->]|[H ->]].
  - repeat split; try lra. intros Hd. specialize (H2 Hd). lra.
  - repeat split; try lra. intros Hd. specialize (H2 Hd). lra.
Qed.

Lemma get_hit_vital d p : vital p -> vital (Player.get_hit d p).1.
Proof.
  intros (H0 & H1 & H2). unfold Player.get_hit.
  destruct (Player.is_invincible p || Player.dead p); [done|].
  destruct (Player.unlimited_health p); [done|]. psimpl.
  pose proof (PyFacts.max_ge_l 1 (d - Player.armor p)) as Hd.
  destruct (Py.leb _ 0) eqn:E; unfold vital; psimpl.
  - split; [lra|]. split; [lra|discriminate].
  - apply PyFacts.leb_gt in E. split; [lra|]. split; [lra|intros _; lra].
Qed.

Lemma level_up_vital p : vital p -> vital (Player.level_up p).1.
Proof.
  intros (H0 & H1 & H2). unfold Player.level_up. cbn [fst].
  apply heal_vital; psimpl; [|done].
  assert (0 <= Player.max_hp p)%Q by lra. lra.
Qed.

Lemma gain_xp_vital a p : vital p -> vital (Player.gain_xp a p).1.
Proof.
  intros H. unfold Player.gain_xp.
  destruct (_ <=? _); [|exact H].
  apply level_up_vital. exact H.
Qed.

Lemma update_i_frames_hp dt p :
  Player.hp (Player.update_i_frames dt p) = Player.hp p
  /\ Player.max_hp (Player.update_i_frames dt p) = Player.max_hp p
  /\ Player.dead (Player.update_i_frames dt p) = Player.dead p
  /\ Player.regen (Player.update_i_frames dt p) = Player.regen p.
Proof.
  unfold Player.update_i_frames.
  destruct (Player.is_invincible p); [|done]. psimpl.
  by destruct (_ <=? 0)%float.
Qed.

Lemma update_vital dt p : vital p -> vital (Player.update dt p).
Proof.
  intros H. unfold Player.update.
  destruct (Player.dead p) eqn:Ed; [exact H|].
  destruct (update_i_frames_hp dt p) as (E1 & E2 & E3 & E4).
  assert (vital (Player.update_i_frames dt p)) as H'
    by (unfold vital; rewrite E1, E2, E3; exact H).
  unfold Player.update_regen.
  destruct (Py.ltb 0 _ && Py.ltb _ _) eqn:E; [|exact H'].
  apply andb_true_iff in E as [Er _]. apply PyFacts.ltb_lt in Er.
  psimpl. destruct (1 <=? _)%float.
  - apply heal_vital; psimpl; [lra|exact H'].
  - exact H'.
Qed.

Lemma passive_value_nonneg pid d :
  Py.get pid Settings.PASSIVE_DATA = Some d -> (0 <= Settings.p_value d)%Q.
Proof.
  intros H. apply PyFacts.get_Some_elem in H.
  unfold Settings.PASSIVE_DATA in H.
  rewrite !elem_of_cons, elem_of_nil in H.
  destruct H as [H|[H|[H|[H|[H|[H|[H|[]]]]]]]]; injection H as _ ->;
    vm_compute; discriminate.
Qed.

Lemma apply_passive_vital d p :
  (0 <= Settings.p_value d)%Q -> vital p -> vital (Player.apply_passive d p).
Proof.
  intros Hv (H0 & H1 & H2). unfold Player.apply_passive, vital.
  destruct (Settings.p_stat d); psimpl; repeat split; try lra; try done.
  intros Hd. specialize (H2 Hd). lra.
Qed.

Lemma apply_upgrade_vital u p c :
  vital p -> vital (WeaponController.apply_upgrade u p c).1.1.
Proof.
  intros H. unfold WeaponController.apply_upgrade.
  destruct (WeaponController.u_kind u).
  - by destruct (WeaponController.add_weapon _ p c).
  - unfold WeaponController.add_passive.
    destruct (Py.get _ Settings.PASSIVE_DATA) as [d|] eqn:Ed; [|done].
    pose proof (passive_value_nonneg _ _ Ed) as Hv.
    destruct (Py.get _ (WeaponController.passives c)) as [lv|].
    + destruct (lv <? _); [|done]. by apply apply_passive_vital.
    + destruct (_ <=? _)%nat; [done|]. by apply apply_passive_vital.
  - by destruct (WeaponController.evolve_weapon _ c).
Qed.

Lemma step_vital st e :
  heals_nonneg e -> vital st.1 -> vital (Session.step st e).1.
Proof.
  intros He H. destruct e as [u|d|a|a|dt]; cbn [Session.step fst].
  - by apply apply_upgrade_vital.
  - by apply get_hit_vital.
  - by apply heal_vital.
  - by apply gain_xp_vital.
  - by apply update_vital.
Qed.

(** X6: over any session (upgrades, hits, heals of non-negative amounts,
    XP gains and frames, in any order) from a fresh player, the hit points
    stay between 0 and the maximum, and a player not marked dead has
    strictly positive hit points. *)
Theorem hit_points_bounded (box : Rect.t) (cheat : bool)
    (events : list Session.event) :
  Forall heals_nonneg events ->
  let p := (Session.run events (Session.start box cheat)).1 in
  (0 <= Player.hp p)%Q /\ (Player.hp p <= Player.max_hp p)%Q
  /\ (Player.dead p = false -> (0 < Player.hp p)%Q).
Proof.
  intros Hev.
  assert (vital (Session.start box cheat).1) as H0.
  { unfold vital. cbn. repeat split; vm_compute; congruence. }
  revert H0. generalize (Session.start box cheat).
  induction Hev as [|e events He Hev IH]; intros st H0; [exact H0|].
  cbn [Session.run fold_left]. apply IH. by apply step_vital.
Qed.

Lemma hit_points_bounded_witness :
  let p :=
    (Session.run
       [Session.Hit 30; Session.Tick 0.6; Session.Heal 20;
        Session.Upgrade
          (WeaponController.mk_upgrade WeaponController.k_passive
             "max_hp_boost" true 0);
        Session.Hit 200]
       (Session.start (Rect.mk 0 0 40 40) false)).1 in
  (0 <= Player.hp p)%Q /\ (Player.hp p <= Player.max_hp p)%Q
  /\ (Player.dead p = false -> (0 < Player.hp p)%Q).
Proof.
  apply (hit_points_bounded (Rect.mk 0 0 40 40) false).
  repeat constructor. cbn. lra.
Defined.

Lemma step_cheat st e :
  Player.unlimited_health st.1 = true /\ Player.dead st.1 = false
  /\ Player.damage_taken st.1 = 0%Q ->
  Player.unlimited_health (Session.step st e).1 = true
  /\ Player.dead (Session.step st e).1 = false
  /\ Player.damage_taken (Session.step st e).1 = 0%Q.
Proof.
  intros (Hc & Hd & Ht). destruct e as [u|d|a|a|dt]; cbn [Session.step fst].
  - unfold WeaponController.apply_upgrade.
    destruct (WeaponController.u_kind u).
    + by destruct (WeaponController.add_weapon _ _ _).
    + unfold WeaponController.add_passive.
      destruct (Py.get _ Settings.PASSIVE_DATA) as [pd|]; [|done].
      destruct (Py.get _ (WeaponController.passives _)) as [lv|].
      * destruct (lv <? _); [|done]. unfold Player.apply_passive.
        by destruct (Settings.p_stat pd).
      * destruct (_ <=? _)%nat; [done|]. unfold Player.apply_passive.
        by destruct (Settings.p_stat pd).
    + by destruct (WeaponController.evolve_weapon _ _).
  - unfold Player.get_hit. rewrite Hc.
    by destruct (Player.is_invincible _ || Player.dead _).
  - done.
  - unfold Player.gain_xp. by destruct (_ <=? _).
  - unfold Player.update. rewrite Hd.
    destruct (update_i_frames_hp dt st.1) as (_ & _ & E3 & _).
    assert (Player.unlimited_health (Player.update_i_frames dt st.1) = true
            /\ Player.damage_taken (Player.update_i_frames dt st.1) = 0%Q)
      as [E5 E6].
    { unfold Player.update_i_frames.
      destruct (Player.is_invincible _); [|done]. psimpl.
      by destruct (_ <=? 0)%float. }
    unfold Player.update_regen.
    destruct (Py.ltb 0 _ && Py.ltb _ _); [|by rewrite E3].
    psimpl. destruct (1 <=? _)%float; unfold Player.heal; psimpl;
      by rewrite ?E3.
Qed.

(** X7: with the unlimited-health cheat on, no session ever marks the
    player dead or records damage taken, and in the state it reaches a hit
    of any size leaves the hit points as they are and reports no death. *)
Theorem unlimited_health_never_dies (box : Rect.t)
    (events : list Session.event) (damage : Q) :
  let p := (Session.run events (Session.start box true)).1 in
  Player.dead p = false
  /\ Player.damage_taken p = 0%Q
  /\ Player.hp (Player.get_hit damage p).1 = Player.hp p
  /\ (Player.get_hit damage p).2 = false.
Proof.
  cbn zeta.
  assert (Player.unlimited_health (Session.start box true).1 = true
          /\ Player.dead (Session.start box true).1 = false
          /\ Player.damage_taken (Session.start box true).1 = 0%Q) as H0
    by done.
  revert H0. generalize (Session.start box true).
  induction events as [|e events IH]; intros st H0.
  - destruct H0 as (Hc & Hd & Ht). cbn [Session.run fold_left].
    split; [exact Hd|]. split; [exact Ht|].
    unfold Player.get_hit. rewrite Hc.
    by destruct (Player.is_invincible _ || Player.dead _).
  - cbn [Session.run fold_left]. apply IH. by apply step_cheat.
Qed.

End Vitals.

(** ** Attack timing (utils.py [CooldownTimer], weapons/weapon_base.py) *)

Module Timing.

Import Laws.

Lemma update_timer ticks w :
  let r := Firing.update ticks w in
  CooldownTimer.duration (Weapon.cooldown_timer r.1)
  = CooldownTimer.duration (Weapon.cooldown_timer w)
  /\ (r.2 = true ->
      (CooldownTimer.duration (Weapon.cooldown_timer w) * 1000
       <= inject_Z ticks - CooldownTimer.last_time (Weapon.cooldown_timer w))%Q
      /\ CooldownTimer.last_time (Weapon.cooldown_timer r.1) = inject_Z ticks)
  /\ (r.2 = false -> r.1 = w).
Proof.
  cbn zeta. unfold Firing.update, CooldownTimer.use, CooldownTimer.ready.
  destruct (Py.leb _ _) eqn:E; cbn.
  - apply PyFacts.leb_le in E. split; [done|]. split; [done|discriminate].
  - split; [done|]. split; [discriminate|]. intros _. by destruct w.
Qed.

Lemma updates_spec readings : forall w attacks,
  (0 <= CooldownTimer.duration (Weapon.cooldown_timer w))%Q ->
  spaced (CooldownTimer.duration (Weapon.cooldown_timer w) * 1000)
    (map inject_Z attacks) ->
  (forall t, t ∈ attacks ->
     (inject_Z t <= CooldownTimer.last_time (Weapon.cooldown_timer w))%Q) ->
  spaced (CooldownTimer.duration (Weapon.cooldown_timer w) * 1000)
    (map inject_Z (Firing.updates readings w attacks).2).
Proof.
  induction readings as [|ticks readings IH]; intros w attacks Hd Hs Hin;
    [exact Hs|].
  cbn [Firing.updates].
  pose proof (update_timer ticks w) as (Ed & Hfire & Hidle). cbn zeta in *.
  destruct (Firing.update ticks w) as [w' fired]. cbn [fst snd] in *.
  rewrite <- Ed. destruct fired.
  - destruct (Hfire eq_refl) as [Hready Hlast].
    apply IH.
    + by rewrite Ed.
    + rewrite Ed, map_app. apply SpawnerFacts.spaced_snoc; [exact Hs|].
      intros t' Ht'. apply list_elem_of_fmap in Ht' as (t & -> & Ht).
      specialize (Hin t Ht). lra.
    + intros t. rewrite elem_of_app, list_elem_of_singleton, Hlast.
      intros [Ht| ->]; [|lra]. specialize (Hin t Ht). lra.
  - rewrite (Hidle eq_refl). apply IH; [exact Hd|exact Hs|exact Hin].
Qed.

(** X10: over any sequence of frames of [Weapon.update], with whatever
    clock readings, two attacks of a weapon whose stats are not recomputed
    in between are at least its cooldown (in milliseconds, its timer's
    duration times 1000) apart. *)
Theorem attacks_cooldown_apart (w : Weapon.t) (readings : list Z) :
  (0 <= CooldownTimer.duration (Weapon.cooldown_timer w))%Q ->
  spaced (CooldownTimer.duration (Weapon.cooldown_timer w) * 1000)
    (map inject_Z (Firing.updates readings w []).2).
Proof.
  intros Hd. apply updates_spec; [exact Hd| |].
  - cbn [map]. intros i j t1 t2 _ H. by rewrite lookup_nil in H.
  - intros t Ht. by apply elem_of_nil in Ht.
Qed.

Lemma attacks_cooldown_apart_witness :
  let w := Weapon.init "knife" Scenario.hero in
  (Firing.updates [0; 100; 299; 300; 650] w []).2 = [0; 300; 650]
  /\ spaced (CooldownTimer.duration (Weapon.cooldown_timer w) * 1000)
       (map inject_Z (Firing.updates [0; 100; 299; 300; 650] w []).2).
Proof.
  split; [reflexivity|].
  apply (attacks_cooldown_apart (Weapon.init "knife" Scenario.hero)
           [0; 100; 299; 300; 650]).
  vm_compute; discriminate.
Defined.

Lemma recalculated_ready p w ticks :
  0 <= ticks -> (Firing.update ticks (Weapon._recalculate_stats p w)).2 = true.
Proof.
  intros Ht. unfold Firing.update, CooldownTimer.use, CooldownTimer.ready.
  cbn [Weapon._recalculate_stats Weapon.cooldown_timer CooldownTimer.init
       CooldownTimer.duration CooldownTimer.last_time].
  match goal with |- context [Py.leb ?a ?b] =>
    assert (Py.leb a b = true) as -> end; [|reflexivity].
  apply PyFacts.leb_le.
  assert (0 <= inject_Z ticks)%Q by (change 0%Q with (inject_Z 0);
                                     by rewrite <- Zle_Qle).
  lra.
Qed.

Lemma weapon_update_base in_range c w :
  Weapon.aura w = None ->
  (Firing.weapon_update in_range c w).1.1.2
  = (Firing.update (Clock.reading c (Clock.calls c)) w).2.
Proof.
  intros H. unfold Firing.weapon_update. rewrite H. cbn [Clock.get_ticks].
  by destruct (Firing.update _ w).
Qed.

Lemma weapon_update_garlic in_range c w a :
  Weapon.aura w = Some a -> (Firing.weapon_update in_range c w).1.1.2 = false.
Proof.
  intros H. unfold Firing.weapon_update. rewrite H.
  destruct (AuraTrace.frame_calls in_range c) as [calls c'].
  by destruct (AuraTrace.run calls a).
Qed.

(** X11: recomputing a weapon's stats replaces its cooldown timer by a
    fresh one, so a weapon that attacks through [Weapon.update] (the whip,
    the wand, the axe, the knife) attacks on its very next update, however
    recently it attacked: this holds after a level-up of the weapon and
    after any passive is picked or levelled.  The Garlic, whose own
    [update] never reads the cooldown timer and never calls [attack], is
    not re-armed: a recomputation sets its aura's tick rate to the new
    cooldown and leaves the per-enemy tick times as they were. *)
Theorem recalculation_rearms (p : Player.t) (w : Weapon.t)
    (in_range : list Z) (c : Clock.t) :
  0 <= Clock.reading c (Clock.calls c) ->
  let attacks w' := (Firing.weapon_update in_range c w').1.1.2 in
  (Weapon.aura w = None ->
   attacks (Weapon._recalculate_stats p w) = true
   /\ ((Weapon.level_up p w).2 = true ->
       attacks (Weapon.level_up p w).1 = true)
   /\ (forall pid ctl p' ctl' wid,
         WeaponController.add_passive pid p ctl = (p', ctl', true) ->
         Py.get wid (WeaponController.weapons ctl) = Some w ->
         exists w',
           Py.get wid (WeaponController.weapons ctl') = Some w'
           /\ attacks w' = true))
  /\ (forall a,
        Weapon.aura w = Some a ->
        attacks (Weapon._recalculate_stats p w) = false
        /\ exists a',
             Weapon.aura (Weapon._recalculate_stats p w) = Some a'
             /\ GarlicAura.damage_timers a' = GarlicAura.damage_timers a
             /\ GarlicAura.tick_rate a'
                = Weapon.cooldown (Weapon._recalculate_stats p w)).
Proof.
  intros Ht attacks. subst attacks. cbn beta.
  assert (forall q v, Weapon.aura v = None ->
            Weapon.aura (Weapon._recalculate_stats q v) = None) as Hnone.
  { intros q v H. cbn. by rewrite H. }
  split.
  - intros Ha. split; [|split].
    + rewrite weapon_update_base by by apply Hnone.
      by apply recalculated_ready.
    + destruct (WeaponStats.level_up_cases p w) as [[_ E]|[_ E]];
        rewrite E; [|discriminate].
      intros _. cbn [fst].
      rewrite weapon_update_base by by apply Hnone.
      by apply recalculated_ready.
    + intros pid ctl p' ctl' wid Hadd Hget.
      exists (Weapon._recalculate_stats p' w).
      split; [by apply (Evolution.add_passive_recalculates pid p ctl p' ctl')|].
      rewrite weapon_update_base by by apply Hnone.
      by apply recalculated_ready.
  - intros a Ha. split.
    + eapply weapon_update_garlic. cbn. by rewrite Ha.
    + eexists. split; [cbn; by rewrite Ha|]. by cbn.
Qed.

(** An axe that attacked at 1000 ms is idle at 1001 ms, and attacks at
    1001 ms once its stats were recomputed or it was levelled up. *)
Lemma recalculation_rearms_witness :
  let c := Clock.mk (fun _ => 1001) 0 in
  let w := (Firing.update 1000 (Weapon.init "axe" Scenario.hero)).1 in
  (Firing.weapon_update [] c w).1.1.2 = false
  /\ (Firing.weapon_update [] c
        (Weapon._recalculate_stats Scenario.hero w)).1.1.2 = true
  /\ (Firing.weapon_update [] c (Weapon.level_up Scenario.hero w).1).1.1.2
     = true.
Proof.
  intros c w. split; [reflexivity|].
  destruct (recalculation_rearms Scenario.hero w [] c) as [H _];
    [cbn; lia|].
  destruct (H eq_refl) as (H1 & H2 & _).
  split; [exact H1|]. apply H2. reflexivity.
Defined.

End Timing.

(** ** The inventory over a session (weapons/controller.py) *)

Module Inventory.

Import Forms Laws WeaponController.

Lemma data_of_max_level wid : Settings.w_max_level (Weapon.data_of wid) = 8.
Proof.
  unfold Weapon.data_of, Settings.WEAPON_DATA. cbn [Py.get].
  repeat (destruct (String.eqb wid _)); reflexivity.
Qed.

Lemma passive_max_level pid pd :
  Py.get pid Settings.PASSIVE_DATA = Some pd -> Settings.p_max_level pd = 5.
Proof.
  intros H. apply PyFacts.get_Some_elem in H.
  unfold Settings.PASSIVE_DATA in H.
  rewrite !elem_of_cons, elem_of_nil in H.
  destruct H as [H|[H|[H|[H|[H|[H|[H|[]]]]]]]]; by injection H as _ ->.
Qed.

Lemma set_length {V : Type} k (v : V) d :
  length (Py.set k v d)
  = if Py.contains k d then length d else S (length d).
Proof.
  rewrite <- (length_map fst (Py.set k v d)), PyFacts.keys_set.
  destruct (Py.contains k d); rewrite ?length_app, length_map; cbn; lia.
Qed.

Lemma set_same {V : Type} k (v : V) d : Py.get k d = Some v -> Py.set k v d = d.
Proof.
  induction d as [|[k0 v0] d IH]; cbn; [done|].
  destruct (String.eqb k k0) eqn:E.
  - apply String.eqb_eq in E as ->. by intros [= ->].
  - intros H. by rewrite IH.
Qed.

Lemma controller_eta c :
  mk (weapons c) (passives c) (max_weapons c) (max_passives c) = c.
Proof. by destruct c. Qed.

Lemma evolve_frame w :
  let w' := (Weapon.evolve w).1 in
  Weapon.weapon_id w' = Weapon.weapon_id w /\ Weapon.data w' = Weapon.data w
  /\ Weapon.max_level w' = Weapon.max_level w
  /\ Weapon.level w' = Weapon.level w
  /\ Weapon.cooldown w' = Weapon.cooldown w /\ Weapon.area w' = Weapon.area w
  /\ Weapon.amount w' = Weapon.amount w
  /\ Weapon.size_multiplier w' = Weapon.size_multiplier w
  /\ Weapon.aura w' = Weapon.aura w
  /\ (Weapon.evolved w' = false ->
      Weapon.evolved w = false /\ Weapon.damage w' = Weapon.damage w).
Proof.
  cbn zeta. unfold Weapon.evolve.
  destruct (Weapon.evolution_id w) as [eid|]; [|done].
  destruct (negb _); [done|].
  destruct (Py.get eid Settings.EVOLUTION_DATA); [|done].
  cbn. repeat split; discriminate.
Qed.

Lemma evolve_false w : (Weapon.evolve w).2 = false -> (Weapon.evolve w).1 = w.
Proof.
  unfold Weapon.evolve.
  destruct (Weapon.evolution_id w) as [eid|]; [|done].
  destruct (negb _); [done|].
  by destruct (Py.get eid Settings.EVOLUTION_DATA).
Qed.

Lemma init_frame wid p :
  Weapon.weapon_id (Weapon.init wid p) = wid
  /\ Weapon.data (Weapon.init wid p) = Weapon.data_of wid
  /\ Weapon.max_level (Weapon.init wid p) = 8
  /\ Weapon.level (Weapon.init wid p) = 1.
Proof.
  rewrite <- (data_of_max_level wid). unfold Weapon.init.
  by destruct (String.eqb wid "garlic").
Qed.

Lemma add_weapon_levels wid p c : levels_ok c -> levels_ok (add_weapon wid p c).1.
Proof.
  intros [Hw Hp Hc]. unfold add_weapon.
  destruct (Py.get wid (weapons c)) as [w|] eqn:Eg.
  - destruct (Hw _ _ Eg) as (I1 & I2 & I3 & I4).
    destruct (WeaponStats.level_up_cases p w) as [[Hlt ->]|[Hge ->]];
      cbn [fst]; split; cbn [weapons passives]; try done.
    + intros k w'. rewrite PyFacts.get_set.
      destruct (String.eqb k wid) eqn:E; [|apply Hw].
      apply String.eqb_eq in E as ->. intros [= <-]. cbn.
      repeat split; try done; lia.
    + intros k w'. rewrite PyFacts.get_set.
      destruct (String.eqb k wid) eqn:E; [|apply Hw].
      apply String.eqb_eq in E as ->. by intros [= <-].
  - destruct (_ <=? _)%nat; [done|].
    destruct (existsb _ _); [|done].
    cbn [fst]. split; cbn [weapons passives]; try done.
    intros k w'. rewrite PyFacts.get_set.
    destruct (String.eqb k wid) eqn:E; [|apply Hw].
    apply String.eqb_eq in E as ->. intros [= <-].
    destruct (init_frame wid p) as (I1 & I2 & I3 & I4).
    rewrite I1, I2, I3, I4. repeat split; lia.
Qed.

Lemma recalculated_levels p c lvs :
  levels_ok c ->
  (forall k lv, Py.get k lvs = Some lv -> 1 <= lv <= 5) ->
  (length lvs <= Settings.MAX_PASSIVES)%nat ->
  levels_ok
    (_update_weapon_stats p (mk (weapons c) lvs (max_weapons c) (max_passives c))).
Proof.
  intros [Hw Hp Hc] Hl Hn. split; cbn [_update_weapon_stats weapons passives];
    [|exact Hl|exact Hn].
  intros k w'. rewrite (PyFacts.get_map (Weapon._recalculate_stats p)).
  destruct (Py.get k (weapons c)) as [w|] eqn:Eg; [|done].
  intros [= <-]. destruct (Hw _ _ Eg) as (I1 & I2 & I3 & I4). done.
Qed.

Lemma add_passive_levels pid p c :
  max_passives c = Settings.MAX_PASSIVES ->
  levels_ok c -> levels_ok (add_passive pid p c).1.2.
Proof.
  intros Hmax H. pose proof H as [Hw Hp Hc]. unfold add_passive.
  destruct (Py.get pid Settings.PASSIVE_DATA) as [pd|] eqn:Ed; [|done].
  rewrite (passive_max_level _ _ Ed).
  destruct (Py.get pid (passives c)) as [lv|] eqn:Eg.
  - destruct (Z.ltb_spec lv 5); [|done]. cbn [fst snd].
    apply recalculated_levels; [exact H| |].
    + intros k lv'. rewrite PyFacts.get_set.
      destruct (String.eqb k pid); [|apply Hp].
      intros [= <-]. specialize (Hp _ _ Eg). lia.
    + rewrite set_length. unfold Py.contains. by rewrite Eg.
  - destruct (Nat.leb_spec (max_passives c) (length (passives c))); [done|].
    cbn [fst snd]. apply recalculated_levels; [exact H| |].
    + intros k lv'. rewrite PyFacts.get_set.
      destruct (String.eqb k pid); [|apply Hp].
      intros [= <-]. lia.
    + rewrite set_length. unfold Py.contains. rewrite Eg. lia.
Qed.

Lemma evolve_weapon_levels wid c :
  levels_ok c -> levels_ok (evolve_weapon wid c).1.
Proof.
  intros [Hw Hp Hc]. unfold evolve_weapon.
  destruct (Py.get wid (weapons c)) as [w|] eqn:Eg; [|done].
  pose proof (evolve_frame w) as (F1 & F2 & F3 & F4 & _).
  destruct (Weapon.evolve w) as [w' ok]. cbn [fst] in *.
  split; cbn [weapons passives]; try done.
  intros k w''. rewrite PyFacts.get_set.
  destruct (String.eqb k wid) eqn:E; [|apply Hw].
  apply String.eqb_eq in E as ->. intros [= <-].
  rewrite F1, F2, F3, F4. by apply Hw.
Qed.

Lemma apply_upgrade_levels u p c :
  well_formed c -> levels_ok c -> levels_ok (apply_upgrade u p c).1.2.
Proof.
  intros Hwf H. unfold apply_upgrade. destruct (u_kind u).
  - pose proof (add_weapon_levels (u_id u) p c H).
    by destruct (add_weapon (u_id u) p c).
  - apply add_passive_levels; [apply Hwf|exact H].
  - pose proof (evolve_weapon_levels (u_id u) c H).
    by destruct (evolve_weapon (u_id u) c).
Qed.

Lemma init_levels : levels_ok WeaponController.init.
Proof. split; cbn; [done|done|lia]. Qed.

Lemma reachable_levels c : reachable c -> levels_ok c.
Proof.
  induction 1 as [|c u p Hr IH]; [exact init_levels|].
  apply apply_upgrade_levels; [by apply Upgrades.reachable_wf|exact IH].
Qed.

Lemma run_controller events : forall st,
  reachable st.2 -> reachable (Session.run events st).2.
Proof.
  induction events as [|e events IH]; intros st H; [exact H|].
  cbn [Session.run fold_left]. apply IH.
  destruct e; cbn [Session.step snd]; try exact H.
  by constructor.
Qed.

(** X12: every inventory a session reaches keeps within its limits: at
    most five weapons, one per weapon class and each filed under its own
    identifier at a level from 1 to 8, and at most six passives, each a
    known one at a level from 1 to 5. *)
Theorem inventory_within_limits (c : WeaponController.t) :
  reachable c ->
  (length (weapons c) <= 5)%nat
  /\ (length (passives c) <= 6)%nat
  /\ NoDup (map fst (weapons c)) /\ NoDup (map fst (passives c))
  /\ (forall k w, Py.get k (weapons c) = Some w ->
        k ∈ WEAPON_CLASSES /\ Weapon.weapon_id w = k
        /\ 1 <= Weapon.level w <= 8)
  /\ (forall k lv, Py.get k (passives c) = Some lv ->
        k ∈ map fst Settings.PASSIVE_DATA /\ 1 <= lv <= 5).
Proof.
  intros Hr. pose proof (Upgrades.reachable_wf c Hr) as Hwf.
  pose proof (reachable_levels c Hr) as [Hw Hp Hc].
  split.
  { rewrite <- (length_map fst).
    apply (Upgrades.keys_bounded _ WEAPON_CLASSES); apply Hwf. }
  split; [exact Hc|]. split; [apply Hwf|]. split; [apply Hwf|]. split.
  - intros k w Hg. destruct (Hw k w Hg) as (I1 & _ & _ & I4).
    split; [|done]. apply (wf_weapon_classes c Hwf).
    apply PyFacts.get_Some_elem in Hg.
    apply list_elem_of_fmap. by exists (k, w).
  - intros k lv Hg. split; [|by apply (Hp k)].
    apply (wf_passive_known c Hwf).
    apply PyFacts.get_Some_elem in Hg.
    apply list_elem_of_fmap. by exists (k, lv).
Qed.

Lemma inventory_within_limits_witness :
  let c :=
    (Session.run
       [Session.Upgrade (mk_upgrade k_weapon "whip" true 0);
        Session.Upgrade (mk_upgrade k_weapon "whip" false 1);
        Session.Upgrade (mk_upgrade k_passive "might_boost" true 0)]
       (Session.start (Rect.mk 0 0 40 40) false)).2 in
  (length (weapons c) <= 5)%nat
  /\ (length (passives c) <= 6)%nat
  /\ NoDup (map fst (weapons c)) /\ NoDup (map fst (passives c))
  /\ (forall k w, Py.get k (weapons c) = Some w ->
        k ∈ WEAPON_CLASSES /\ Weapon.weapon_id w = k
        /\ 1 <= Weapon.level w <= 8)
  /\ (forall k lv, Py.get k (passives c) = Some lv ->
        k ∈ map fst Settings.PASSIVE_DATA /\ 1 <= lv <= 5).
Proof.
  apply inventory_within_limits.
  apply run_controller. apply reach_init.
Defined.

Lemma add_passive_failure pid p c :
  (add_passive pid p c).2 = false -> (add_passive pid p c).1 = (p, c).
Proof.
  unfold add_passive.
  destruct (Py.get _ Settings.PASSIVE_DATA) as [pd|]; [|done].
  destruct (Py.get _ (passives c)) as [lv|].
  - by destruct (lv <? _).
  - by destruct (_ <=? _)%nat.
Qed.

(** X13: an upgrade that reports failure changes nothing: when
    [apply_upgrade] returns False (unknown identifier, weapon or passive
    already at its maximum level, no free slot, evolution without data),
    the player and the inventory are exactly as before. *)
Theorem failed_upgrade_changes_nothing (u : upgrade) (p : Player.t)
    (c : WeaponController.t) :
  (apply_upgrade u p c).2 = false -> (apply_upgrade u p c).1 = (p, c).
Proof.
  unfold apply_upgrade. destruct (u_kind u).
  - unfold add_weapon.
    destruct (Py.get (u_id u) (weapons c)) as [w|] eqn:Eg.
    + destruct (WeaponStats.level_up_cases p w) as [[_ ->]|[_ ->]];
        cbn; [discriminate|].
      intros _. by rewrite (set_same _ _ _ Eg), controller_eta.
    + destruct (_ <=? _)%nat; [done|].
      by destruct (existsb _ _).
  - apply add_passive_failure.
  - unfold evolve_weapon.
    destruct (Py.get (u_id u) (weapons c)) as [w|] eqn:Eg; [|done].
    pose proof (evolve_false w) as Hf.
    destruct (Weapon.evolve w) as [w' ok]. cbn in *.
    intros ->. rewrite (Hf eq_refl).
    by rewrite (set_same _ _ _ Eg), controller_eta.
Qed.

Lemma failed_upgrade_changes_nothing_witness :
  (apply_upgrade (mk_upgrade k_weapon "bow" true 0) Scenario.hero
     Scenario.exhausted).1
  = (Scenario.hero, Scenario.exhausted).
Proof.
  apply (failed_upgrade_changes_nothing (mk_upgrade k_weapon "bow" true 0)
           Scenario.hero Scenario.exhausted).
  reflexivity.
Defined.

(** X14: the axe and the knife name evolutions (death_spiral,
    thousand_edge) that have no entry in EVOLUTION_DATA.  In every
    inventory a session reaches, choosing such an evolution does nothing
    and reports failure; yet once the weapon is at level 8 and its passive
    is held the evolution is among the candidates of the upgrade menu, and
    stays there, since nothing changed. *)
Theorem missing_evolution_is_inert (c : WeaponController.t) (p : Player.t)
    (wid ps : string) :
  reachable c ->
  (wid = "axe"%string /\ ps = "max_hp_boost"%string)
  \/ (wid = "knife"%string /\ ps = "speed_boost"%string) ->
  apply_upgrade (mk_upgrade k_evolution wid false 0) p c = (p, c, false)
  /\ (forall w,
        Py.get wid (weapons c) = Some w -> Weapon.level w = 8 ->
        Py.contains ps (passives c) = true ->
        wid ∈ check_evolutions c
        /\ mk_upgrade k_evolution wid false 0 ∈ possible_upgrades c).
Proof.
  intros Hr Hwid. pose proof (Upgrades.reachable_wf c Hr) as Hwf.
  pose proof (reachable_levels c Hr) as [Hw _ _].
  assert (forall w, Py.get wid (weapons c) = Some w ->
            Weapon.evolved w = false
            /\ Weapon.evolution_passive w = Some ps
            /\ exists eid, Weapon.evolution_id w = Some eid
                 /\ Weapon.truthy (Some eid) = true
                 /\ Weapon.truthy (Some ps) = true
                 /\ Py.get eid Settings.EVOLUTION_DATA = None) as Hok.
  { intros w Hg. destruct (wf_weapons c Hwf wid w Hg) as (O1 & O2 & O3).
    rewrite O1, O2.
    destruct Hwid as [[-> ->]|[-> ->]];
      (split; [apply O3; tauto|]; split; [reflexivity|];
       eexists; split; [reflexivity|done]). }
  split.
  - unfold apply_upgrade, evolve_weapon. cbn [u_kind u_id].
    destruct (Py.get wid (weapons c)) as [w|] eqn:Eg; [|done].
    destruct (Hok w eq_refl) as (_ & _ & eid & E1 & E2 & _ & E3).
    unfold Weapon.evolve. rewrite E1, E2, E3. cbn [negb].
    by rewrite (set_same _ _ _ Eg), controller_eta.
  - intros w Hg Hlv Hps.
    destruct (Hok w Hg) as (E0 & Ep & eid & E1 & E2 & E4 & E3).
    destruct (Hw _ _ Hg) as (_ & _ & Hmax & _).
    assert (mk_upgrade k_evolution wid false 0 ∈ possible_upgrades c) as Hoff.
    { apply (Upgrades.evolution_offered c wid w ps); try done.
      - by rewrite E1.
      - rewrite Hlv, Hmax. reflexivity. }
    split; [|exact Hoff].
    unfold check_evolutions. apply list_elem_of_fmap.
    exists (wid, w). split; [done|].
    apply list_elem_of_In, filter_In. split.
    + by apply list_elem_of_In, PyFacts.get_Some_elem.
    + unfold Weapon.can_evolve. cbn [snd].
      rewrite E0, E1, E2, Ep, E4, Hps, Hlv, Hmax. reflexivity.
Qed.

Lemma missing_evolution_is_inert_witness :
  let p := Cases.axe_ready.1 in
  let c := Cases.axe_ready.2 in
  apply_upgrade (mk_upgrade k_evolution "axe" false 0) p c = (p, c, false)
  /\ mk_upgrade k_evolution "axe" false 0 ∈ possible_upgrades c.
Proof.
  intros p c.
  destruct (missing_evolution_is_inert c p "axe" "max_hp_boost") as [H1 H2].
  - apply run_controller, reach_init.
  - by left.
  - split; [exact H1|].
    apply (H2 (match Py.get "axe" (weapons c) with
               | Some w => w
               | None => Weapon.init "axe" p
               end)); vm_compute; reflexivity.
Defined.

End Inventory.

(** ** The stat block and the weapon stats over a session
    (entities/player.py, weapons/weapon_base.py, weapons/controller.py) *)

Module Sync.

Import Forms Laws WeaponController.

Lemma recalculate_synced p w : synced p (Weapon._recalculate_stats p w).
Proof.
  unfold synced. split; [reflexivity|]. split; [reflexivity|].
  split; [reflexivity|]. split; [reflexivity|].
  intros a. cbn [Weapon._recalculate_stats Weapon.aura].
  destruct (Weapon.aura w); [|done]. by intros [= <-].
Qed.

Lemma level_up_synced p w : synced p w -> synced p (Weapon.level_up p w).1.
Proof.
  intros H.
  destruct (WeaponStats.level_up_cases p w) as [[_ ->]|[_ ->]]; [|exact H].
  apply recalculate_synced.
Qed.

Lemma init_synced wid p : synced p (Weapon.init wid p).
Proof.
  unfold Weapon.init.
  destruct (String.eqb wid "garlic"); [|apply recalculate_synced].
  pose proof (recalculate_synced p
    {| Weapon.weapon_id := wid;
       Weapon.data := Weapon.data_of wid;
       Weapon.level := 1;
       Weapon.max_level := Settings.w_max_level (Weapon.data_of wid);
       Weapon.damage := Settings.base_damage (Weapon.data_of wid);
       Weapon.cooldown := Settings.base_cooldown (Weapon.data_of wid);
       Weapon.area := Settings.base_area (Weapon.data_of wid);
       Weapon.speed := Settings.base_speed (Weapon.data_of wid);
       Weapon.amount := Settings.base_amount (Weapon.data_of wid);
       Weapon.pierce :=
         match Settings.base_pierce (Weapon.data_of wid) with
         | Some n => n
         | None => 1
         end;
       Weapon.size_multiplier := 1;
       Weapon.cooldown_timer :=
         CooldownTimer.init (Settings.base_cooldown (Weapon.data_of wid));
       Weapon.evolved := false;
       Weapon.evolution_id := Settings.evolution (Weapon.data_of wid);
       Weapon.evolution_passive :=
         Settings.evolution_passive (Weapon.data_of wid);
       Weapon.homing := false;
       Weapon.aura := None |}) as (H1 & H2 & H3 & H4 & _).
  fold (Weapon.make wid (Weapon.data_of wid) p) in H1, H2, H3, H4.
  unfold synced.
  split; [exact H1|]. split; [exact H2|]. split; [exact H3|].
  split; [exact H4|].
  intros a. cbn [Weapon.aura]. by intros [= <-].
Qed.

Lemma evolve_synced p w : synced p w -> synced p (Weapon.evolve w).1.
Proof.
  intros (H1 & H2 & H3 & H4 & H5).
  pose proof (Inventory.evolve_frame w) as F. cbn zeta in F.
  destruct F as (_ & F2 & F3 & F4 & F5 & F6 & F7 & _ & F9 & F10).
  unfold synced, Weapon.aura_radius, Weapon.area_double,
    Weapon.size_multiplier_double in *.
  rewrite F2, F3, F4, F5, F6, F7, F9.
  split; [exact H1|]. split; [exact H2|]. split; [exact H3|].
  split; [|exact H5].
  intros E. destruct (F10 E) as [E0 ->]. by apply H4.
Qed.

Lemma synced_block p q w :
  stat_block p = stat_block q -> synced p w -> synced q w.
Proof.
  intros [= _ _ _ Em Ec _ _] (H1 & H2 & H3 & H4 & H5).
  unfold synced, cooldown_at, damage_at in *. rewrite <- Em, <- Ec. done.
Qed.

Lemma stats_of_block p q c :
  stat_block p = stat_block q -> stats_of p c -> stats_of q c.
Proof.
  intros [= E1 E2 E3 E4 E5 E6 E7]. unfold stats_of.
  by rewrite E1, E2, E3, E4, E5, E6, E7.
Qed.

Lemma heal_block a p : stat_block (Player.heal a p) = stat_block p.
Proof. reflexivity. Qed.

Lemma get_hit_block d p : stat_block (Player.get_hit d p).1 = stat_block p.
Proof.
  unfold Player.get_hit.
  destruct (Player.is_invincible p || Player.dead p); [done|].
  destruct (Player.unlimited_health p); [done|].
  Vitals.psimpl. by destruct (Py.leb _ 0).
Qed.

Lemma gain_xp_block a p : stat_block (Player.gain_xp a p).1 = stat_block p.
Proof. unfold Player.gain_xp. by destruct (_ <=? _). Qed.

Lemma update_block dt p : stat_block (Player.update dt p) = stat_block p.
Proof.
  unfold Player.update. destruct (Player.dead p); [done|].
  assert (stat_block (Player.update_i_frames dt p) = stat_block p) as <-.
  { unfold Player.update_i_frames.
    destruct (Player.is_invincible p); [|done]. Vitals.psimpl.
    by destruct (_ <=? 0)%float. }
  unfold Player.update_regen.
  destruct (Py.ltb 0 _ && Py.ltb _ _); [|done].
  Vitals.psimpl. by destruct (1 <=? _)%float.
Qed.

Lemma passive_level_set k pid lv ws ps mw mp :
  passive_level k (mk ws (Py.set pid lv ps) mw mp)
  = if String.eqb k pid then lv else passive_level k (mk ws ps mw mp).
Proof.
  unfold passive_level. cbn [passives]. rewrite PyFacts.get_set.
  by destruct (String.eqb k pid).
Qed.

(** What a successful [add_passive] does. *)
Lemma add_passive_success pid p c p' c' :
  add_passive pid p c = (p', c', true) ->
  exists pd,
    Py.get pid Settings.PASSIVE_DATA = Some pd
    /\ p' = Player.apply_passive pd p
    /\ weapons c'
       = map (fun kw => (kw.1, Weapon._recalculate_stats p' kw.2)) (weapons c)
    /\ (forall k,
          passive_level k c'
          = if String.eqb k pid then passive_level pid c + 1
            else passive_level k c).
Proof.
  unfold add_passive.
  destruct (Py.get pid Settings.PASSIVE_DATA) as [pd|] eqn:Ed; [|done].
  destruct (Py.get pid (passives c)) as [lv|] eqn:Eg.
  - destruct (lv <? _); [|done]. intros [= <- <-].
    exists pd. split; [done|]. split; [done|]. split; [done|].
    intros k. unfold _update_weapon_stats. cbn [weapons passives].
    unfold passive_level at 1. cbn [passives]. rewrite PyFacts.get_set.
    unfold passive_level. rewrite Eg.
    by destruct (String.eqb k pid).
  - destruct (_ <=? _)%nat; [done|]. intros [= <- <-].
    exists pd. split; [done|]. split; [done|]. split; [done|].
    intros k. unfold _update_weapon_stats. cbn [weapons passives].
    unfold passive_level at 1. cbn [passives]. rewrite PyFacts.get_set.
    unfold passive_level. rewrite Eg.
    by destruct (String.eqb k pid).
Qed.

Ltac stat_step :=
  match goal with
  | |- (_ == _ * ?b ^ (_ + 1))%Q =>
      rewrite (Qpower_plus b) by (intros Hz; vm_compute in Hz; discriminate);
      change (b ^ 1)%Q with b;
      match goal with H : (?x == _ * ?pw)%Q |- (?x * _ == _ * (?pw * _))%Q =>
        set (y := pw) in *; lra end
  | |- _ => rewrite ?inject_Z_plus; change (inject_Z 1) with 1%Q; lra
  end.

Lemma apply_passive_stats pid pd p c c' :
  Py.get pid Settings.PASSIVE_DATA = Some pd ->
  (forall k,
     passive_level k c'
     = if String.eqb k pid then passive_level pid c + 1
       else passive_level k c) ->
  stats_of p c -> stats_of (Player.apply_passive pd p) c'.
Proof.
  intros Hd Hl (S1 & S2 & S3 & S4 & S5 & S6 & S7).
  apply PyFacts.get_Some_elem in Hd. unfold Settings.PASSIVE_DATA in Hd.
  rewrite !elem_of_cons, elem_of_nil in Hd.
  unfold stats_of. rewrite !Hl.
  destruct Hd as [H|[H|[H|[H|[H|[H|[H|[]]]]]]]]; injection H as -> ->;
    cbn [String.eqb Ascii.eqb Bool.eqb andb];
    unfold Player.apply_passive; cbn [Settings.p_stat Settings.p_value];
    Vitals.psimpl;
    (split; [stat_step|]); (split; [stat_step|]); (split; [stat_step|]);
    (split; [stat_step|]); (split; [stat_step|]); (split; [stat_step|]);
    stat_step.
Qed.

(** What holds of the player and the inventory after every event. *)
Lemma step_sync st e :
  levels_ok st.2 ->
  stats_of st.1 st.2
  /\ (forall k w, Py.get k (weapons st.2) = Some w -> synced st.1 w) ->
  let st' := Session.step st e in
  stats_of st'.1 st'.2
  /\ (forall k w, Py.get k (weapons st'.2) = Some w -> synced st'.1 w).
Proof.
  destruct st as [p c]. cbn [fst snd]. intros Hlv [Hs Hw].
  assert (forall q, stat_block q = stat_block p ->
            stats_of q c
            /\ (forall k w, Py.get k (weapons c) = Some w -> synced q w))
    as Hblock.
  { intros q E. split; [by apply (stats_of_block p)|].
    intros k w Hg. apply (synced_block p); [done|by apply (Hw k)]. }
  destruct e as [u|d|a|a|dt]; cbn [Session.step fst snd];
    [|by apply Hblock, get_hit_block|by apply Hblock, heal_block
     |by apply Hblock, gain_xp_block|by apply Hblock, update_block].
  unfold apply_upgrade. destruct (u_kind u).
  - unfold add_weapon.
    destruct (Py.get (u_id u) (weapons c)) as [w|] eqn:Eg.
    + pose proof (level_up_synced p w (Hw _ _ Eg)) as Hup.
      destruct (Weapon.level_up p w) as [w' ok]. cbn [fst snd weapons] in *.
      split; [exact Hs|]. intros k w''. rewrite PyFacts.get_set.
      destruct (String.eqb k (u_id u)); [by intros [= <-]|apply Hw].
    + destruct (_ <=? _)%nat; [done|].
      destruct (existsb _ _); [|done]. cbn [fst snd weapons].
      split; [exact Hs|]. intros k w''. rewrite PyFacts.get_set.
      destruct (String.eqb k (u_id u)); [|apply Hw].
      intros [= <-]. apply init_synced.
  - destruct (add_passive (u_id u) p c) as [[p' c'] ok] eqn:Ea.
    cbn [fst snd]. destruct ok.
    + destruct (add_passive_success _ _ _ _ _ Ea) as (pd & Hd & -> & Hws & Hl).
      split; [by apply (apply_passive_stats (u_id u) pd p c c')|].
      intros k w. rewrite Hws.
      rewrite (PyFacts.get_map (Weapon._recalculate_stats _)).
      destruct (Py.get k (weapons c)); [|done].
      intros [= <-]. apply recalculate_synced.
    + pose proof (Inventory.add_passive_failure (u_id u) p c) as Hf.
      rewrite Ea in Hf. injection (Hf eq_refl) as -> ->. done.
  - unfold evolve_weapon.
    destruct (Py.get (u_id u) (weapons c)) as [w|] eqn:Eg; [|done].
    pose proof (evolve_synced p w (Hw _ _ Eg)) as Hev.
    destruct (Weapon.evolve w) as [w' ok]. cbn [fst snd weapons] in *.
    split; [exact Hs|]. intros k w''. rewrite PyFacts.get_set.
    destruct (String.eqb k (u_id u)); [by intros [= <-]|apply Hw].
Qed.

Lemma run_sync events : forall st,
  reachable st.2 ->
  stats_of st.1 st.2
  /\ (forall k w, Py.get k (weapons st.2) = Some w -> synced st.1 w) ->
  let st' := Session.run events st in
  stats_of st'.1 st'.2
  /\ (forall k w, Py.get k (weapons st'.2) = Some w -> synced st'.1 w).
Proof.
  induction events as [|e events IH]; intros st Hr H; [exact H|].
  cbn [Session.run fold_left]. apply IH.
  - apply (Inventory.run_controller [e]). exact Hr.
  - apply step_sync; [by apply Inventory.reachable_levels|exact H].
Qed.

Lemma passive_level_range k c :
  levels_ok c -> 0 <= passive_level k c <= 5.
Proof.
  intros [_ Hp _]. unfold passive_level.
  destruct (Py.get k (passives c)) as [lv|] eqn:E; [|lia].
  specialize (Hp _ _ E). lia.
Qed.

(** X15: after any session (upgrades, hits, heals, XP gains and frames, in
    any order) from a fresh player and an empty inventory, the player's
    stat block is the one the passive levels held give (might 1 + 0.1 per
    level of might_boost, cooldown reduction 0.08 per level, armor 1 per
    level, regen 0.5 per level, max HP 100 + 20 per level, pickup radius
    80 * 1.2^level, move speed 200 * 1.1^level), and every weapon held is
    in step with it: its cooldown, area and amount are the closed forms at
    its level under the current player, its damage too as long as it has
    not evolved, its cooldown is positive, and a Garlic's aura has the
    weapon's cooldown as tick rate. *)
Theorem session_stats_in_sync (box : Rect.t) (cheat : bool)
    (events : list Session.event) :
  let p := (Session.run events (Session.start box cheat)).1 in
  let c := (Session.run events (Session.start box cheat)).2 in
  stats_of p c
  /\ (forall wid w, Py.get wid (weapons c) = Some w ->
        (Weapon.cooldown w
         == cooldown_at (Weapon.data_of wid) (Weapon.level w) p)%Q
        /\ (0 < Weapon.cooldown w)%Q
        /\ (Weapon.area w == area_at (Weapon.data_of wid) (Weapon.level w))%Q
        /\ Weapon.amount w = amount_at (Weapon.data_of wid) (Weapon.level w)
        /\ (Weapon.evolved w = false ->
            (Weapon.damage w
             == damage_at (Weapon.data_of wid) (Weapon.level w) p)%Q)
        /\ (forall a, Weapon.aura w = Some a ->
              GarlicAura.tick_rate a = Weapon.cooldown w)).
Proof.
  cbn zeta.
  assert (reachable (Session.start box cheat).2) as Hr0 by apply reach_init.
  pose proof (Inventory.run_controller events _ Hr0) as Hr.
  pose proof (Inventory.reachable_levels _ Hr) as Hlv.
  destruct (run_sync events (Session.start box cheat) Hr0) as [Hs Hw].
  { split; [|done]. unfold stats_of. cbn.
    repeat split; vm_compute; reflexivity. }
  cbn zeta in Hs, Hw. split; [exact Hs|].
  intros wid w Hg.
  destruct (Hw wid w Hg) as (H1 & H2 & H3 & H4 & H5).
  destruct (lv_weapons _ Hlv wid w Hg) as (_ & Hdata & _ & _).
  rewrite <- Hdata.
  split; [exact H1|]. split; [|split; [exact H2|]; split; [exact H3|];
                               split; [exact H4|]; intros a Ha; by apply H5].
  destruct Hs as (_ & Hc & _).
  pose proof (passive_level_range "cooldown_boost" _ Hlv) as [L0 L5].
  rewrite Zle_Qle in L0, L5.
  assert (0 < cooldown_at (Weapon.data w) (Weapon.level w)
                (Session.run events (Session.start box cheat)).1)%Q as Hpos.
  { unfold cooldown_at. apply Qmult_lt_0_compat.
    - match goal with |- (0 < Py.max ?a ?b)%Q =>
        pose proof (PyFacts.max_ge_l a b) end. lra.
    - change (inject_Z 0) with 0%Q in L0. change (inject_Z 5) with 5%Q in L5.
      lra. }
  rewrite H1. exact Hpos.
Qed.

End Sync.

(** ** The collision pass (weapons/controller.py) *)

Module Collisions.

Import Laws WeaponController.

Lemma sprite_hit_enemy_spec enemy_id s :
  let r := sprite_hit_enemy enemy_id s in
  rect_of r.1 = rect_of s /\ hits s ⊆ hits r.1
  /\ (r.2 = true -> enemy_id ∈ hits r.1)
  /\ (r.2 = false -> r.1 = s /\ (s <> Aura -> enemy_id ∈ hits s)).
Proof.
  destruct s as [p|sl|]; cbn.
  - unfold Projectile.hit_enemy.
    destruct (decide (enemy_id ∈ Projectile.hit_enemies p)); cbn.
    + repeat split; try done.
    + repeat split; try done; set_solver.
  - unfold WhipSlash.hit_enemy.
    destruct (decide (enemy_id ∈ WhipSlash.hit_enemies sl)); cbn.
    + repeat split; try done.
    + repeat split; try done; set_solver.
  - repeat split; try done.
Qed.

(** A hit changes the hit points, the knockback and, when it kills, the
    membership of the groups, and nothing else. *)
Lemma take_damage_spec dmg knockback_dir e :
  let r := Enemy.take_damage dmg knockback_dir e in
  Enemy.alive r.1 = (if r.2 then false else Enemy.alive e)
  /\ (Enemy.hp r.1 == Enemy.hp e - dmg)%Q
  /\ r.2 = Py.leb (Enemy.hp e - dmg) 0
  /\ Enemy.id r.1 = Enemy.id e /\ Enemy.rect r.1 = Enemy.rect e
  /\ Enemy.get_drop_info r.1 = Enemy.get_drop_info e
  /\ Enemy.enemy_type r.1 = Enemy.enemy_type e
  /\ Enemy.max_hp r.1 = Enemy.max_hp e /\ Enemy.damage r.1 = Enemy.damage e
  /\ Enemy.speed r.1 = Enemy.speed e /\ Enemy.hitbox r.1 = Enemy.hitbox e
  /\ Enemy.damage_cooldown r.1 = Enemy.damage_cooldown e.
Proof.
  cbn zeta. unfold Enemy.take_damage.
  destruct knockback_dir as [dir|];
    [destruct (Vec.truthy dir && _)|];
    by destruct (Py.leb _ 0).
Qed.

Lemma same_enemy_refl e : same_enemy e e.
Proof. by repeat split. Qed.

Lemma same_enemy_trans e1 e2 e3 :
  same_enemy e1 e2 -> same_enemy e2 e3 -> same_enemy e1 e3.
Proof.
  intros (A1 & A2 & A3 & A4 & A5 & A6 & A7 & A8 & A9 & A10)
         (B1 & B2 & B3 & B4 & B5 & B6 & B7 & B8 & B9 & B10).
  repeat split; try congruence. intros H. by apply A4, B4.
Qed.

Lemma deaths_cons e e' es es' :
  deaths (e :: es) (e' :: es')
  = (if Enemy.alive e && negb (Enemy.alive e')
     then [Enemy.get_drop_info e] else [])
    ++ deaths es es'.
Proof.
  unfold deaths. cbn. by destruct (Enemy.alive e && negb (Enemy.alive e')).
Qed.

(** One attack effect against the group. *)
Lemma collide_enemies_spec es : forall s acc,
  let r := collide_enemies s es acc in
  Forall2 same_enemy es r.1.2
  /\ dead_enemies r.2 = dead_enemies acc ++ deaths es r.1.2
  /\ kills r.2 = kills acc + Z.of_nat (length (deaths es r.1.2))
  /\ rect_of r.1.1 = rect_of s
  /\ hits s ⊆ hits r.1.1
  /\ saturated r.1.1 r.1.2.
Proof.
  induction es as [|e es IH]; intros s acc.
  - cbn. split; [constructor|]. split; [by rewrite app_nil_r|].
    split; [lia|]. split; [done|]. split; [done|].
    intros e r H. by apply elem_of_nil in H.
  - cbn [collide_enemies].
    destruct (Enemy.alive e && _) eqn:Ec.
    + apply andb_true_iff in Ec as [Ea Ecol].
      pose proof (sprite_hit_enemy_spec (Enemy.id e) s) as (R1 & R2 & R3 & R4).
      cbn zeta in *.
      destruct (sprite_hit_enemy (Enemy.id e) s) as [s1 hit].
      cbn [fst snd] in *. destruct hit.
      * match goal with |- context [Enemy.take_damage ?d ?k e] =>
          pose proof (take_damage_spec d k e)
            as (T4 & _ & _ & T1 & T2 & T3 & T5 & T6 & T7 & T8 & T9 & T10);
          cbn zeta in *;
          destruct (Enemy.take_damage d k e) as [e' died] end.
        cbn [fst snd] in *.
        match goal with |- context [collide_enemies s1 es ?a] =>
          specialize (IH s1 a); destruct (collide_enemies s1 es a)
            as [[s2 es'] acc3] end.
        cbn [fst snd] in *.
        destruct IH as (I1 & I2 & I3 & I4 & I5 & I6).
        rewrite deaths_cons, T4, Ea. cbn [andb].
        split; [constructor; [|exact I1]|].
        { repeat split; try done. }
        split; [rewrite I2; destruct died; cbn [negb dead_enemies app];
                by rewrite <- ?app_assoc|].
        split; [rewrite I3; destruct died; cbn [negb kills length app];
                rewrite ?length_app; cbn [length]; lia|].
        split; [congruence|]. split; [by etrans|].
        intros x r Hx Hal Hr Hcol. apply elem_of_cons in Hx as [->|Hx].
        -- apply I5. rewrite T1. by apply R3.
        -- by apply (I6 x r).
      * destruct (R4 eq_refl) as [-> Hin].
        specialize (IH s acc).
        destruct (collide_enemies s es acc) as [[s2 es'] acc3].
        cbn [fst snd] in *.
        destruct IH as (I1 & I2 & I3 & I4 & I5 & I6).
        rewrite deaths_cons, Ea. cbn [andb negb app].
        split; [constructor; [apply same_enemy_refl|exact I1]|].
        split; [exact I2|]. split; [exact I3|]. split; [exact I4|].
        split; [exact I5|].
        intros x r Hx Hal Hr Hcol. apply elem_of_cons in Hx as [->|Hx].
        -- apply I5, Hin. intros ->. rewrite I4 in Hr. discriminate.
        -- by apply (I6 x r).
    + specialize (IH s acc).
      destruct (collide_enemies s es acc) as [[s2 es'] acc3].
      cbn [fst snd] in *.
      destruct IH as (I1 & I2 & I3 & I4 & I5 & I6).
      rewrite deaths_cons.
      assert (Enemy.alive e && negb (Enemy.alive e) = false) as ->
        by by destruct (Enemy.alive e).
      cbn [app].
      split; [constructor; [apply same_enemy_refl|exact I1]|].
      split; [exact I2|]. split; [exact I3|]. split; [exact I4|].
      split; [exact I5|].
      intros x r Hx Hal Hr Hcol. apply elem_of_cons in Hx as [->|Hx].
      * rewrite I4 in Hr. rewrite Hr, Hal, Hcol in Ec. discriminate.
      * by apply (I6 x r).
Qed.

Lemma deaths_compose es es1 :
  Forall2 same_enemy es es1 -> forall es2,
  Forall2 same_enemy es1 es2 ->
  deaths es es2 ≡ₚ deaths es es1 ++ deaths es1 es2.
Proof.
  induction 1 as [|e e1 es es1 He Hes IH]; intros es2 H2.
  - by inversion H2.
  - inversion H2 as [|? e2 ? es2' He2 Hes2]; subst.
    rewrite !deaths_cons. specialize (IH _ Hes2).
    destruct He as (_ & _ & D1 & A1 & _). destruct He2 as (_ & _ & D2 & A2 & _).
    destruct (Enemy.alive e) eqn:E0, (Enemy.alive e1) eqn:E1,
      (Enemy.alive e2) eqn:E2; cbn [andb negb app];
      try (specialize (A1 eq_refl); discriminate);
      try (specialize (A2 eq_refl); discriminate);
      try exact IH.
    + rewrite <- D1. rewrite IH. apply Permutation_middle.
    + rewrite IH. done.
Qed.

Lemma saturated_later s es es' :
  Forall2 same_enemy es es' -> saturated s es -> saturated s es'.
Proof.
  intros HF Hs e' r He' Hal Hr Hcol.
  apply list_elem_of_lookup_1 in He' as [i Hi].
  destruct (Forall2_lookup_r _ _ _ _ _ HF Hi)
    as (e & Hie & I1 & I2 & _ & I4 & _).
  rewrite I1. apply (Hs e r); [by eapply list_elem_of_lookup_2|by apply I4|done|].
  by rewrite <- I2.
Qed.

(** The whole pass. *)
Lemma collide_sprites_spec sprites : forall es acc,
  let r := collide_sprites sprites es acc in
  Forall2 same_enemy es r.1.2
  /\ dead_enemies r.2 ≡ₚ dead_enemies acc ++ deaths es r.1.2
  /\ kills r.2 = kills acc + Z.of_nat (length (deaths es r.1.2))
  /\ length r.1.1 = length sprites
  /\ Forall (fun s' =>
               s' = Aura \/ sprite_alive s' = false \/ saturated s' r.1.2)
            r.1.1.
Proof.
  assert (forall es, Forall2 same_enemy es es) as Hrefl
    by (induction es; constructor; [apply same_enemy_refl|done]).
  assert (forall es, deaths es es = []) as Hnone.
  { induction es as [|e es IH]; [done|].
    rewrite deaths_cons, IH. by destruct (Enemy.alive e). }
  induction sprites as [|s sprites IH]; intros es acc.
  - cbn [collide_sprites fst snd]. rewrite Hnone, app_nil_r.
    split; [apply Hrefl|]. split; [done|]. split; [cbn; lia|].
    split; [done|constructor].
  - assert (forall skipped : sprite,
      skipped = Aura \/ sprite_alive skipped = false ->
      let r := collide_sprites sprites es acc in
      Forall2 same_enemy es r.1.2
      /\ dead_enemies r.2 ≡ₚ dead_enemies acc ++ deaths es r.1.2
      /\ kills r.2 = kills acc + Z.of_nat (length (deaths es r.1.2))
      /\ length (skipped :: r.1.1) = length (s :: sprites)
      /\ Forall (fun s' =>
                   s' = Aura \/ sprite_alive s' = false
                   \/ saturated s' r.1.2)
                (skipped :: r.1.1)) as Hskip.
    { intros skipped Hsk. destruct (IH es acc) as (I1 & I2 & I3 & I4 & I5).
      cbn zeta. split; [exact I1|]. split; [exact I2|]. split; [exact I3|].
      split; [cbn; by rewrite I4|].
      constructor; [tauto|exact I5]. }
    assert (sprite_alive s = true -> s <> Aura ->
      let r1 := collide_enemies s es acc in
      let r := collide_sprites sprites r1.1.2 r1.2 in
      Forall2 same_enemy es r.1.2
      /\ dead_enemies r.2 ≡ₚ dead_enemies acc ++ deaths es r.1.2
      /\ kills r.2 = kills acc + Z.of_nat (length (deaths es r.1.2))
      /\ length (r1.1.1 :: r.1.1) = length (s :: sprites)
      /\ Forall (fun s' =>
                   s' = Aura \/ sprite_alive s' = false
                   \/ saturated s' r.1.2)
                (r1.1.1 :: r.1.1)) as Hrun.
    { intros _ _. cbn zeta.
      destruct (collide_enemies_spec es s acc) as (C1 & C2 & C3 & _ & _ & C6).
      destruct (collide_enemies s es acc) as [[s1 es1] acc1].
      cbn [fst snd] in *.
      destruct (IH es1 acc1) as (I1 & I2 & I3 & I4 & I5).
      destruct (collide_sprites sprites es1 acc1) as [[rest' es2] acc2].
      cbn [fst snd] in *.
      pose proof (deaths_compose _ _ C1 _ I1) as Hd.
      split.
      { clear -C1 I1. revert es2 I1.
        induction C1 as [|a b l k Hab _ IHl]; intros es2 I1;
          inversion I1; subst; constructor;
          [by eapply same_enemy_trans|by apply IHl]. }
      split; [by rewrite I2, C2, Hd, app_assoc|].
      split; [rewrite I3, C3, (Permutation_length Hd), length_app; lia|].
      split; [cbn; by rewrite I4|].
      constructor; [|exact I5].
      right. right. by apply (saturated_later s1 es1). }
    destruct s as [pr|sl|].
    + cbn [collide_sprites]. destruct (sprite_alive (Shot pr)) eqn:Ea.
      * specialize (Hrun eq_refl). cbn zeta in Hrun.
        destruct (collide_enemies (Shot pr) es acc) as [[s1 es1] acc1].
        cbn [fst snd] in *.
        destruct (collide_sprites sprites es1 acc1) as [[rest' es2] acc2].
        by apply Hrun.
      * specialize (Hskip (Shot pr)). cbn zeta in Hskip.
        destruct (collide_sprites sprites es acc) as [[rest' es2] acc2].
        apply Hskip. by right.
    + cbn [collide_sprites]. destruct (sprite_alive (Slash sl)) eqn:Ea.
      * specialize (Hrun eq_refl). cbn zeta in Hrun.
        destruct (collide_enemies (Slash sl) es acc) as [[s1 es1] acc1].
        cbn [fst snd] in *.
        destruct (collide_sprites sprites es1 acc1) as [[rest' es2] acc2].
        by apply Hrun.
      * specialize (Hskip (Slash sl)). cbn zeta in Hskip.
        destruct (collide_sprites sprites es acc) as [[rest' es2] acc2].
        apply Hskip. by right.
    + cbn [collide_sprites]. specialize (Hskip Aura). cbn zeta in Hskip.
      destruct (collide_sprites sprites es acc) as [[rest' es2] acc2].
      apply Hskip. by left.
Qed.

(** X16: one call of [handle_projectile_collisions] leaves every enemy's
    identity, type, maximum HP, damage, speed, XP value, position,
    rectangle, hitbox and damage cooldown as they were: of the enemy's
    state a hit changes only its hit points, its knockback (the vector and
    its timer), its image (the white flash, which is drawing) and its
    membership of the group, which it can only lose.  The kill count it
    returns is the length of the list of dead enemies it returns, and that
    list holds, each once, the drop info of exactly the enemies that were
    in the group before the call and are not after it. *)
Theorem collision_kills_reported (projectile_group : list sprite)
    (enemy_group : list Enemy.t) :
  let '(sprites, enemies, tally) :=
    handle_projectile_collisions projectile_group enemy_group in
  Forall2 same_enemy enemy_group enemies
  /\ length sprites = length projectile_group
  /\ kills tally = Z.of_nat (length (dead_enemies tally))
  /\ dead_enemies tally ≡ₚ deaths enemy_group enemies.
Proof.
  unfold handle_projectile_collisions.
  destruct (collide_sprites_spec projectile_group enemy_group
              (mk_tally 0 0 [])) as (H1 & H2 & H3 & H4 & _).
  destruct (collide_sprites projectile_group enemy_group (mk_tally 0 0 []))
    as [[sprites enemies] tally].
  cbn [fst snd dead_enemies kills app] in *.
  split; [exact H1|]. split; [exact H4|]. split; [|exact H2].
  rewrite H3, (Permutation_length H2). lia.
Qed.

Lemma sprite_hit_enemy_seen enemy_id s :
  enemy_id ∈ hits s -> sprite_hit_enemy enemy_id s = (s, false).
Proof.
  destruct s as [p|sl|]; cbn; intros H.
  - unfold Projectile.hit_enemy. by destruct (decide _).
  - unfold WhipSlash.hit_enemy. by destruct (decide _).
  - done.
Qed.

Lemma collide_enemies_saturated es : forall s acc,
  saturated s es -> collide_enemies s es acc = (s, es, acc).
Proof.
  induction es as [|e es IH]; intros s acc Hs; [done|].
  cbn [collide_enemies].
  assert (saturated s es) as Hs'
    by (intros x r Hx; apply Hs; by right).
  destruct (Enemy.alive e && _) eqn:Ec.
  - apply andb_true_iff in Ec as [Ea Ecol].
    destruct (rect_of s) as [r|] eqn:Er; [|discriminate].
    rewrite (sprite_hit_enemy_seen (Enemy.id e) s).
    + by rewrite (IH s acc Hs').
    + apply (Hs e r); [left|done..].
  - by rewrite (IH s acc Hs').
Qed.

Lemma collide_sprites_saturated sprites : forall es acc,
  Forall (fun s' => s' = Aura \/ sprite_alive s' = false \/ saturated s' es)
    sprites ->
  collide_sprites sprites es acc = (sprites, es, acc).
Proof.
  induction sprites as [|s sprites IH]; intros es acc H; [done|].
  apply Forall_cons in H as [Hs H].
  destruct s as [pr|sl|]; cbn [collide_sprites].
  - destruct (sprite_alive (Shot pr)) eqn:Ea.
    + destruct Hs as [Hs|[Hs|Hs]]; [discriminate|congruence|].
      by rewrite (collide_enemies_saturated es _ acc Hs), (IH es acc H).
    + by rewrite (IH es acc H).
  - destruct (sprite_alive (Slash sl)) eqn:Ea.
    + destruct Hs as [Hs|[Hs|Hs]]; [discriminate|congruence|].
      by rewrite (collide_enemies_saturated es _ acc Hs), (IH es acc H).
    + by rewrite (IH es acc H).
  - by rewrite (IH es acc H).
Qed.

(** X17: a collision pass run again on what the first pass left (nothing
    having moved) deals no damage, kills nobody and changes nothing: every
    attack effect still in the group has by then hit every enemy it
    overlaps, and never hits the same enemy twice. *)
Theorem collision_pass_idempotent (projectile_group : list sprite)
    (enemy_group : list Enemy.t) :
  let '(sprites, enemies, _) :=
    handle_projectile_collisions projectile_group enemy_group in
  handle_projectile_collisions sprites enemies
  = (sprites, enemies, mk_tally 0 0 []).
Proof.
  unfold handle_projectile_collisions.
  destruct (collide_sprites_spec projectile_group enemy_group
              (mk_tally 0 0 [])) as (_ & _ & _ & _ & H).
  destruct (collide_sprites projectile_group enemy_group (mk_tally 0 0 []))
    as [[sprites enemies] tally].
  cbn [fst snd] in H. by apply collide_sprites_saturated.
Qed.

End Collisions.

(** ** Targeting (utils.py) *)

Module Targeting.

Lemma closest_from_spec pos max_range es : forall acc,
  match acc with
  | Some (c, dc) =>
      dc = Utils.distance_squared pos (Utils.center (Enemy.rect c))
      /\ Utils.within max_range dc = true
  | None => True
  end ->
  match Utils.closest_from pos max_range es acc with
  | Some (e, de) =>
      de = Utils.distance_squared pos (Utils.center (Enemy.rect e))
      /\ Utils.within max_range de = true
      /\ (e ∈ es \/ acc = Some (e, de))
      /\ (forall e', e' ∈ es ->
            Utils.within max_range
              (Utils.distance_squared pos (Utils.center (Enemy.rect e')))
            = true ->
            (de <= Utils.distance_squared pos (Utils.center (Enemy.rect e')))%Q)
      /\ (forall c dc, acc = Some (c, dc) -> (de <= dc)%Q)
  | None =>
      acc = None
      /\ forall e', e' ∈ es ->
           Utils.within max_range
             (Utils.distance_squared pos (Utils.center (Enemy.rect e')))
           = false
  end.
Proof.
  induction es as [|e es IH]; intros acc Hacc.
  - cbn. destruct acc as [[c dc]|].
    + destruct Hacc as [H1 H2]. split; [done|]. split; [done|].
      split; [by right|]. split.
      * intros e' H. by apply elem_of_nil in H.
      * intros c' dc' [= -> ->]. lra.
    + split; [done|]. intros e' H. by apply elem_of_nil in H.
  - cbn [Utils.closest_from].
    set (d := Utils.distance_squared pos (Utils.center (Enemy.rect e))).
    set (nearer := match acc with
                   | Some (_, dc) => Py.ltb d dc
                   | None => true
                   end).
    destruct (nearer && Utils.within max_range d) eqn:Ec.
    + apply andb_true_iff in Ec as [En Ew].
      specialize (IH (Some (e, d)) (conj eq_refl Ew)).
      destruct (Utils.closest_from pos max_range es (Some (e, d)))
        as [[x dx]|]; [|destruct IH as [? _]; discriminate].
      destruct IH as (I1 & I2 & I3 & I4 & I5).
      specialize (I5 e d eq_refl).
      split; [exact I1|]. split; [exact I2|]. split.
      { left. destruct I3 as [I3|[= -> ->]]; [by right|left]. }
      split.
      * intros e' He' Hw. apply elem_of_cons in He' as [->|He'].
        -- exact I5.
        -- by apply I4.
      * intros c dc ->. subst nearer. apply PyFacts.ltb_lt in En. lra.
    + specialize (IH acc Hacc).
      destruct (Utils.closest_from pos max_range es acc) as [[x dx]|].
      * destruct IH as (I1 & I2 & I3 & I4 & I5).
        split; [exact I1|]. split; [exact I2|]. split.
        { destruct I3 as [I3|I3]; [left; by right|by right]. }
        split; [|exact I5].
        intros e' He' Hw. apply elem_of_cons in He' as [->|He'];
          [|by apply I4].
        fold d in Hw |- *. rewrite Hw, andb_true_r in Ec. subst nearer.
        destruct acc as [[c dc]|]; [|discriminate].
        apply PyFacts.ltb_ge in Ec. specialize (I5 c dc eq_refl). lra.
      * destruct IH as [-> I]. split; [done|].
        intros e' He'. apply elem_of_cons in He' as [->|He'];
          [|by apply I].
        fold d. subst nearer. cbn in Ec. exact Ec.
Qed.

(** X18: [get_closest_enemy] returns an enemy of the group that is within
    the range and at least as near (by squared distance to the centre of its
    rectangle) as every other enemy within the range; it returns None
    exactly when no enemy of the group is within the range.  A range of
    None or of 0 counts as unlimited. *)
Theorem closest_enemy_is_nearest (pos : Vector2) (enemy_group : list Enemy.t)
    (max_range : option Q) :
  let dist e := Utils.distance_squared pos (Utils.center (Enemy.rect e)) in
  match Utils.get_closest_enemy pos enemy_group max_range with
  | Some e =>
      e ∈ enemy_group /\ Utils.within max_range (dist e) = true
      /\ (forall e', e' ∈ enemy_group ->
            Utils.within max_range (dist e') = true ->
            (dist e <= dist e')%Q)
  | None =>
      forall e', e' ∈ enemy_group -> Utils.within max_range (dist e') = false
  end.
Proof.
  cbn zeta. unfold Utils.get_closest_enemy.
  pose proof (closest_from_spec pos max_range enemy_group None I) as H.
  destruct (Utils.closest_from pos max_range enemy_group None) as [[e de]|];
    cbn [fmap option_fmap option_map fst].
  - destruct H as (-> & H2 & [H3|H3] & H4 & _); [|discriminate].
    split; [exact H3|]. split; [exact H2|exact H4].
  - by destruct H as [_ H].
Qed.

End Targeting.

(** ** The XP ledger (entities/player.py) *)

Module Ledger.

Import Forms.

Lemma gain_xp_ledger a p S :
  on_curve p ->
  2 * Player.xp p + 100 * (Player.level p - 1)
  + 25 * ((Player.level p - 1) * (Player.level p - 2)) = 2 * S ->
  let p' := (Player.gain_xp a p).1 in
  2 * Player.xp p' + 100 * (Player.level p' - 1)
  + 25 * ((Player.level p' - 1) * (Player.level p' - 2)) = 2 * (S + a).
Proof.
  intros [Hl Ht] H. cbn zeta.
  destruct (Progression.gain_xp_cases a p)
    as [(_ & _ & El & Ex & _)|(_ & _ & El & Ex & _)]; rewrite El, Ex.
  - lia.
  - rewrite Ht. unfold Settings.base_xp_to_level, Settings.xp_per_level_increase.
    assert ((100 + (Player.level p - 1) * 50) / 2
            = 50 + 25 * (Player.level p - 1)) as ->.
    { replace (100 + (Player.level p - 1) * 50)
        with ((50 + 25 * (Player.level p - 1)) * 2) by lia.
      by apply Z.div_mul. }
    nia.
Qed.

Lemma gain_all_ledger amounts : forall p S,
  on_curve p ->
  2 * Player.xp p + 100 * (Player.level p - 1)
  + 25 * ((Player.level p - 1) * (Player.level p - 2)) = 2 * S ->
  let p' := Player.gain_all amounts p in
  2 * Player.xp p' + 100 * (Player.level p' - 1)
  + 25 * ((Player.level p' - 1) * (Player.level p' - 2))
  = 2 * (S + fold_right Z.add 0 amounts).
Proof.
  induction amounts as [|a amounts IH]; intros p S Hc H.
  - cbn. lia.
  - cbn [Player.gain_all fold_left fold_right].
    fold (Player.gain_all amounts (Player.gain_xp a p).1).
    rewrite (IH _ (S + a)).
    + lia.
    + by apply Progression.gain_xp_on_curve.
    + by apply gain_xp_ledger.
Qed.

(** X19: no XP is ever lost or created by levelling: after any sequence
    of [gain_xp] calls on a fresh player, the XP banked plus the thresholds
    paid for the levels gained (50 for level 2, then 75, 100, ..., that is
    50 (L-1) + 25 (L-1)(L-2)/2 at level L) is the sum of the amounts
    gained.  The identity is stated doubled, to stay in the integers. *)
Theorem xp_is_conserved (box : Rect.t) (cheat : bool) (amounts : list Z) :
  let p := Player.gain_all amounts (Player.init box cheat) in
  2 * Player.xp p + 100 * (Player.level p - 1)
  + 25 * ((Player.level p - 1) * (Player.level p - 2))
  = 2 * fold_right Z.add 0 amounts.
Proof.
  cbn zeta.
  rewrite (gain_all_ledger amounts (Player.init box cheat) 0).
  - lia.
  - apply Progression.init_on_curve.
  - reflexivity.
Qed.

End Ledger.

(** ** The level-up menu over a session (weapons/controller.py, main.py) *)

Module Menu.

Import Forms WeaponController.

(** X20: whenever a session triggers the level-up menu, whatever upgrades
    were applied before, the candidate pool is not empty and
    [get_upgrade_options(count)] returns exactly [count] options, every one
    of them a candidate of the pool. *)
Theorem menu_never_short (box : Rect.t) (cheat : bool)
    (events : list Session.event) (count : nat) (g : Random.t) :
  let c := (Session.run events (Session.start box cheat)).2 in
  possible_upgrades c <> []
  /\ length (get_upgrade_options count g c).1 = count
  /\ (forall u, u ∈ (get_upgrade_options count g c).1 ->
        u ∈ possible_upgrades c).
Proof.
  cbn zeta.
  assert (reachable (Session.run events (Session.start box cheat)).2) as Hr
    by (apply Inventory.run_controller, reach_init).
  destruct (Upgrades.reachable_options_full count g _ Hr) as [H1 H2].
  split; [exact H1|]. split; [exact H2|].
  unfold get_upgrade_options.
  destruct (Upgrades.select_options_spec count
              (possible_upgrades (Session.run events (Session.start box cheat)).2) g)
    as (shuffled & padding & Hperm & -> & Hpad & _).
  intros u. rewrite elem_of_app. intros [Hu|Hu]; [|by apply Hpad].
  rewrite <- Hperm. by apply (subseteq_take count).
Qed.

End Menu.

(** ** The cheats menu (systems/ui.py) *)

Module CheatsFacts.

Import Laws.

Lemma round_bounds (x : Q) :
  (1 <= x <= 20)%Q -> 1 <= Cheats.round x <= 20.
Proof.
  intros [H1 H20]. unfold Cheats.round.
  pose proof (Qfloor_le x) as Hf. pose proof (Qlt_floor x) as Hf'.
  assert (1 <= Qfloor x) as Hlo
    by (change 1 with (Qfloor 1); by apply Qfloor_resp_le).
  assert (Qfloor x <= 20) as Hhi.
  { rewrite Zle_Qle. change (inject_Z 20) with 20%Q. lra. }
  destruct (Py.ltb (x - inject_Z (Qfloor x)) (1 # 2)) eqn:E1; [lia|].
  apply PyFacts.ltb_ge in E1.
  assert (Qfloor x < 20).
  { rewrite Zlt_Qlt. change (inject_Z 20) with 20%Q. lra. }
  destruct (Py.ltb _ _); [lia|]. destruct (Z.even _); lia.
Qed.

Lemma del_elem {V : Type} k (d : list (string * V)) kv :
  kv ∈ Cheats.del k d -> kv ∈ d.
Proof.
  induction d as [|[k0 v0] d IH]; cbn; [done|].
  destruct (String.eqb k k0).
  - by right.
  - rewrite !elem_of_cons. intros [->|H]; [by left|right; by apply IH].
Qed.

Lemma del_keys {V : Type} k (d : list (string * V)) :
  NoDup (map fst d) -> NoDup (map fst (Cheats.del k d)).
Proof.
  induction d as [|[k0 v0] d IH]; cbn; [done|].
  rewrite NoDup_cons. intros [Hn Hd].
  destruct (String.eqb k k0); [exact Hd|].
  cbn. apply NoDup_cons. split; [|by apply IH].
  intros Hin. apply Hn.
  apply list_elem_of_fmap in Hin as ([k1 v1] & -> & Hin).
  apply del_elem in Hin. apply list_elem_of_fmap. by exists (k1, v1).
Qed.

Lemma set_elem {V : Type} k (v : V) d kv :
  kv ∈ Py.set k v d -> kv = (k, v) \/ kv ∈ d.
Proof.
  induction d as [|[k0 v0] d IH]; cbn.
  - rewrite list_elem_of_singleton. by left.
  - destruct (String.eqb k k0); rewrite !elem_of_cons.
    + intros [->|H]; [by left|right; by right].
    + intros [->|H]; [right; by left|].
      destruct (IH H) as [->|H']; [by left|right; by right].
Qed.

Lemma set_keys {V : Type} k (v : V) d :
  NoDup (map fst d) -> NoDup (map fst (Py.set k v d)).
Proof.
  intros H. rewrite PyFacts.keys_set.
  destruct (Py.contains k d) eqn:E; [exact H|].
  apply NoDup_app. split; [exact H|]. split; [|apply NoDup_singleton].
  intros x Hx. rewrite list_elem_of_singleton. intros ->.
  apply PyFacts.contains_keys in Hx. congruence.
Qed.

(** Every field but the flag is as it should be: the flag follows. *)
Lemma updated_valid u w l sp e b :
  w ∈ Cheats.AVAILABLE_STARTING_WEAPONS ->
  1 <= l <= 8 ->
  (exists k : Z, 1 <= k <= 20 /\ (e == inject_Z k / 4)%Q) ->
  NoDup (map fst sp) ->
  (forall k lv, (k, lv) ∈ sp ->
     k ∈ Cheats.AVAILABLE_STARTING_PASSIVES /\ 1 <= lv <= 5) ->
  valid_settings (Cheats._update_cheats_enabled (Cheats.mk u w l sp e b)).
Proof. intros. by split. Qed.

Lemma passives_valid sp (cs : Cheats.t) :
  valid_settings cs ->
  NoDup (map fst sp) ->
  (forall k lv, (k, lv) ∈ sp ->
     k ∈ Cheats.AVAILABLE_STARTING_PASSIVES /\ 1 <= lv <= 5) ->
  valid_settings
    (Cheats._update_cheats_enabled (Cheats.set_starting_passives sp cs)).
Proof. intros [] ? ?. by apply updated_valid. Qed.

Lemma update_valid cs :
  valid_settings cs -> valid_settings (Cheats._update_cheats_enabled cs).
Proof. intros []. by split. Qed.

Lemma toggle_passive_valid idx cs :
  valid_settings cs -> valid_settings (Cheats._toggle_passive idx cs).
Proof.
  intros H. unfold Cheats._toggle_passive.
  destruct (_ || _); [exact H|].
  destruct (Cheats.AVAILABLE_STARTING_PASSIVES !! Z.to_nat idx) as [pid|] eqn:E;
    [|exact H].
  apply list_elem_of_lookup_2 in E.
  destruct (Py.contains pid _); apply passives_valid; try exact H.
  - apply del_keys, H.
  - intros k lv Hin. apply del_elem in Hin. by apply H.
  - apply set_keys, H.
  - intros k lv Hin. apply set_elem in Hin as [[= -> ->]|Hin];
      [split; [exact E|lia]|by apply H].
Qed.

Lemma adjust_passive_valid idx direction cs :
  valid_settings cs ->
  valid_settings (Cheats._adjust_passive_level idx direction cs).
Proof.
  intros H. unfold Cheats._adjust_passive_level.
  destruct (_ || _); [exact H|].
  destruct (Cheats.AVAILABLE_STARTING_PASSIVES !! Z.to_nat idx) as [pid|] eqn:E;
    [|exact H].
  apply list_elem_of_lookup_2 in E.
  assert (match Py.get pid Settings.PASSIVE_DATA with
          | Some passive_info => Settings.p_max_level passive_info
          | None => 5
          end = 5) as ->.
  { destruct (Py.get pid Settings.PASSIVE_DATA) eqn:Ed; [|done].
    by apply (Inventory.passive_max_level pid). }
  destruct (Py.get pid (Cheats.starting_passives cs)) as [lv|] eqn:Eg.
  - pose proof (vs_passives cs H pid lv (PyFacts.get_Some_elem _ _ _ Eg))
      as [_ Hlv].
    destruct (Z.ltb_spec (lv + direction) 1);
      [|destruct (Z.ltb_spec 5 (lv + direction))];
      apply passives_valid; try exact H.
    + apply del_keys, H.
    + intros k lv' Hin. apply del_elem in Hin. by apply H.
    + apply set_keys, H.
    + intros k lv' Hin. apply set_elem in Hin as [[= -> ->]|Hin];
        [split; [exact E|lia]|by apply H].
    + apply set_keys, H.
    + intros k lv' Hin. apply set_elem in Hin as [[= -> ->]|Hin];
        [split; [exact E|lia]|by apply H].
  - destruct (0 <? direction); [|by apply update_valid].
    apply passives_valid; try exact H.
    + apply set_keys, H.
    + intros k lv' Hin. apply set_elem in Hin as [[= -> ->]|Hin];
        [split; [exact E|lia]|by apply H].
Qed.

Lemma toggle_health_valid cs :
  valid_settings cs -> valid_settings (Cheats.toggle_unlimited_health cs).
Proof. intros []. by apply updated_valid. Qed.

Lemma cycle_weapon_valid direction cs :
  valid_settings cs -> valid_settings (Cheats._cycle_weapon direction cs).
Proof.
  intros H. unfold Cheats._cycle_weapon.
  destruct (Cheats.AVAILABLE_STARTING_WEAPONS !! _) as [w|] eqn:E; [|exact H].
  apply list_elem_of_lookup_2 in E. destruct H. by apply updated_valid.
Qed.

Lemma cycle_level_valid direction cs :
  valid_settings cs -> valid_settings (Cheats._cycle_weapon_level direction cs).
Proof.
  intros []. unfold Cheats._cycle_weapon_level.
  apply updated_valid; try done.
  destruct (Z.ltb_spec (Cheats.starting_weapon_level cs + direction) 1);
    [lia|].
  destruct (Z.ltb_spec 8 (Cheats.starting_weapon_level cs + direction)); lia.
Qed.

Lemma adjust_exp_valid direction cs :
  valid_settings cs ->
  valid_settings (Cheats._adjust_exp_multiplier direction cs).
Proof.
  intros []. unfold Cheats._adjust_exp_multiplier.
  apply updated_valid; try done.
  eexists. split; [|reflexivity].
  apply round_bounds.
  match goal with |- context [Py.max ?a (Py.min ?b ?c)] =>
    pose proof (SpawnerFacts.clamp_bounds c a b) as Hc end.
  unfold Py.clamp in Hc. lra.
Qed.

Lemma handle_valid cs i :
  valid_settings cs -> valid_settings (Cheats.handle cs i).
Proof.
  intros H. destruct i as [idx|idx direction]; cbn [Cheats.handle].
  - unfold Cheats._select_option.
    repeat (destruct (idx =? _);
            [first [by apply toggle_health_valid|by apply cycle_weapon_valid
                   |by apply cycle_level_valid|by apply adjust_exp_valid
                   |exact H]|]).
    destruct (0 <=? _); [by apply toggle_passive_valid|exact H].
  - unfold Cheats._adjust_option.
    repeat (destruct (idx =? _);
            [first [by apply toggle_health_valid|by apply cycle_weapon_valid
                   |by apply cycle_level_valid|by apply adjust_exp_valid
                   |exact H]|]).
    destruct (0 <=? _); [by apply adjust_passive_valid|exact H].
Qed.

(** X21: whatever is selected or adjusted in the cheats menu, in any
    order and with any step, the settings stay valid: the starting weapon is
    one of the five weapons, the starting level is between 1 and 8 (it
    wraps around), the EXP multiplier is a multiple of 0.25 between 0.25
    and 5.0, the starting passives are distinct known passives at levels 1
    to 5, and the cheats-enabled flag is set exactly when some setting
    differs from its default. *)
Theorem cheats_menu_keeps_settings_valid (inputs : list Cheats.input) :
  valid_settings (fold_left Cheats.handle inputs Cheats.CHEAT_SETTINGS).
Proof.
  assert (valid_settings Cheats.CHEAT_SETTINGS) as H0.
  { split.
    - left.
    - cbn. lia.
    - exists 4. split; [lia|reflexivity].
    - constructor.
    - intros k lv H. by apply elem_of_nil in H.
    - reflexivity. }
  revert H0. generalize Cheats.CHEAT_SETTINGS.
  induction inputs as [|i inputs IH]; intros cs H; [exact H|].
  cbn [fold_left]. apply IH. by apply handle_valid.
Qed.

End CheatsFacts.

(** ** The starting loadout (main.py [_init_entities]) *)

Module LoadoutFacts.

Import WeaponController.

Lemma set_new {V : Type} k (v : V) d :
  Py.get k d = None -> Py.set k v d = d ++ [(k, v)].
Proof.
  induction d as [|[k0 v0] d IH]; cbn; [done|].
  destruct (String.eqb k k0); [done|]. intros H. by rewrite IH.
Qed.

Lemma get_app_last {V : Type} k (v : V) d :
  Py.get k d = None -> Py.get k (d ++ [(k, v)]) = Some v.
Proof.
  induction d as [|[k0 v0] d IH]; cbn.
  - by rewrite String.eqb_refl.
  - destruct (String.eqb k k0); [done|]. exact IH.
Qed.

Lemma set_app_last {V : Type} k (v v' : V) d :
  Py.get k d = None -> Py.set k v' (d ++ [(k, v)]) = d ++ [(k, v')].
Proof.
  induction d as [|[k0 v0] d IH]; cbn.
  - by rewrite String.eqb_refl.
  - destruct (String.eqb k k0); [done|]. intros H. by rewrite IH.
Qed.

Lemma level_up_times_level n : forall p w,
  Weapon.max_level w = 8 -> 1 <= Weapon.level w <= 8 ->
  Weapon.max_level (Weapon.level_up_times n p w) = 8
  /\ Weapon.level (Weapon.level_up_times n p w)
     = Z.min (Weapon.level w + Z.of_nat n) 8.
Proof.
  induction n as [|n IH]; intros p w Hm Hl.
  - cbn. split; [exact Hm|lia].
  - cbn [Weapon.level_up_times].
    destruct (WeaponStats.level_up_cases p w) as [[Hlt E]|[Hge E]];
      rewrite E; cbn [fst].
    + destruct (IH p (Weapon._recalculate_stats p
                        (Weapon.mk (Weapon.weapon_id w) (Weapon.data w)
                           (Weapon.level w + 1) (Weapon.max_level w)
                           (Weapon.damage w) (Weapon.cooldown w)
                           (Weapon.area w) (Weapon.speed w) (Weapon.amount w)
                           (Weapon.pierce w) (Weapon.size_multiplier w)
                           (Weapon.cooldown_timer w) (Weapon.evolved w)
                           (Weapon.evolution_id w) (Weapon.evolution_passive w)
                           (Weapon.homing w) (Weapon.aura w))))
        as [I1 I2]; [exact Hm|cbn; lia|].
      split; [exact I1|]. rewrite I2. cbn. lia.
    + destruct (IH p w Hm Hl) as [I1 I2]. split; [exact I1|]. lia.
Qed.

(** One [add_passive] call on an inventory holding one weapon. *)
Lemma add_passive_shape k pd p c sw w :
  Py.get k Settings.PASSIVE_DATA = Some pd ->
  weapons c = [(sw, w)] ->
  let r := (add_passive k p c).1 in
  max_passives r.2 = max_passives c
  /\ (exists w', weapons r.2 = [(sw, w')] /\ Weapon.level w' = Weapon.level w)
  /\ passives r.2
     = match Py.get k (passives c) with
       | Some lv =>
           if lv <? 5 then Py.set k (lv + 1) (passives c) else passives c
       | None =>
           if (max_passives c <=? length (passives c))%nat then passives c
           else Py.set k 1 (passives c)
       end.
Proof.
  intros Hd Hw. cbn zeta. unfold add_passive.
  rewrite Hd, (Inventory.passive_max_level _ _ Hd).
  destruct (Py.get k (passives c)) as [lv|].
  - destruct (lv <? 5); cbn [fst snd _update_weapon_stats weapons passives
                             max_passives]; (split; [done|]); (split; [|done]).
    + rewrite Hw. eexists. split; reflexivity.
    + by exists w.
  - destruct (_ <=? _)%nat;
      cbn [fst snd _update_weapon_stats weapons passives max_passives];
      (split; [done|]); (split; [|done]).
    + by exists w.
    + rewrite Hw. eexists. split; reflexivity.
Qed.

(** Further calls on a passive that is already the last one held. *)
Lemma add_passive_times_bump n : forall k pd p c sw w ps j,
  Py.get k Settings.PASSIVE_DATA = Some pd ->
  weapons c = [(sw, w)] ->
  Py.get k ps = None -> 1 <= j <= 5 ->
  passives c = ps ++ [(k, j)] ->
  let r := Loadout.add_passive_times n k (p, c) in
  max_passives r.2 = max_passives c
  /\ (exists w', weapons r.2 = [(sw, w')] /\ Weapon.level w' = Weapon.level w)
  /\ passives r.2 = ps ++ [(k, Z.min (j + Z.of_nat n) 5)].
Proof.
  induction n as [|n IH]; intros k pd p c sw w ps j Hd Hw Hk Hj Hp.
  - cbn. split; [done|]. split; [by exists w|].
    rewrite Hp. do 3 f_equal. lia.
  - cbn [Loadout.add_passive_times fst snd].
    destruct (add_passive_shape k pd p c sw w Hd Hw) as (S1 & (w1 & S2 & S3) & S4).
    cbn zeta in *. rewrite Hp, (get_app_last _ _ _ Hk) in S4.
    destruct (add_passive k p c) as [[p1 c1] ok]. cbn [fst snd] in *.
    destruct (Z.ltb_spec j 5).
    + rewrite (set_app_last _ _ _ _ Hk) in S4.
      destruct (IH k pd p1 c1 sw w1 ps (j + 1) Hd S2 Hk) as (I1 & (w2 & I2 & I3) & I4);
        [lia|exact S4|].
      split; [congruence|]. split; [exists w2; split; [done|congruence]|].
      rewrite I4. do 3 f_equal. lia.
    + destruct (IH k pd p1 c1 sw w1 ps j Hd S2 Hk Hj S4)
        as (I1 & (w2 & I2 & I3) & I4).
      split; [congruence|]. split; [exists w2; split; [done|congruence]|].
      rewrite I4. do 3 f_equal. lia.
Qed.

(** The calls for one wanted starting passive. *)
Lemma add_passive_times_new n k pd p c sw w :
  Py.get k Settings.PASSIVE_DATA = Some pd ->
  weapons c = [(sw, w)] ->
  max_passives c = Settings.MAX_PASSIVES ->
  Py.get k (passives c) = None ->
  let r := Loadout.add_passive_times (S n) k (p, c) in
  max_passives r.2 = max_passives c
  /\ (exists w', weapons r.2 = [(sw, w')] /\ Weapon.level w' = Weapon.level w)
  /\ passives r.2
     = if (Settings.MAX_PASSIVES <=? length (passives c))%nat
       then passives c
       else passives c ++ [(k, Z.min (Z.of_nat (S n)) 5)].
Proof.
  intros Hd Hw Hmax Hk. revert p c w Hw Hmax Hk.
  destruct (Nat.leb_spec Settings.MAX_PASSIVES 0) as [Hbad|_];
    [unfold Settings.MAX_PASSIVES in Hbad; lia|].
  intros p c w Hw Hmax Hk.
  destruct (Nat.leb_spec Settings.MAX_PASSIVES (length (passives c)))
    as [Hfull|Hfree].
  - (* no slot: every call fails *)
    assert (forall m p0,
      Loadout.add_passive_times m k (p0, c) = (p0, c)) as Hidle.
    { induction m as [|m IHm]; intros p0; [done|].
      cbn [Loadout.add_passive_times fst snd].
      unfold add_passive at 1. rewrite Hd, Hk, Hmax.
      destruct (Nat.leb_spec Settings.MAX_PASSIVES (length (passives c)));
        [|lia].
      cbn [fst]. apply IHm. }
    cbn zeta. rewrite Hidle. cbn [snd]. split; [done|]. split; [by exists w|done].
  - cbn zeta. cbn [Loadout.add_passive_times fst snd].
    destruct (add_passive_shape k pd p c sw w Hd Hw) as (S1 & (w1 & S2 & S3) & S4).
    cbn zeta in *. rewrite Hk, Hmax in S4.
    destruct (Nat.leb_spec Settings.MAX_PASSIVES (length (passives c)));
      [lia|].
    rewrite (set_new _ _ _ Hk) in S4.
    destruct (add_passive k p c) as [[p1 c1] ok]. cbn [fst snd] in *.
    destruct (add_passive_times_bump n k pd p1 c1 sw w1 (passives c) 1 Hd S2 Hk)
      as (I1 & (w2 & I2 & I3) & I4); [lia|exact S4|].
    split; [congruence|]. split; [exists w2; split; [done|congruence]|].
    rewrite I4. do 3 f_equal. lia.
Qed.

(** The loop over the starting passives, [granted] being the wanted
    entries met so far. *)
Lemma passives_loop sw sp : forall granted p c w,
  NoDup (map fst sp) ->
  (forall k, k ∈ map fst granted -> k ∉ map fst sp) ->
  weapons c = [(sw, w)] ->
  max_passives c = Settings.MAX_PASSIVES ->
  passives c
  = map (fun kl => (fst kl, Z.min (snd kl) 5)) (take 6 granted) ->
  let r :=
    fold_left
      (fun st kl =>
         if Py.contains (fst kl) Settings.PASSIVE_DATA
         then Loadout.add_passive_times (Z.to_nat (snd kl)) (fst kl) st
         else st)
      sp (p, c) in
  (exists w', weapons r.2 = [(sw, w')] /\ Weapon.level w' = Weapon.level w)
  /\ passives r.2
     = map (fun kl => (fst kl, Z.min (snd kl) 5))
         (take 6 (granted ++ List.filter Loadout.wanted sp)).
Proof.
  induction sp as [|[k lv] sp IH]; intros granted p c w Hnd Hg Hw Hmax Hp.
  - cbn. rewrite app_nil_r. split; [by exists w|exact Hp].
  - cbn [map fst] in Hnd. apply NoDup_cons in Hnd as [Hk Hnd].
    assert (forall k', k' ∈ map fst granted -> k' ∉ map fst sp) as Hg'.
    { intros k' Hk' Hin. apply (Hg k' Hk'). cbn. by right. }
    cbn [fold_left List.filter fst snd]. unfold Loadout.wanted at 1.
    cbn [fst snd].
    destruct (Py.contains k Settings.PASSIVE_DATA) eqn:Ec;
      [|by apply (IH granted p c w)].
    cbn [andb]. destruct (Z.ltb_spec 0 lv) as [Hlv|Hlv].
    2: { replace (Z.to_nat lv) with 0%nat by lia.
         by apply (IH granted p c w). }
    unfold Py.contains in Ec.
    destruct (Py.get k Settings.PASSIVE_DATA) as [pd|] eqn:Ed; [|done].
    assert (Py.get k (passives c) = None) as Hnone.
    { apply PyFacts.get_None_keys. rewrite Hp. intros Hin.
      apply list_elem_of_fmap in Hin as ([k1 l1] & -> & Hin).
      apply list_elem_of_fmap in Hin as ([k2 l2] & [= -> ->] & Hin).
      apply (subseteq_take 6) in Hin.
      apply (Hg k2); [apply list_elem_of_fmap; by exists (k2, l2)|left]. }
    destruct (Z.to_nat lv) as [|n] eqn:En; [lia|].
    destruct (add_passive_times_new n k pd p c sw w Ed Hw Hmax Hnone)
      as (T1 & (w1 & T2 & T3) & T4).
    cbn zeta in *.
    destruct (Loadout.add_passive_times (S n) k (p, c)) as [p1 c1].
    cbn [fst snd] in *.
    destruct (IH (granted ++ [(k, lv)]) p1 c1 w1) as ((w2 & I1 & I2) & I3);
      try done.
    + intros k'. rewrite map_app, elem_of_app. cbn.
      rewrite list_elem_of_singleton. intros [Hk'| ->]; [by apply Hg'|done].
    + congruence.
    + rewrite T4, Hp.
      assert (length (map (fun kl : string * Z => (kl.1, Z.min kl.2 5))
                        (take 6 granted))
              = Nat.min 6 (length granted)) as Hlen
        by (by rewrite length_map, length_take).
      rewrite Hlen. unfold Settings.MAX_PASSIVES.
      destruct (Nat.leb_spec 6 (Nat.min 6 (length granted))) as [Hfull|Hfree].
      * by rewrite take_app_le by lia.
      * rewrite !take_ge by (rewrite ?length_app; cbn; lia).
        rewrite map_app. cbn. do 3 f_equal. lia.
    + split; [exists w2; split; [done|congruence]|].
      by rewrite I3, <- app_assoc.
Qed.

(** X22: the starting loadout.  With a starting weapon among the weapon
    classes, [_init_entities] leaves exactly that weapon in the inventory,
    at the starting level of the settings clamped to 1..8.  The starting
    passives are granted in the order of the dictionary, each known one of
    positive level at its level capped at 5, but only the first six of
    them: the inventory has six passive slots, so when all seven passives
    of the cheats menu are switched on the seventh is silently left out. *)
Theorem starting_loadout (box : Rect.t) (cs : Cheats.t) :
  Cheats.starting_weapon cs ∈ WEAPON_CLASSES ->
  NoDup (map fst (Cheats.starting_passives cs)) ->
  let c := (Loadout._init_entities box cs).2 in
  (exists w,
     weapons c = [(Cheats.starting_weapon cs, w)]
     /\ Weapon.level w
        = Z.min (Z.max 1 (Cheats.starting_weapon_level cs)) 8)
  /\ passives c
     = map (fun kl => (fst kl, Z.min (snd kl) 5))
         (take 6 (List.filter Loadout.wanted (Cheats.starting_passives cs))).
Proof.
  intros Hsw Hnd. cbn zeta. unfold Loadout._init_entities.
  set (p := Player.init box (Cheats.unlimited_health cs)).
  set (sw := Cheats.starting_weapon cs) in *.
  assert ((add_weapon sw p WeaponController.init).1
          = mk [(sw, Weapon.init sw p)] [] Settings.MAX_WEAPONS
              Settings.MAX_PASSIVES) as ->.
  { unfold add_weapon, WeaponController.init.
    cbn [weapons passives max_weapons max_passives Py.get Py.set length].
    change (Settings.MAX_WEAPONS <=? 0)%nat with false. cbn iota.
    assert (existsb (String.eqb sw) WEAPON_CLASSES = true) as ->; [|done].
    apply existsb_exists. exists sw.
    split; [by apply list_elem_of_In|apply String.eqb_refl]. }
  destruct (Inventory.init_frame sw p) as (_ & _ & F3 & F4).
  cbn [weapons passives max_weapons max_passives Py.get Py.set].
  rewrite String.eqb_refl.
  match goal with |- context [fold_left _ _ (p, ?x)] => set (c2 := x) end.
  assert (exists w2,
    weapons c2 = [(sw, w2)] /\ max_passives c2 = Settings.MAX_PASSIVES
    /\ passives c2 = []
    /\ Weapon.level w2 = Z.min (Z.max 1 (Cheats.starting_weapon_level cs)) 8)
    as (w2 & W1 & W2 & W3 & W4).
  { subst c2. destruct (Z.ltb_spec 1 (Cheats.starting_weapon_level cs)).
    - eexists. split; [reflexivity|]. split; [done|]. split; [done|].
      destruct (level_up_times_level
                  (Z.to_nat (Cheats.starting_weapon_level cs - 1)) p
                  (Weapon.init sw p) F3) as [_ ->]; lia.
    - exists (Weapon.init sw p). repeat split; try done. lia. }
  destruct (passives_loop sw (Cheats.starting_passives cs) [] p c2 w2)
    as ((w3 & L1 & L2) & L3); try done.
  - intros k Hk. by apply elem_of_nil in Hk.
  - cbn zeta in *. split; [|exact L3].
    exists w3. split; [exact L1|congruence].
Qed.

Lemma starting_loadout_witness :
  let c := (Loadout._init_entities (Rect.mk 0 0 40 40) Cases.all_passives).2 in
  (exists w, weapons c = [("axe"%string, w)] /\ Weapon.level w = 8)
  /\ passives c
     = [("might_boost", 5); ("max_hp_boost", 1); ("regen_boost", 2);
        ("pickup_boost", 3); ("armor_boost", 4); ("speed_boost", 5)]%string.
Proof.
  apply (starting_loadout (Rect.mk 0 0 40 40) Cases.all_passives).
  - compute_done.
  - compute_done.
Defined.

End LoadoutFacts.

(** ** The spatial hash (utils.py) *)

Module Grid.

Lemma offsets_spec radius d :
  d ∈ SpatialHash.offsets radius <-> - radius <= d <= radius.
Proof. unfold SpatialHash.offsets. rewrite elem_of_seqZ. lia. Qed.

Lemma nearby_spec pos radius h l x :
  SpatialHash.get_nearby pos radius h = Some l ->
  x ∈ l
  <-> exists cell dx dy,
        SpatialHash._get_cell pos h = Some cell
        /\ - radius <= dx <= radius /\ - radius <= dy <= radius
        /\ x ∈ default [] (SpatialHash.cells h !! (cell.1 + dx, cell.2 + dy)).
Proof.
  unfold SpatialHash.get_nearby.
  destruct (SpatialHash._get_cell pos h) as [cell|]; [|done].
  intros [= <-]. rewrite list_elem_of_bind. split.
  - intros (dx & Hx & Hdx). apply list_elem_of_bind in Hx as (dy & Hx & Hdy).
    apply offsets_spec in Hdx, Hdy. by exists cell, dx, dy.
  - intros (cell' & dx & dy & [= <-] & Hdx & Hdy & Hx).
    exists dx. split; [|by apply offsets_spec].
    apply list_elem_of_bind. exists dy. split; [done|by apply offsets_spec].
Qed.

(** X23: the spatial hash finds what was inserted.  After [insert] of an
    entity at a position, [get_nearby] from any position whose cell is at
    most [radius] cells away in each coordinate returns the entity, in
    particular from the same position with any radius of 0 or more;
    everything [get_nearby] returned before the insertion it still
    returns; and after [clear] it returns nothing. *)
Theorem spatial_hash_finds_inserted (h h' : SpatialHash.t) (entity : Z)
    (pos pos' : Vector2) (radius : Z) (cell cell' : Z * Z) :
  SpatialHash.insert entity pos h = Some h' ->
  SpatialHash._get_cell pos h = Some cell ->
  SpatialHash._get_cell pos' h = Some cell' ->
  - radius <= cell.1 - cell'.1 <= radius ->
  - radius <= cell.2 - cell'.2 <= radius ->
  exists l l0,
    SpatialHash.get_nearby pos' radius h' = Some l
    /\ entity ∈ l
    /\ SpatialHash.get_nearby pos' radius h = Some l0
    /\ (forall x, x ∈ l0 -> x ∈ l)
    /\ SpatialHash.get_nearby pos' radius (SpatialHash.clear h') = Some [].
Proof.
  intros Hins Hc Hc' Hx Hy.
  unfold SpatialHash.insert in Hins. rewrite Hc in Hins.
  injection Hins as <-.
  assert (forall g, SpatialHash._get_cell pos'
                      (SpatialHash.mk (SpatialHash.cell_size h) g)
                    = Some cell') as Hcell
    by (intros g; exact Hc').
  destruct (SpatialHash.get_nearby pos' radius
              (SpatialHash.mk (SpatialHash.cell_size h)
                 (<[cell:=default [] (SpatialHash.cells h !! cell) ++ [entity]]>
                    (SpatialHash.cells h)))) as [l|] eqn:El.
  2: { unfold SpatialHash.get_nearby in El. by rewrite Hcell in El. }
  destruct (SpatialHash.get_nearby pos' radius h) as [l0|] eqn:El0.
  2: { unfold SpatialHash.get_nearby in El0. by rewrite Hc' in El0. }
  exists l, l0. split; [done|]. split; [|split; [done|split]].
  - apply (nearby_spec _ _ _ _ _ El).
    exists cell', (cell.1 - cell'.1), (cell.2 - cell'.2).
    split; [apply Hcell|]. split; [done|]. split; [done|].
    cbn [SpatialHash.cells].
    replace (cell'.1 + (cell.1 - cell'.1), cell'.2 + (cell.2 - cell'.2))
      with cell by (destruct cell; cbn; f_equal; lia).
    rewrite lookup_insert_eq. cbn. apply elem_of_app. right. left.
  - intros x Hx0. apply (nearby_spec _ _ _ _ _ El0) in Hx0
      as (c0 & dx & dy & Hc0 & Hdx & Hdy & Hin).
    apply (nearby_spec _ _ _ _ _ El).
    exists c0, dx, dy. split; [by rewrite Hcell, <- Hc0, Hc'|].
    split; [done|]. split; [done|]. cbn [SpatialHash.cells].
    destruct (decide (cell = (c0.1 + dx, c0.2 + dy))) as [->|Hne].
    + rewrite lookup_insert_eq. cbn. apply elem_of_app. by left.
    + by rewrite lookup_insert_ne.
  - unfold SpatialHash.get_nearby, SpatialHash.clear.
    cbn [SpatialHash.cell_size]. rewrite Hcell. f_equal.
    cbn [SpatialHash.cells].
    assert (forall xs ys : list Z,
      (dx ← xs; dy ← ys;
       default [] ((∅ : gmap (Z * Z) (list Z))
                   !! (cell'.1 + dx, cell'.2 + dy))) = []) as Hempty.
    { induction xs as [|dx xs IHx]; intros ys; [done|].
      rewrite bind_cons, IHx, app_nil_r.
      induction ys as [|dy ys IHy]; [done|].
      rewrite bind_cons, lookup_empty. exact IHy. }
    apply Hempty.
Qed.

Lemma spatial_hash_finds_inserted_witness :
  let h := SpatialHash.init 100 in
  exists h' l,
    SpatialHash.insert 7 (250, 130)%Q h = Some h'
    /\ SpatialHash.get_nearby (180, 90)%Q 1 h' = Some l /\ 7 ∈ l.
Proof.
  intros h.
  destruct (spatial_hash_finds_inserted h
              (SpatialHash.mk 100 {[ (2, 1) := [7] ]}) 7
              (250, 130)%Q (180, 90)%Q 1 (2, 1) (1, 0))
    as (l & l0 & H1 & H2 & _); try (cbn; lia); try reflexivity.
  exists (SpatialHash.mk 100 {[ (2, 1) := [7] ]}), l.
  split; [reflexivity|]. split; [exact H1|exact H2].
Defined.

End Grid.

(** ** Collecting drops (entities/drops.py) *)

Module Collecting.

Import Laws.

Lemma update_spec pull dt player_pos pickup_radius d :
  Pickups.collected d = false ->
  let d' := Pickups.update pull dt player_pos pickup_radius d in
  Pickups.collected d' = reached player_pos pickup_radius d
  /\ (Pickups.is_magnetized d = true -> Pickups.is_magnetized d' = true)
  /\ match Pickups.item d, Pickups.item d' with
     | Drops.ExperienceGem _ t v, Drops.ExperienceGem _ t' v' =>
         t' = t /\ v' = v
     | Drops.HealthPickup _ v, Drops.HealthPickup _ v' => v' = v
     | Drops.Chest pos, Drops.Chest pos' =>
         pos' = pos /\ Pickups.is_magnetized d' = Pickups.is_magnetized d
     | _, _ => False
     end.
Proof.
  intros Hc. cbn zeta. unfold Pickups.update, reached.
  destruct d as [[pos t v|pos v|pos] m c]; cbn in Hc; subst c;
    cbn [Pickups.item Pickups.is_magnetized Pickups.collected Pickups.pos_of].
  - unfold Pickups.magnetize.
    cbn [Pickups.item Pickups.is_magnetized Pickups.collected Pickups.pos_of].
    destruct (Pickups.within pos player_pos pickup_radius),
      (Pickups.within pos player_pos 5), m; cbn; done.
  - unfold Pickups.magnetize.
    cbn [Pickups.item Pickups.is_magnetized Pickups.collected Pickups.pos_of].
    destruct (Pickups.within pos player_pos pickup_radius),
      (Pickups.within pos player_pos 5), m; cbn; done.
  - unfold Pickups.chest_magnetize. cbn [Pickups.item Pickups.pos_of].
    change (Pickups.chest_size + 10)%Q with 26%Q.
    destruct (Pickups.within pos player_pos 26); cbn; done.
Qed.

Lemma manager_update_spec pull dt player_pos pickup_radius drops :
  forall acc,
  Forall (fun d => Pickups.collected d = false) drops ->
  let r := Pickups.manager_update pull dt player_pos pickup_radius drops acc in
  gem_total drops + Pickups.xp acc = Pickups.xp r.2 + gem_total r.1
  /\ (health_total drops + Pickups.health acc
      == Pickups.health r.2 + health_total r.1)%Q
  /\ (chest_count drops + length (Pickups.chests acc)
      = length (Pickups.chests r.2) + chest_count r.1)%nat
  /\ Forall (fun d => Pickups.collected d = false) r.1
  /\ (length r.1
      = length (List.filter
                  (fun d => negb (reached player_pos pickup_radius d)) drops)).
Proof.
  induction drops as [|d drops IH]; intros acc Hall.
  - cbn. repeat split; try done; try lia. lra.
  - apply Forall_cons in Hall as [Hd Hall].
    cbn [Pickups.manager_update].
    pose proof (update_spec pull dt player_pos pickup_radius d Hd)
      as (H1 & _ & H3).
    cbn zeta in H1, H3.
    set (d' := Pickups.update pull dt player_pos pickup_radius d) in *.
    cbn [List.filter]. rewrite <- H1.
    destruct (Pickups.collected d') eqn:Ec; cbn [negb].
    + destruct (Pickups.item d) as [pos t v|pos v|pos] eqn:Ei,
        (Pickups.item d') as [pos' t' v'|pos' v'|pos'] eqn:Ei'; try done.
      * destruct H3 as [-> ->].
        match goal with |- context [Pickups.manager_update _ _ _ _ _ ?a] =>
          destruct (IH a Hall) as (I1 & I2 & I3 & I4 & I5) end.
        cbn zeta in *. cbn [Pickups.xp Pickups.health Pickups.chests] in *.
        unfold gem_total, health_total, chest_count in *.
        cbn [fold_right List.filter]. rewrite Ei.
        repeat split; try done; try lia.
      * subst v'.
        match goal with |- context [Pickups.manager_update _ _ _ _ _ ?a] =>
          destruct (IH a Hall) as (I1 & I2 & I3 & I4 & I5) end.
        cbn zeta in *. cbn [Pickups.xp Pickups.health Pickups.chests] in *.
        unfold gem_total, health_total, chest_count in *.
        cbn [fold_right List.filter]. rewrite Ei.
        repeat split; try done; try lia. lra.
      * match goal with |- context [Pickups.manager_update _ _ _ _ _ ?a] =>
          destruct (IH a Hall) as (I1 & I2 & I3 & I4 & I5) end.
        cbn zeta in *. cbn [Pickups.xp Pickups.health Pickups.chests] in *.
        rewrite length_app in I3. cbn [length] in I3.
        unfold gem_total, health_total, chest_count in *.
        cbn [fold_right List.filter length]. rewrite Ei. cbn [length].
        repeat split; try done; try lia.
    + destruct (IH acc Hall) as (I1 & I2 & I3 & I4 & I5).
      destruct (Pickups.manager_update pull dt player_pos pickup_radius drops acc)
        as [kept acc'].
      cbn zeta in *. cbn [fst snd length] in *.
      unfold gem_total, health_total, chest_count in *.
      cbn [fold_right List.filter].
      split; [|split; [|split; [|split; [by constructor|by rewrite I5]]]].
      * destruct (Pickups.item d) as [pos t v|pos v|pos] eqn:Ei,
          (Pickups.item d') as [pos' t' v'|pos' v'|pos'] eqn:Ei'; try done.
        -- destruct H3 as [_ ->]. lia.
      * destruct (Pickups.item d) as [pos t v|pos v|pos] eqn:Ei,
          (Pickups.item d') as [pos' t' v'|pos' v'|pos'] eqn:Ei'; try done.
        -- subst v'. lra.
      * destruct (Pickups.item d) as [pos t v|pos v|pos] eqn:Ei,
          (Pickups.item d') as [pos' t' v'|pos' v'|pos'] eqn:Ei'; try done.
        -- cbn [length]. lia.
Qed.

(** What the call leaves and what it returns, drop by drop. *)
Lemma manager_update_exact pull dt player_pos pickup_radius drops :
  forall acc,
  Forall (fun d => Pickups.collected d = false) drops ->
  let upd := Pickups.update pull dt player_pos pickup_radius in
  let hit := reached player_pos pickup_radius in
  let r := Pickups.manager_update pull dt player_pos pickup_radius drops acc in
  r.1 = map upd (List.filter (fun d => negb (hit d)) drops)
  /\ Pickups.xp r.2 = Pickups.xp acc + gem_total (List.filter hit drops)
  /\ (Pickups.health r.2
      == Pickups.health acc + health_total (List.filter hit drops))%Q
  /\ Pickups.chests r.2
     = Pickups.chests acc
       ++ map upd (List.filter (fun d => hit d && is_chest d) drops).
Proof.
  induction drops as [|d drops IH]; intros acc Hall; cbn zeta.
  - cbn. rewrite app_nil_r. split; [done|]. split; [lia|]. split; [lra|done].
  - apply Forall_cons in Hall as [Hd Hall].
    cbn [Pickups.manager_update List.filter].
    pose proof (update_spec pull dt player_pos pickup_radius d Hd)
      as (H1 & _ & H3).
    cbn zeta in H1, H3.
    set (d' := Pickups.update pull dt player_pos pickup_radius d) in *.
    rewrite <- H1. unfold is_chest at 1.
    destruct (Pickups.collected d') eqn:Ec; cbn [negb andb].
    + destruct (Pickups.item d) as [pos t v|pos v|pos] eqn:Ei,
        (Pickups.item d') as [pos' t' v'|pos' v'|pos'] eqn:Ei'; try done.
      * destruct H3 as [-> ->].
        match goal with |- context [Pickups.manager_update _ _ _ _ _ ?a] =>
          destruct (IH a Hall) as (I1 & I2 & I3 & I4) end.
        cbn zeta in *. cbn [Pickups.xp Pickups.health Pickups.chests] in *.
        unfold gem_total, health_total in *. cbn [fold_right]. rewrite Ei.
        split; [exact I1|]. split; [lia|]. split; [exact I3|exact I4].
      * subst v'.
        match goal with |- context [Pickups.manager_update _ _ _ _ _ ?a] =>
          destruct (IH a Hall) as (I1 & I2 & I3 & I4) end.
        cbn zeta in *. cbn [Pickups.xp Pickups.health Pickups.chests] in *.
        unfold gem_total, health_total in *. cbn [fold_right]. rewrite Ei.
        split; [exact I1|]. split; [exact I2|]. split; [lra|exact I4].
      * match goal with |- context [Pickups.manager_update _ _ _ _ _ ?a] =>
          destruct (IH a Hall) as (I1 & I2 & I3 & I4) end.
        cbn zeta in *. cbn [Pickups.xp Pickups.health Pickups.chests] in *.
        unfold gem_total, health_total in *. cbn [fold_right map]. rewrite Ei.
        split; [exact I1|]. split; [exact I2|]. split; [exact I3|].
        fold d'. by rewrite I4, <- app_assoc.
    + destruct (IH acc Hall) as (I1 & I2 & I3 & I4).
      destruct (Pickups.manager_update pull dt player_pos pickup_radius drops acc)
        as [kept acc'].
      cbn zeta in *. cbn [fst snd map] in *. fold d'.
      split; [by rewrite I1|]. split; [exact I2|]. split; [exact I3|exact I4].
Qed.

(** X24: [DropManager.update] neither loses nor creates anything, and what
    it takes is exactly what the player reached.  A drop is reached in a
    frame when, being a chest, it lies within 26 pixels of the player
    whatever the pickup radius, or, being a gem or a health pickup, it lies
    within 5 pixels and is magnetized, which it becomes inside the pickup
    radius and then stays.  The drops the call leaves in the group are the
    drops not reached, each updated, in their order; the XP it returns is
    the XP of the gems reached, the health that of the health pickups
    reached, and the chests are the chests reached.  So the XP in the gems
    of the group before the call is the XP returned plus the XP in the gems
    left, and the same holds of the health and of the number of chests. *)
Theorem drops_conserved (pull : Vector2 -> Vector2 -> Q -> Q -> Vector2)
    (dt : Q) (player_pos : Vector2) (pickup_radius : Q)
    (drop_group : list Pickups.t) :
  Forall (fun d => Pickups.collected d = false) drop_group ->
  let upd := Pickups.update pull dt player_pos pickup_radius in
  let hit := reached player_pos pickup_radius in
  let '(remaining, tally) :=
    Pickups.DropManager_update pull dt player_pos pickup_radius drop_group in
  remaining = map upd (List.filter (fun d => negb (hit d)) drop_group)
  /\ Pickups.xp tally = gem_total (List.filter hit drop_group)
  /\ (Pickups.health tally == health_total (List.filter hit drop_group))%Q
  /\ Pickups.chests tally
     = map upd (List.filter (fun d => hit d && is_chest d) drop_group)
  /\ gem_total drop_group = Pickups.xp tally + gem_total remaining
  /\ (health_total drop_group
      == Pickups.health tally + health_total remaining)%Q
  /\ (chest_count drop_group
      = length (Pickups.chests tally) + chest_count remaining)%nat
  /\ Forall (fun d => Pickups.collected d = false) remaining.
Proof.
  intros Hall upd hit. subst upd hit. unfold Pickups.DropManager_update.
  destruct (manager_update_spec pull dt player_pos pickup_radius drop_group
              (Pickups.mk_tally 0 0 []) Hall) as (H1 & H2 & H3 & H4 & _).
  destruct (manager_update_exact pull dt player_pos pickup_radius drop_group
              (Pickups.mk_tally 0 0 []) Hall) as (E1 & E2 & E3 & E4).
  destruct (Pickups.manager_update _ _ _ _ _ _) as [remaining tally].
  cbn [fst snd Pickups.xp Pickups.health Pickups.chests length app] in *.
  split; [exact E1|]. split; [lia|]. split; [lra|]. split; [exact E4|].
  split; [lia|]. split; [lra|]. split; [lia|exact H4].
Qed.

(** A gem within 5 pixels and a chest within 26 are taken, a gem 87 pixels
    away is left. *)
Lemma drops_conserved_witness :
  let pull := fun (pos _ : Vector2) (_ _ : Q) => pos in
  let far := Pickups.spawn (Drops.ExperienceGem (90, 0)%Q Drops.small 1) in
  let drops :=
    [Pickups.spawn (Drops.ExperienceGem (0, 0)%Q Drops.medium 5); far;
     Pickups.spawn (Drops.Chest (20, 0)%Q)] in
  let r := Pickups.DropManager_update pull (1 # 60) (3, 4)%Q 80 drops in
  Pickups.xp r.2 = 5 /\ length (Pickups.chests r.2) = 1%nat
  /\ r.1 = [far]
  /\ gem_total drops = Pickups.xp r.2 + gem_total r.1.
Proof.
  intros pull far drops r.
  assert (Forall (fun d => Pickups.collected d = false) drops) as Hall
    by (repeat constructor).
  pose proof (drops_conserved pull (1 # 60) (3, 4)%Q 80 drops Hall) as H.
  fold r in H. destruct r as [remaining tally] eqn:E.
  split; [by vm_compute in E; injection E as <- <-|].
  split; [by vm_compute in E; injection E as <- <-|].
  split; [by vm_compute in E; injection E as <- <-|].
  destruct H as (_ & _ & _ & _ & H & _). exact H.
Defined.

End Collecting.
